(** * NYC schools pipeline (Schools.py): a shallow embedding and its properties

    The notebook script reads seven tabular sources about New York City
    high schools, normalises the school identifier (DBN), derives a few
    numeric features, condenses the finer-grained tables, merges everything
    on DBN and imputes missing values.

    Conventions of the embedding.
    - A Python [str] is a [string]; characters are code points below 256.
    - A Python [int] is a [Z].
    - A pandas cell is [NaN], a number or a text.  Numbers are exact
      rationals kept in lowest terms; rounding of binary floating point is
      outside the model.
    - A Python exception is a value of [exn]; code that can raise returns
      [result]. *)

From Stdlib Require Import ZArith QArith Qreduction List Bool Lia.
From Stdlib Require Import Ascii String DecimalString DecimalZ.
Import ListNotations.

Close Scope Q_scope.
Open Scope string_scope.
Open Scope nat_scope.

(** ** Python values and exceptions *)

Inductive exn : Type :=
| IndexError
| TypeError
| KeyError (name : string).

Inductive result (A : Type) : Type :=
| Ok (a : A)
| Raise (e : exn).

Arguments Ok {A} a.
Arguments Raise {A} e.

Definition bind {A B : Type} (r : result A) (k : A -> result B) : result B :=
  match r with
  | Ok a => k a
  | Raise e => Raise e
  end.

Notation "x <- r ;; k" := (bind r (fun x => k))
  (at level 61, r at next level, right associativity).

(** ** Strings *)

Module Str.

(** [len(s)] *)
Definition len (s : string) : nat := String.length s.

(** [str(n)] for a Python int: decimal digits, a minus sign when negative. *)
Definition of_int (n : Z) : string := NilZero.string_of_int (Z.to_int n).

(** Clamping of one slice bound, as [slice.indices] does for step 1. *)
Definition clamp (n : nat) (i : Z) : nat :=
  if (i <? 0)%Z then Z.to_nat (Z.max 0 (i + Z.of_nat n))
  else Nat.min (Z.to_nat i) n.

(** [s[start:stop]] *)
Definition slice (s : string) (start stop : Z) : string :=
  let a := clamp (len s) start in
  let b := clamp (len s) stop in
  substring a (b - a) s.

Fixpoint take (n : nat) (s : string) : string :=
  match n, s with
  | S k, String c r => String c (take k r)
  | _, _ => EmptyString
  end.

(** [s.replace(c, "")] for a one-character [c]. *)
Fixpoint remove (c : ascii) (s : string) : string :=
  match s with
  | EmptyString => EmptyString
  | String x r => if Ascii.eqb x c then remove c r else String x (remove c r)
  end.

(** Membership of a character. *)
Fixpoint mem (c : ascii) (s : string) : bool :=
  match s with
  | EmptyString => false
  | String x r => Ascii.eqb x c || mem c r
  end.

(** The code points [str.isspace] accepts below 256. *)
Definition is_space (c : ascii) : bool :=
  let n := nat_of_ascii c in
  ((9 <=? n) && (n <=? 13)) || ((28 <=? n) && (n <=? 32))
  || (n =? 133) || (n =? 160).

Fixpoint lstrip (s : string) : string :=
  match s with
  | EmptyString => EmptyString
  | String x r => if is_space x then lstrip r else s
  end.

Fixpoint rstrip (s : string) : string :=
  match s with
  | EmptyString => EmptyString
  | String x r =>
      match rstrip r with
      | EmptyString => if is_space x then EmptyString else String x EmptyString
      | r' => String x r'
      end
  end.

(** [s.strip()] *)
Definition strip (s : string) : string := rstrip (lstrip s).

(** [s.split(c)] for a one-character separator: always at least one piece. *)
Fixpoint split (c : ascii) (s : string) : string * list string :=
  match s with
  | EmptyString => (EmptyString, [])
  | String x r =>
      let '(h, t) := split c r in
      if Ascii.eqb x c then (EmptyString, h :: t) else (String x h, t)
  end.

End Str.

(** ** Key normaliser: [pad_csd] and the class-size DBN *)

(** [pad_csd(num)], lines 115-120. *)
Definition pad_csd (num : Z) : string :=
  let string_representation := Str.of_int num in
  if (1 <? Str.len string_representation)%nat then string_representation
  else "0" ++ string_representation.

(** ** School district: [get_first_two_chars] *)

(** [get_first_two_chars(dbn)], lines 225-226. *)
Definition get_first_two_chars (dbn : string) : string := Str.slice dbn 0 2.

(** ** Regular expressions: the fragment [re.findall] is used with

    The only pattern of the script is ["\(.+, .+\)"]: literal characters
    and the greedy [.+], where [.] is any character but a line feed. *)

Module Re.

Inductive atom : Type :=
| Lit (c : ascii)
| AnyPlus.

Definition newline : ascii := "010"%char.

(** Match the pattern at the start of the text and return the matched
    text.  [AnyPlus] first tries to take one more character (greedy) and
    only then hands over to the rest of the pattern, which is the order a
    backtracking matcher explores. *)
Fixpoint match_here (p : list atom) : string -> option string :=
  match p with
  | [] => fun _ => Some EmptyString
  | Lit c :: p' =>
      fun s =>
        match s with
        | String x r =>
            if Ascii.eqb x c then option_map (String x) (match_here p' r)
            else None
        | EmptyString => None
        end
  | AnyPlus :: p' =>
      fix plus (s : string) : option string :=
        match s with
        | String x r =>
            if Ascii.eqb x newline then None
            else match plus r with
                 | Some m => Some (String x m)
                 | None => option_map (String x) (match_here p' r)
                 end
        | EmptyString => None
        end
  end.

(** Scan left to right; [skip] counts the characters still covered by the
    previous match, so that matches do not overlap. *)
Fixpoint scan (p : list atom) (skip : nat) (s : string) : list string :=
  match skip, s with
  | S k, String _ r => scan p k r
  | S _, EmptyString => []
  | O, _ =>
      match match_here p s, s with
      | Some m, String _ r => m :: scan p (String.length m - 1) r
      | Some m, EmptyString => [m]
      | None, String _ r => scan p 0 r
      | None, EmptyString => []
      end
  end.

(** [re.findall(p, s)] for a pattern without groups. *)
Definition findall (p : list atom) (s : string) : list string := scan p 0 s.

End Re.

(** ** Feature deriver: coordinates *)

(** The pattern ["\(.+, .+\)"] of lines 145 and 150. *)
Definition coords_re : list Re.atom :=
  [Re.Lit "("; Re.AnyPlus; Re.Lit ","; Re.Lit " "; Re.AnyPlus; Re.Lit ")"]%char.

(** [xs[i]] on a Python list, for a non-negative [i]. *)
Definition index {A : Type} (xs : list A) (i : nat) : result A :=
  match nth_error xs i with
  | Some x => Ok x
  | None => Raise IndexError
  end.

(** [s.split(",")] as a Python list. *)
Definition split_comma (s : string) : list string :=
  let '(h, t) := Str.split ","%char s in h :: t.

(** [find_lat(loc)], lines 144-147. *)
Definition find_lat (loc : string) : result string :=
  let coords := Re.findall coords_re loc in
  c0 <- index coords 0 ;;
  piece <- index (split_comma c0) 0 ;;
  Ok (Str.remove "("%char piece).

(** [find_lon(loc)], lines 149-152. *)
Definition find_lon (loc : string) : result string :=
  let coords := Re.findall coords_re loc in
  c0 <- index coords 0 ;;
  piece <- index (split_comma c0) 1 ;;
  Ok (Str.strip (Str.remove ")"%char piece)).

(** ** Tables: the fragment of pandas the script uses *)

Module Pd.

Local Open Scope list_scope.

(** A cell of a table: the missing marker, a number or a text. *)
Inductive cell : Type :=
| NaN
| Num (q : Q)
| Text (s : string).

(** The dtype of a column: a numeric dtype or [object]. *)
Inductive dtype : Type :=
| Numeric
| Object.

(** A DataFrame, row by row; [columns] gives name and dtype of each
    position of a row. *)
Record frame : Type := mkFrame {
  columns : list (string * dtype);
  rows : list (list cell)
}.

Definition width (f : frame) : nat := List.length (columns f).

(** Every row has one cell per column. *)
Definition wf (f : frame) : Prop :=
  Forall (fun r => List.length r = width f) (rows f).

Definition is_nan (c : cell) : bool :=
  match c with NaN => true | _ => false end.

(** Elementwise [==]: the missing marker equals nothing. *)
Definition cell_eqb (a b : cell) : bool :=
  match a, b with
  | Num x, Num y => Qeq_bool x y
  | Text s, Text t => String.eqb s t
  | _, _ => false
  end.

(** Equality of join and group keys: as [cell_eqb], but two missing keys
    match each other. *)
Definition key_eqb (a b : cell) : bool :=
  match a, b with
  | NaN, NaN => true
  | _, _ => cell_eqb a b
  end.

(** Position of the first column of that name. *)
Fixpoint find_col (name : string) (cols : list (string * dtype)) : option nat :=
  match cols with
  | [] => None
  | (n, _) :: t =>
      if String.eqb n name then Some 0 else option_map S (find_col name t)
  end.

Definition col_index (f : frame) (name : string) : result nat :=
  match find_col name (columns f) with
  | Some i => Ok i
  | None => Raise (KeyError name)
  end.

Definition at_col (i : nat) (r : list cell) : cell := nth i r NaN.

(** [f[name]] *)
Definition getitem (f : frame) (name : string) : result (list cell) :=
  i <- col_index f name ;;
  Ok (map (at_col i) (rows f)).

Fixpoint replace_nth {A : Type} (i : nat) (v : A) (l : list A) : list A :=
  match i, l with
  | O, _ :: t => v :: t
  | S k, x :: t => x :: replace_nth k v t
  | _, [] => []
  end.

Fixpoint remove_nth {A : Type} (i : nat) (l : list A) : list A :=
  match i, l with
  | O, _ :: t => t
  | S k, x :: t => x :: remove_nth k t
  | _, [] => []
  end.

Fixpoint zip_with {A B C : Type} (g : A -> B -> C)
  (xs : list A) (ys : list B) : list C :=
  match xs, ys with
  | x :: xs', y :: ys' => g x y :: zip_with g xs' ys'
  | _, _ => []
  end.

(** [f[name] = values]: overwrite the column of that name or add one at
    the right. *)
Definition setitem (f : frame) (name : string) (dt : dtype)
  (values : list cell) : frame :=
  match find_col name (columns f) with
  | Some i =>
      mkFrame (replace_nth i (name, dt) (columns f))
              (zip_with (fun r v => replace_nth i v r) (rows f) values)
  | None =>
      mkFrame (columns f ++ [(name, dt)])
              (zip_with (fun r v => r ++ [v]) (rows f) values)
  end.

(** [f[f[name] == value]] *)
Definition filter_eq (f : frame) (name : string) (value : cell) : result frame :=
  i <- col_index f name ;;
  Ok (mkFrame (columns f)
              (filter (fun r => cell_eqb (at_col i r) value) (rows f))).

(** *** Means *)

Definition numbers (cs : list cell) : list Q :=
  flat_map (fun c => match c with Num q => [q] | _ => [] end) cs.

Definition Qsum (qs : list Q) : Q := fold_right Qplus 0%Q qs.

(** Mean of the numbers of a column, skipping missing cells; the missing
    marker when there is no number. *)
Definition mean (cs : list cell) : cell :=
  match numbers cs with
  | [] => NaN
  | qs => Num (Qred (Qsum qs / inject_Z (Z.of_nat (List.length qs))))
  end.

(** *** Grouping *)

(** Order of group keys: numbers by value, texts by code points. *)
Definition cell_leb (a b : cell) : bool :=
  match a, b with
  | NaN, _ => true
  | _, NaN => false
  | Num x, Num y => Qle_bool x y
  | Num _, Text _ => true
  | Text _, Num _ => false
  | Text s, Text t => String.leb s t
  end.

(** The keys of a column, one of each, without looking at the order. *)
Fixpoint dedup_keys (ks : list cell) : list cell :=
  match ks with
  | [] => []
  | k :: t =>
      if existsb (key_eqb k) t then dedup_keys t else k :: dedup_keys t
  end.

Fixpoint insert_key (k : cell) (ks : list cell) : list cell :=
  match ks with
  | [] => [k]
  | h :: t => if cell_leb k h then k :: ks else h :: insert_key k t
  end.

Definition sort_keys (ks : list cell) : list cell :=
  fold_right insert_key [] ks.

(** The distinct keys of a column in increasing order; rows with a
    missing key belong to no group. *)
Definition group_keys (cs : list cell) : list cell :=
  sort_keys (dedup_keys (filter (fun c => negb (is_nan c)) cs)).

Fixpoint enumerate_from {A : Type} (n : nat) (l : list A) : list (nat * A) :=
  match l with
  | [] => []
  | x :: t => (n, x) :: enumerate_from (S n) t
  end.

Definition is_numeric (dt : dtype) : bool :=
  match dt with Numeric => true | Object => false end.

(** The columns a mean is taken of: numeric ones, the key apart. *)
Definition mean_columns (i : nat) (cols : list (string * dtype))
  : list (nat * (string * dtype)) :=
  filter (fun jc => negb (Nat.eqb (fst jc) i) && is_numeric (snd (snd jc)))
         (enumerate_from 0 cols).

Definition group_of (i : nat) (k : cell) (rs : list (list cell))
  : list (list cell) :=
  filter (fun r => key_eqb (at_col i r) k) rs.

(** [f.groupby(key).agg(np.mean)] followed by [reset_index]: one row per
    key, the key first, then the mean of every numeric column.  Columns of
    dtype object are left out, as the pandas releases do on which the
    script runs (its frames mix text and numeric columns, and it takes
    means of them here and at line 214). *)
Definition groupby_mean (f : frame) (key : string) : result frame :=
  i <- col_index f key ;;
  let kept := mean_columns i (columns f) in
  let keys := group_keys (map (at_col i) (rows f)) in
  Ok (mkFrame
        ((key, snd (nth i (columns f) (key, Object)))
           :: map (fun jc => (fst (snd jc), Numeric)) kept)
        (map (fun k =>
                k :: map (fun jc =>
                            mean (map (at_col (fst jc)) (group_of i k (rows f))))
                         kept)
             keys)).

(** *** Joins *)

Inductive how : Type :=
| Left
| Inner.

(** A column name shared by both sides, the key apart, gets a suffix. *)
Definition suffixed (key : string) (other : list string) (sfx : string)
  (c : string * dtype) : string * dtype :=
  if negb (String.eqb (fst c) key) && existsb (String.eqb (fst c)) other
  then ((fst c ++ sfx)%string, snd c)
  else c.

Definition matches (il ir : nat) (lr : list cell) (rs : list (list cell))
  : list (list cell) :=
  filter (fun rr => key_eqb (at_col il lr) (at_col ir rr)) rs.

(** The rows one left row contributes: one per matching right row; with
    no match, nothing for an inner join and the row padded with missing
    cells for a left join. *)
Definition join_row (h : how) (il ir pad : nat) (rs : list (list cell))
  (lr : list cell) : list (list cell) :=
  match matches il ir lr rs with
  | [] =>
      match h with
      | Left => [lr ++ repeat NaN pad]
      | Inner => []
      end
  | ms => map (fun rr => lr ++ remove_nth ir rr) ms
  end.

(** [l.merge(r, on=key, how=h)] *)
Definition merge (l r : frame) (key : string) (h : how) : result frame :=
  il <- col_index l key ;;
  ir <- col_index r key ;;
  let rc := remove_nth ir (columns r) in
  Ok (mkFrame
        (map (suffixed key (map fst rc) "_x") (columns l)
           ++ map (suffixed key (map fst (columns l)) "_y") rc)
        (flat_map (join_row h il ir (List.length rc) (rows r)) (rows l))).

(** *** Missing values *)

(** [f.mean()]: a mean per numeric column, none for a column of dtype
    object (represented by the missing marker, which fills nothing); the
    mean of a numeric column without numbers is the missing marker too. *)
Definition column_means (f : frame) : list cell :=
  map (fun jc =>
         if is_numeric (snd (snd jc))
         then mean (map (at_col (fst jc)) (rows f))
         else NaN)
      (enumerate_from 0 (columns f)).

Definition fill (c v : cell) : cell := if is_nan c then v else c.

(** [f.fillna(fills)] with one fill value per column. *)
Definition fillna_each (f : frame) (fills : list cell) : frame :=
  mkFrame (columns f) (map (fun r => zip_with fill r fills) (rows f)).

(** [f.fillna(v)] with a scalar. *)
Definition fillna (f : frame) (v : cell) : frame :=
  mkFrame (columns f) (map (map (fun c => fill c v)) (rows f)).

End Pd.

(** ** The pipeline of the script *)

Import Pd.

(** Run a fallible function over a list, stopping at the first exception. *)
Fixpoint traverse {A B : Type} (g : A -> result B) (xs : list A)
  : result (list B) :=
  match xs with
  | [] => Ok []
  | x :: t =>
      y <- g x ;;
      ys <- traverse g t ;;
      Ok (y :: ys)
  end.

(** [Series.apply(g)] for a function on strings: any other cell makes the
    function raise a [TypeError]. *)
Definition apply_str (g : string -> result string) (cs : list cell)
  : result (list cell) :=
  traverse (fun c =>
              match c with
              | Text s => t <- g s ;; Ok (Text t)
              | _ => Raise TypeError
              end) cs.

(** Elementwise [+]: numbers add, texts concatenate, a missing operand
    gives a missing result. *)
Definition cell_add (a b : cell) : result cell :=
  match a, b with
  | NaN, _ | _, NaN => Ok NaN
  | Num x, Num y => Ok (Num (Qred (x + y)))
  | Text s, Text t => Ok (Text (s ++ t))
  | _, _ => Raise TypeError
  end.

Fixpoint series_add (xs ys : list cell) : result (list cell) :=
  match xs, ys with
  | x :: xs', y :: ys' =>
      z <- cell_add x y ;;
      zs <- series_add xs' ys' ;;
      Ok (z :: zs)
  | _, _ => Ok []
  end.

(** *** Key normaliser, lines 123-124 *)

(** The DBN column of the class-size table, from its district codes and
    school codes. *)
Definition class_size_DBN (csd : list Z) (school_code : list string)
  : list string :=
  let padded_csd := map pad_csd csd in
  zip_with append padded_csd school_code.

Section Pipeline.

(** The number parser behind [pd.to_numeric]: the number a text denotes,
    if it denotes one. *)
Variable parse_number : string -> option Q.

(** [pd.to_numeric(_, errors="coerce")] on one cell. *)
Definition coerce (c : cell) : cell :=
  match c with
  | Text s =>
      match parse_number s with
      | Some q => Num q
      | None => NaN
      end
  | _ => c
  end.

Definition to_numeric (cs : list cell) : list cell := map coerce cs.

(** [f[c] = pd.to_numeric(f[c], errors="coerce")] *)
Definition coerce_column (f : frame) (c : string) : result frame :=
  v <- getitem f c ;;
  Ok (setitem f c Numeric (to_numeric v)).

(** *** Feature deriver *)

Definition sat_math : string := "SAT Math Avg. Score".
Definition sat_reading : string := "SAT Critical Reading Avg. Score".
Definition sat_writing : string := "SAT Writing Avg. Score".

(** Lines 138-142: coerce the three section scores and add them up. *)
Definition derive_sat_score (sat_results : frame) : result frame :=
  f1 <- coerce_column sat_results sat_math ;;
  f2 <- coerce_column f1 sat_reading ;;
  f3 <- coerce_column f2 sat_writing ;;
  m <- getitem f3 sat_math ;;
  r <- getitem f3 sat_reading ;;
  w <- getitem f3 sat_writing ;;
  mr <- series_add m r ;;
  mrw <- series_add mr w ;;
  Ok (setitem f3 "sat_score" Numeric mrw).

(** Lines 154-158: latitude and longitude of the directory. *)
Definition derive_coordinates (hs_directory : frame) : result frame :=
  loc <- getitem hs_directory "Location 1" ;;
  lat <- apply_str find_lat loc ;;
  let f1 := setitem hs_directory "lat" Object lat in
  loc' <- getitem f1 "Location 1" ;;
  lon <- apply_str find_lon loc' ;;
  let f2 := setitem f1 "lon" Object lon in
  f3 <- coerce_column f2 "lat" ;;
  coerce_column f3 "lon".

(** Lines 191-194. *)
Definition coerce_ap (ap_2010 : frame) : result frame :=
  f1 <- coerce_column ap_2010 "AP Test Takers " ;;
  f2 <- coerce_column f1 "Total Exams Taken" ;;
  coerce_column f2 "Number of Exams with scores 3 4 or 5".

End Pipeline.

(** *** Condenser, lines 172-183 *)

(** Lines 173-174: the two row filters. *)
Definition retain_gen_ed (class_size : frame) : result frame :=
  class_size <- filter_eq class_size "GRADE " (Text "09-12") ;;
  filter_eq class_size "PROGRAM TYPE" (Text "GEN ED").

(** Lines 172-178. *)
Definition condense_class_size (class_size : frame) : result frame :=
  class_size <- retain_gen_ed class_size ;;
  groupby_mean class_size "DBN".

Definition condense_demographics (demographics : frame) : result frame :=
  filter_eq demographics "schoolyear" (Num (inject_Z 20112012)).

Definition condense_graduation (graduation : frame) : result frame :=
  f1 <- filter_eq graduation "Cohort" (Text "2006") ;;
  filter_eq f1 "Demographic" (Text "Total Cohort").

(** *** Merger, lines 204-215 *)

(** The tables of the dictionary [data] at the time of the merge. *)
Record data : Type := mkData {
  sat_results : frame;
  ap_2010 : frame;
  graduation : frame;
  class_size : frame;
  demographics : frame;
  survey : frame;
  hs_directory : frame
}.

(** Lines 204-207: the two left joins. *)
Definition left_joins (d : data) : result frame :=
  let combined := sat_results d in
  combined <- merge combined (ap_2010 d) "DBN" Left ;;
  merge combined (graduation d) "DBN" Left.

(** Lines 209-212: the loop over [to_merge]. *)
Definition inner_joins (combined : frame) (to_merge : list frame) : result frame :=
  fold_left (fun acc m => c <- acc ;; merge c m "DBN" Inner) to_merge (Ok combined).

Definition merged (d : data) : result frame :=
  combined <- left_joins d ;;
  inner_joins combined [class_size d; demographics d; survey d; hs_directory d].

(** Lines 214-215. *)
Definition impute (combined : frame) : frame :=
  let combined := fillna_each combined (column_means combined) in
  fillna combined (Num 0).

Definition combined (d : data) : result frame :=
  c <- merged d ;;
  Ok (impute c).

(** Line 228. *)
Definition add_school_dist (combined : frame) : result frame :=
  dbn <- getitem combined "DBN" ;;
  dist <- apply_str (fun s => Ok (get_first_two_chars s)) dbn ;;
  Ok (setitem combined "school_dist" Object dist).

(** *** A number parser for the examples

    Plain decimal literals: an optional sign, digits, and an optional
    fractional part.  The theorems below hold for every parser; this one
    instantiates them on concrete tables. *)

Definition decimal_literal (s : string) : option Q :=
  let '(negative, body) :=
    match s with
    | String "-" r => (true, r)
    | String "+" r => (false, r)
    | _ => (false, s)
    end in
  let '(int_part, rest) := Str.split "."%char body in
  let frac_part := match rest with [] => Some EmptyString | [p] => Some p | _ => None end in
  match frac_part with
  | None => None
  | Some fp =>
      if (Str.len int_part + Str.len fp =? 0)%nat then None
      else
        match NilEmpty.uint_of_string int_part, NilEmpty.uint_of_string fp with
        | Some a, Some b =>
            let scale := (10 ^ Z.of_nat (Str.len fp))%Z in
            let n := (Z.of_uint a * scale + Z.of_uint b)%Z in
            Some (Qred (Qmake (if negative then - n else n) (Z.to_pos scale)))
        | _, _ => None
        end
  end.

(** *** Reference results

    What the claims expect of a derived cell, for comparison with what the
    pipeline computes. *)



(** A small SAT table: one school with all three scores, one with a
    placeholder text, one with an empty field. *)
Definition sat_example : frame :=
  mkFrame
    [("DBN", Object); (sat_math, Object); (sat_reading, Object);
     (sat_writing, Object)]
    [[Text "01M001"; Text "400"; Text "390"; Text "410"];
     [Text "01M002"; Text "s"; Text "390"; Text "410"];
     [Text "01M003"; Text "500"; NaN; Text "410"]].

(** *** The language of a pattern

    The texts a pattern matches, independently of the search order of
    [Re.match_here]. *)

Inductive Matches : list Re.atom -> string -> Prop :=
| Matches_nil : Matches [] EmptyString
| Matches_lit c p m : Matches p m -> Matches (Re.Lit c :: p) (String c m)
| Matches_plus a p m :
    a <> EmptyString -> Str.mem Re.newline a = false ->
    Matches p m -> Matches (Re.AnyPlus :: p) (a ++ m)%string.

(** A line feed comes before any comma. *)
Fixpoint newline_before_comma (s : string) : bool :=
  match s with
  | EmptyString => false
  | String x r =>
      if Ascii.eqb x Re.newline then true
      else if Ascii.eqb x ","%char then false
      else newline_before_comma r
  end.

(** Every opening parenthesis of the text is on a line that ends, inside
    the text, without a comma after the parenthesis. *)
Fixpoint groups_closed (s : string) : bool :=
  match s with
  | EmptyString => true
  | String x r =>
      (negb (Ascii.eqb x "("%char) || newline_before_comma r)
      && groups_closed r
  end.

(** A column of a table. *)
Definition column (f : frame) (j : nat) : list cell := map (at_col j) (rows f).

(** Key [k] occurs in column [i] of the table. *)
Definition has_key (f : frame) (i : nat) (k : cell) : bool :=
  existsb (fun r => key_eqb k (at_col i r)) (rows f).




(** *** A small instance of [data]

    Four schools have SAT results.  School 01M003 has no AP results and
    only 01M001 has graduation data; 01M005 has no class-size row.  The AP
    table also lists a school without SAT results. *)

Definition keyed (name : string) (kvs : list (string * cell)) : frame :=
  mkFrame [("DBN", Object); (name, Numeric)]
          (map (fun kv => [Text (fst kv); snd kv]) kvs).

Definition num (z : Z) : cell := Num (inject_Z z).

Definition data_example : data :=
  mkData
    (keyed "sat_score"
       [("01M001", num 1200); ("01M002", num 1100); ("01M003", num 1000);
        ("01M005", num 900)])
    (keyed "AP Test Takers "
       [("01M001", num 10); ("01M002", num 20); ("01M004", num 60)])
    (keyed "Total Grads - n" [("01M001", num 50)])
    (keyed "AVERAGE CLASS SIZE"
       [("01M001", num 25); ("01M002", num 30); ("01M003", num 20)])
    (keyed "frl_percent"
       [("01M001", num 70); ("01M002", num 80); ("01M003", num 90);
        ("01M005", num 60)])
    (keyed "saf_s_11"
       [("01M001", num 6); ("01M002", num 7); ("01M003", num 8);
        ("01M005", num 9)])
    (keyed "lat"
       [("01M001", num 40); ("01M002", num 40); ("01M003", num 40);
        ("01M005", num 40)]).

(** Number of rows of the table whose key in column [i] is [k]. *)
Definition count_key (f : frame) (i : nat) (k : cell) : nat :=
  List.length (group_of i k (rows f)).

(** A raw class-size table: two schools, several rows each, one row of
    another program type. *)
Definition class_size_example : frame :=
  mkFrame
    [("CSD", Numeric); ("DBN", Object); ("GRADE ", Object);
     ("PROGRAM TYPE", Object); ("AVERAGE CLASS SIZE", Numeric)]
    [[num 1; Text "01M002"; Text "09-12"; Text "GEN ED"; num 20];
     [num 1; Text "01M001"; Text "09-12"; Text "GEN ED"; num 30];
     [num 1; Text "01M002"; Text "09-12"; Text "GEN ED"; num 25];
     [num 1; Text "01M002"; Text "09-12"; Text "CTT"; num 100];
     [num 1; Text "01M001"; Text "0K-09"; Text "GEN ED"; num 12];
     [num 1; Text "01M001"; Text "09-12"; Text "GEN ED"; NaN]].

(** A demographics table in which one school has two rows for the school
    year 2011-2012. *)
Definition demographics_example : frame :=
  mkFrame
    [("DBN", Object); ("schoolyear", Numeric); ("frl_percent", Numeric)]
    [[Text "01M001"; num 20102011; num 60];
     [Text "01M001"; num 20112012; num 70];
     [Text "01M001"; num 20112012; num 71];
     [Text "01M002"; num 20112012; num 80]].

(** A graduation table with several cohorts and subgroups per school. *)
Definition graduation_example : frame :=
  mkFrame
    [("DBN", Object); ("Cohort", Object); ("Demographic", Object);
     ("Total Grads - n", Numeric)]
    [[Text "01M001"; Text "2006"; Text "Total Cohort"; num 50];
     [Text "01M001"; Text "2006"; Text "Male"; num 20];
     [Text "01M001"; Text "2005"; Text "Total Cohort"; num 40];
     [Text "01M002"; Text "2006 Aug"; Text "Total Cohort"; num 30]].

(** Each key is at most its successor. *)
Fixpoint sorted_keys (ks : list cell) : bool :=
  match ks with
  | [] => true
  | a :: t =>
      match t with
      | [] => true
      | b :: _ => cell_leb a b && sorted_keys t
      end
  end.

(** *** Key normaliser, lines 69 and 112 *)

Definition dtype_at (f : frame) (i : nat) : dtype :=
  snd (nth i (columns f) (EmptyString, Object)).

(** [f[dst] = f[src]] *)
Definition copy_column (f : frame) (src dst : string) : result frame :=
  i <- col_index f src ;;
  Ok (setitem f dst (dtype_at f i) (map (at_col i) (rows f))).

(** Line 112. *)
Definition add_directory_DBN (hs_directory : frame) : result frame :=
  copy_column hs_directory "dbn" "DBN".

(** *** Survey, lines 63-101 *)

Definition has_column (f : frame) (name : string) : bool :=
  match find_col name (columns f) with Some _ => true | None => false end.

Definition join_dtype (a b : dtype) : dtype :=
  match a, b with
  | Numeric, Numeric => Numeric
  | _, _ => Object
  end.

(** The cell of a row under a column name, missing when the table has no
    such column. *)
Definition cell_of (f : frame) (name : string) (r : list cell) : cell :=
  match find_col name (columns f) with
  | Some j => at_col j r
  | None => NaN
  end.

(** [pd.concat([f, g], axis=0)]: the rows of [f], then those of [g], under
    the columns of [f] followed by the columns only [g] has; a table
    without a column gets missing cells there. *)
Definition concat (f g : frame) : frame :=
  let extra := filter (fun c => negb (has_column f (fst c))) (columns g) in
  let cols :=
    (map (fun c => (fst c,
                   match find_col (fst c) (columns g) with
                   | Some j => join_dtype (snd c) (dtype_at g j)
                   | None => snd c
                   end)) (columns f) ++ extra)%list in
  mkFrame cols
    (map (fun r => (r ++ repeat NaN (List.length extra))%list) (rows f)
       ++ map (fun r => map (fun c => cell_of g (fst c) r) cols) (rows g))%list.

(** [f.loc[:, names]]: the named columns in the order of [names];
    a name the table does not have raises [KeyError] (pandas 1.x), here
    with the first such name. *)
Definition select_columns (f : frame) (names : list string) : result frame :=
  idx <- traverse (col_index f) names ;;
  Ok (mkFrame (map (fun i => nth i (columns f) (EmptyString, Object)) idx)
              (map (fun r => map (fun i => at_col i r) idx) (rows f))).

Definition survey_fields : list string :=
  ["DBN"; "rr_s"; "rr_t"; "rr_p"; "N_s"; "N_t"; "N_p";
   "saf_p_11"; "com_p_11"; "eng_p_11"; "aca_p_11";
   "saf_t_11"; "com_t_11"; "eng_t_11"; "aca_t_11";
   "saf_s_11"; "com_s_11"; "eng_s_11"; "aca_s_11";
   "saf_tot_11"; "com_tot_11"; "eng_tot_11"; "aca_tot_11"].

(** Lines 65-98. *)
Definition build_survey (all_survey d75_survey : frame) : result frame :=
  let survey := concat all_survey d75_survey in
  survey <- copy_column survey "dbn" "DBN" ;;
  select_columns survey survey_fields.

(** *** Analyzer: the two selections, lines 372 and 383 *)

(** Elementwise [> q] and [< q]: a missing cell compares false, a text
    cannot be compared with a number. *)
Definition cell_gt (q : Q) (c : cell) : result bool :=
  match c with
  | Num x => Ok (negb (Qle_bool x q))
  | NaN => Ok false
  | Text _ => Raise TypeError
  end.

Definition cell_lt (q : Q) (c : cell) : result bool :=
  match c with
  | Num x => Ok (negb (Qle_bool q x))
  | NaN => Ok false
  | Text _ => Raise TypeError
  end.

(** [f[mask]] *)
Definition select_rows (f : frame) (mask : list bool) : frame :=
  mkFrame (columns f) (map fst (filter snd (combine (rows f) mask))).

(** [combined[combined["hispanic_per"] > 95]] *)
Definition hispanic (combined : frame) : result frame :=
  h <- getitem combined "hispanic_per" ;;
  mask <- traverse (cell_gt (inject_Z 95)) h ;;
  Ok (select_rows combined mask).

(** [combined[(combined["hispanic_per"] < 10) & (combined["sat_score"] > 1800)]] *)
Definition high_hisp (combined : frame) : result frame :=
  h <- getitem combined "hispanic_per" ;;
  low <- traverse (cell_lt (inject_Z 10)) h ;;
  s <- getitem combined "sat_score" ;;
  high <- traverse (cell_gt (inject_Z 1800)) s ;;
  Ok (select_rows combined (zip_with andb low high)).

(** *** Loader, lines 42-55 *)

(** [s.replace(old, new)] for a non-empty [old]; [skip] counts the
    characters of an occurrence still to be passed over. *)
Fixpoint replace_from (old new : string) (skip : nat) (s : string) : string :=
  match s with
  | EmptyString => EmptyString
  | String x r =>
      match skip with
      | S k => replace_from old new k r
      | O =>
          if String.prefix old s
          then (new ++ replace_from old new (String.length old - 1) r)%string
          else String x (replace_from old new 0 r)
      end
  end.

Definition str_replace (old new s : string) : string := replace_from old new 0 s.

(** [d[key] = value] on a dict kept in insertion order. *)
Fixpoint dict_set {V : Type} (d : list (string * V)) (key : string) (value : V)
  : list (string * V) :=
  match d with
  | [] => [(key, value)]
  | (k, v) :: t =>
      if String.eqb k key then (k, value) :: t
      else (k, v) :: dict_set t key value
  end.

(** [d[key]] *)
Fixpoint dict_get {V : Type} (d : list (string * V)) (key : string) : result V :=
  match d with
  | [] => Raise (KeyError key)
  | (k, v) :: t => if String.eqb k key then Ok v else dict_get t key
  end.

Definition data_files : list string :=
  ["ap_2010.csv"; "class_size.csv"; "demographics.csv"; "graduation.csv";
   "hs_directory.csv"; "sat_results.csv"].

Section Loader.

(** [pd.read_csv]: the table a file holds, or the exception reading it
    raises. *)
Variable read_csv : string -> result frame.

(** The loop of lines 53-55, started from the dict [data]. *)
Fixpoint load (files : list string) (data : list (string * frame))
  : result (list (string * frame)) :=
  match files with
  | [] => Ok data
  | f :: rest =>
      d <- read_csv f ;;
      load rest (dict_set data (str_replace ".csv" "" f) d)
  end.

End Loader.

(** Lines 310-311. *)
Definition districts (combined : frame) : result frame :=
  groupby_mean combined "school_dist".

(** *** Predicates on cells and tables

    What the statements below say of a column or of the tables of [data]. *)

Definition is_text (c : cell) : bool :=
  match c with Text _ => true | _ => false end.

(** The cell is a text in which the coordinate pattern matches. *)
Definition has_coordinates (c : cell) : bool :=
  match c with
  | Text s => match Re.findall coords_re s with [] => false | _ => true end
  | _ => false
  end.

(** A cell of a numeric column: missing, or a number. *)
Definition numeric_cell (c : cell) : Prop := c = NaN \/ exists q, c = Num q.

(** Column [c] is numeric and coercion leaves its cells as they are. *)
Definition coerced (parse : string -> option Q) (f : frame) (c : string) : Prop :=
  exists i, find_col c (columns f) = Some i /\
            nth_error (columns f) i = Some (c, Numeric) /\
            to_numeric parse (column f i) = column f i.

(** A number above [q], a number below [q]. *)
Definition above (q : Q) (c : cell) : bool :=
  match c with Num x => negb (Qle_bool x q) | _ => false end.

Definition below (q : Q) (c : cell) : bool :=
  match c with Num x => negb (Qle_bool q x) | _ => false end.


(** The tables joined to the anchor, in the order of the joins. *)
Definition joined (d : data) : list frame :=
  [ap_2010 d; graduation d; class_size d; demographics d; survey d;
   hs_directory d].



(** *** More small tables *)

(** An AP table as read from the file: counts as texts, "s" where the
    count is suppressed. *)
Definition ap_example : frame :=
  mkFrame
    [("DBN", Object); ("AP Test Takers ", Object);
     ("Total Exams Taken", Object);
     ("Number of Exams with scores 3 4 or 5", Object)]
    [[Text "01M448"; Text "39"; Text "49"; Text "10"];
     [Text "01M450"; Text "s"; Text "21"; Text "s"]].

(** A directory with its lower-case key and two addresses. *)
Definition directory_example : frame :=
  mkFrame
    [("dbn", Object); ("Location 1", Object)]
    [[Text "17K548";
      Text ("883 Classon Avenue" ++ String Re.newline "Brooklyn, NY 11225"
            ++ String Re.newline "(40.670, -73.961)")];
     [Text "09X543";
      Text ("1110 Boston Road" ++ String Re.newline "Bronx, NY 10456"
            ++ String Re.newline "(40.827, -73.904)")]].

(** A survey file: the key, one column of its own, the given fields; every
    field of a school holds the same score. *)
Definition survey_file (own : string) (fields : list string)
  (schools : list (string * Z)) : frame :=
  mkFrame
    (("dbn", Object) :: (own, Object) :: map (fun n => (n, Numeric)) fields)
    (map (fun s => Text (fst s) :: Text own :: map (fun _ => num (snd s)) fields)
         schools).

(** The general survey has every field, the district-75 survey only the
    first six. *)
Definition all_survey_example : frame :=
  survey_file "bn" (tl survey_fields) [("01M015", 8%Z); ("01M019", 7%Z)].

Definition d75_survey_example : frame :=
  survey_file "schooltype" (firstn 6 (tl survey_fields)) [("75K004", 9%Z)].

(** A combined table of three schools in two districts. *)
Definition schools_example : frame :=
  mkFrame
    [("DBN", Object); ("hispanic_per", Numeric); ("sat_score", Numeric)]
    [[Text "01M015"; num 50; num 1200];
     [Text "02M047"; num 99; num 1000];
     [Text "02M475"; num 2; num 2000]].

(** A directory of files: reading a file returns the table stored under
    its name and raises for a name that is not there. *)
Definition files_example : list (string * frame) :=
  [("ap_2010.csv", ap_example); ("class_size.csv", class_size_example);
   ("demographics.csv", demographics_example);
   ("graduation.csv", graduation_example);
   ("hs_directory.csv", directory_example); ("sat_results.csv", sat_example)].

Definition read_from (files : list (string * frame)) (f : string)
  : result frame :=
  dict_get files f.

(** * Properties *)

(** ** Strings *)

Module StrFacts.

Lemma append_nil_r (s : string) : s ++ "" = s.
Proof. induction s; simpl; congruence. Qed.

Lemma append_assoc (a b c : string) : (a ++ b) ++ c = a ++ b ++ c.
Proof. induction a; simpl; congruence. Qed.

Lemma length_append (a b : string) :
  String.length (a ++ b) = String.length a + String.length b.
Proof. induction a; simpl; congruence. Qed.

Lemma substring_0 (n : nat) (s : string) : substring 0 n s = Str.take n s.
Proof.
  revert n; induction s as [|c r IH]; intros [|n]; simpl; try reflexivity.
  now rewrite IH.
Qed.

Lemma length_take (n : nat) (s : string) :
  String.length (Str.take n s) = Nat.min n (String.length s).
Proof.
  revert n; induction s as [|c r IH]; intros [|n]; simpl; try reflexivity.
  now rewrite IH.
Qed.

Lemma take_append (n : nat) (s : string) :
  exists rest, s = Str.take n s ++ rest.
Proof.
  revert n; induction s as [|c r IH]; intros n.
  - exists ""; now destruct n.
  - destruct n as [|n]; simpl.
    + now exists (String c r).
    + destruct (IH n) as [rest E]. exists rest. now rewrite <- E.
Qed.

End StrFacts.

(** ** Key normaliser *)

Lemma of_int_nonempty (n : Z) : 1 <= Str.len (Str.of_int n).
Proof.
  unfold Str.len, Str.of_int.
  destruct (Z.to_int n) as [d|d]; destruct d; simpl; lia.
Qed.

(** The string form of an int has one character exactly for 0 to 9. *)
Lemma of_int_short (n : Z) :
  Str.len (Str.of_int n) <= 1 <-> (0 <= n <= 9)%Z.
Proof.
  split.
  - unfold Str.len, Str.of_int. intros H.
    rewrite <- (DecimalZ.of_to n).
    destruct (Z.to_int n) as [d|d].
    + destruct d as [|d|d|d|d|d|d|d|d|d|d]; simpl in H;
        try (destruct d; simpl in H; try lia; vm_compute; split; discriminate).
      vm_compute; split; discriminate.
    + destruct d; simpl in H; try lia.
  - intros H.
    rewrite <- (Z2Nat.id n) by lia.
    assert (Hk : Z.to_nat n < 10) by lia.
    revert Hk. generalize (Z.to_nat n) as k. intros k Hk.
    do 10 (destruct k as [|k]; [vm_compute; lia|]). lia.
Qed.

(** C6: [pad_csd] is a total function of the district code; when the string
    form of the code has at most one character the result has exactly two
    (a zero is put in front), otherwise the result is the string form
    unchanged; [pad_csd 5 = "05"], [pad_csd 10 = "10"], [pad_csd 1 = "01"]. *)
Theorem pad_csd_total (num : Z) :
  (Str.len (Str.of_int num) <= 1 ->
   pad_csd num = "0" ++ Str.of_int num /\ Str.len (pad_csd num) = 2) /\
  (1 < Str.len (Str.of_int num) -> pad_csd num = Str.of_int num) /\
  pad_csd 5 = "05" /\ pad_csd 10 = "10" /\ pad_csd 1 = "01".
Proof.
  pose proof (of_int_nonempty num) as Hne.
  unfold pad_csd.
  destruct (Nat.ltb_spec 1 (Str.len (Str.of_int num))) as [Hlt|Hle].
  - split; [lia|]. split; [reflexivity|]. repeat split.
  - split; [|split; [lia|repeat split]].
    intros _. split; [reflexivity|].
    unfold Str.len in *. simpl. lia.
Qed.

Lemma pad_csd_total_witness :
  Str.len (Str.of_int 7) <= 1 /\ Str.len (pad_csd 7) = 2 /\
  1 < Str.len (Str.of_int 31) /\ pad_csd 31 = Str.of_int 31.
Proof.
  assert (H7 : Str.len (Str.of_int 7) <= 1) by (vm_compute; lia).
  assert (H31 : 1 < Str.len (Str.of_int 31)) by (vm_compute; lia).
  exact (conj H7 (conj (proj2 (proj1 (pad_csd_total 7) H7))
                 (conj H31 (proj1 (proj2 (pad_csd_total 31)) H31)))).
Defined.

(** C7: for every class-size row, given as its district code and school
    code, the constructed DBN is the padded district code followed by the
    school code; district 5 with school code M692 gives 05M692. *)
Theorem class_size_DBN_spec (rows : list (Z * string)) :
  class_size_DBN (map fst rows) (map snd rows)
  = map (fun r => pad_csd (fst r) ++ snd r) rows /\
  class_size_DBN [5%Z] ["M692"] = ["05M692"].
Proof.
  split; [|reflexivity].
  unfold class_size_DBN.
  induction rows as [|[d c] t IH]; simpl; [reflexivity|].
  now rewrite IH.
Qed.

(** ** School district *)

(** C10: [get_first_two_chars] is total on strings: it returns the first
    [min 2 (len dbn)] characters of its argument, hence the first two
    characters of every DBN that has at least two. *)
Theorem get_first_two_chars_total (dbn : string) :
  get_first_two_chars dbn = Str.take 2 dbn /\
  Str.len (get_first_two_chars dbn) = Nat.min 2 (Str.len dbn) /\
  (exists rest, dbn = get_first_two_chars dbn ++ rest) /\
  (forall a b r,
      get_first_two_chars (String a (String b r)) = String a (String b "")).
Proof.
  assert (E : forall s, get_first_two_chars s = Str.take 2 s).
  { intros s. unfold get_first_two_chars, Str.slice, Str.clamp, Str.len.
    simpl. rewrite Nat.sub_0_r, StrFacts.substring_0.
    destruct s as [|a [|b r]]; reflexivity. }
  repeat split.
  - apply E.
  - rewrite E. apply StrFacts.length_take.
  - rewrite E. apply StrFacts.take_append.
  - intros a b r. now rewrite E.
Qed.

(** ** Tables *)

Module PdFacts.


Lemma find_col_lt name cols i :
  find_col name cols = Some i -> i < List.length cols.
Proof.
  revert i; induction cols as [|[n d] t IH]; simpl; intros i H; [discriminate|].
  destruct (String.eqb n name).
  - injection H as <-. lia.
  - destruct (find_col name t) as [k|]; [|discriminate].
    injection H as <-. specialize (IH k eq_refl). lia.
Qed.

Lemma find_col_name name cols i :
  find_col name cols = Some i ->
  exists d, nth_error cols i = Some (name, d).
Proof.
  revert i; induction cols as [|[n d] t IH]; simpl; intros i H; [discriminate|].
  destruct (String.eqb_spec n name) as [->|Hn].
  - injection H as <-. now exists d.
  - destruct (find_col name t) as [k|]; [|discriminate].
    injection H as <-. now apply IH.
Qed.

Lemma find_col_inj a b cols i :
  find_col a cols = Some i -> find_col b cols = Some i -> a = b.
Proof.
  intros Ha Hb.
  destruct (find_col_name _ _ _ Ha) as [da Ea].
  destruct (find_col_name _ _ _ Hb) as [db Eb].
  congruence.
Qed.

Lemma find_col_replace c dt name cols i :
  find_col c cols = Some i ->
  find_col name (replace_nth i (c, dt) cols) = find_col name cols.
Proof.
  revert i; induction cols as [|[n d] t IH]; simpl; intros i H; [discriminate|].
  destruct (String.eqb_spec n c) as [->|Hn].
  - injection H as <-. reflexivity.
  - destruct (find_col c t) as [k|]; [|discriminate].
    injection H as <-. simpl. now rewrite (IH k eq_refl).
Qed.

Lemma length_replace_nth {A : Type} i (v : A) l :
  List.length (replace_nth i v l) = List.length l.
Proof.
  revert i; induction l as [|x t IH]; intros [|i]; simpl; auto.
Qed.

Lemma at_col_replace_same i v r :
  i < List.length r -> at_col i (replace_nth i v r) = v.
Proof.
  unfold at_col. revert i; induction r as [|x t IH]; intros [|i]; simpl; intros H;
    try lia; auto. apply IH. lia.
Qed.

Lemma at_col_replace_other i j v r :
  j <> i -> at_col j (replace_nth i v r) = at_col j r.
Proof.
  unfold at_col. revert i j; induction r as [|x t IH]; intros [|i] [|j]; simpl;
    intros H; try congruence; auto.
Qed.

Lemma at_col_snoc r v : at_col (List.length r) (r ++ [v]) = v.
Proof. unfold at_col. induction r; simpl; auto. Qed.

Lemma find_col_app_none name cols dt :
  find_col name cols = None ->
  find_col name (cols ++ [(name, dt)]) = Some (List.length cols).
Proof.
  induction cols as [|[n d] t IH]; simpl; intros H.
  - now rewrite String.eqb_refl.
  - destruct (String.eqb n name); [discriminate|].
    destruct (find_col name t); [discriminate|]. now rewrite IH.
Qed.


(** Reading back the column that was just assigned. *)
Lemma getitem_setitem f name dt vs :
  wf f -> List.length vs = List.length (rows f) ->
  getitem (setitem f name dt vs) name = Ok vs.
Proof.
  intros Hwf Hlen. unfold setitem, getitem, col_index.
  destruct (find_col name (columns f)) as [i|] eqn:E; simpl.
  - rewrite (find_col_replace _ _ _ _ _ E), E. simpl. f_equal.
    pose proof (find_col_lt _ _ _ E) as Hi.
    unfold wf, width in Hwf. revert vs Hlen Hwf.
    induction (rows f) as [|r t IH]; intros [|v vs] Hlen Hwf; simpl in *;
      try discriminate; auto.
    inversion Hwf; subst. f_equal.
    + apply at_col_replace_same. lia.
    + apply IH; auto.
  - rewrite (find_col_app_none _ _ _ E). simpl. f_equal.
    unfold wf, width in Hwf. revert vs Hlen Hwf.
    induction (rows f) as [|r t IH]; intros [|v vs] Hlen Hwf; simpl in *;
      try discriminate; auto.
    inversion Hwf; subst. f_equal.
    + rewrite <- H1. apply at_col_snoc.
    + apply IH; auto.
Qed.




Lemma coerce_cases parse c :
  coerce parse c = NaN \/ exists q, coerce parse c = Num q.
Proof.
  destruct c as [|q|s]; simpl; eauto.
  destruct (parse s); eauto.
Qed.

End PdFacts.

(** ** Feature deriver: the combined SAT score *)




(** Sections 400, 390 and 410 give 1200; a placeholder text or an empty
    field gives a missing combined score. *)
Example sat_score_example :
  (f <- derive_sat_score decimal_literal sat_example ;; getitem f "sat_score")
  = Ok [Num (inject_Z 1200); NaN; NaN].
Proof. reflexivity. Qed.

(** ** Regular expressions *)

Module ReFacts.

Lemma match_lit c p x r :
  Re.match_here (Re.Lit c :: p) (String x r)
  = if Ascii.eqb x c then option_map (String x) (Re.match_here p r) else None.
Proof. reflexivity. Qed.

Lemma match_plus p x r :
  Re.match_here (Re.AnyPlus :: p) (String x r)
  = if Ascii.eqb x Re.newline then None
    else match Re.match_here (Re.AnyPlus :: p) r with
         | Some m => Some (String x m)
         | None => option_map (String x) (Re.match_here p r)
         end.
Proof. reflexivity. Qed.


(** What is matched is a prefix of the text and belongs to the language. *)
Lemma match_here_sound p : forall s m,
  Re.match_here p s = Some m -> Matches p m /\ exists rest, s = m ++ rest.
Proof.
  induction p as [|[c|] p IH]; intros s m H.
  - injection H as <-. split; [constructor|now exists s].
  - destruct s as [|x r]; [discriminate|].
    rewrite match_lit in H. destruct (Ascii.eqb_spec x c) as [->|]; [|discriminate].
    destruct (Re.match_here p r) as [m'|] eqn:E; [|discriminate].
    injection H as <-. destruct (IH _ _ E) as [HM [rest ->]].
    split; [now constructor|now exists rest].
  - revert m H. induction s as [|x r IHs]; intros m H; [discriminate|].
    rewrite match_plus in H.
    destruct (Ascii.eqb x Re.newline) eqn:Ex; [discriminate|].
    destruct (Re.match_here (Re.AnyPlus :: p) r) as [m'|] eqn:E.
    + injection H as <-. destruct (IHs _ eq_refl) as [HM [rest ->]].
      split; [|now exists rest].
      inversion HM as [| |a p' m0 Ha Hn HM0]; subst.
      change (String x (a ++ m0)) with (String x a ++ m0).
      constructor; auto; [discriminate|]. simpl. now rewrite Ex.
    + destruct (Re.match_here p r) as [m'|] eqn:E'; [|discriminate].
      injection H as <-. destruct (IH _ _ E') as [HM [rest ->]].
      split; [|now exists rest].
      change (String x m') with (String x "" ++ m').
      constructor; auto; [discriminate|]. simpl. now rewrite Ex.
Qed.

(** A text that starts with a word of the language is matched. *)
Lemma match_here_complete p m :
  Matches p m -> forall rest, exists m', Re.match_here p (m ++ rest) = Some m'.
Proof.
  induction 1 as [|c p m HM IH|a p m Ha Hn HM IH]; intros rest.
  - now exists "".
  - simpl. rewrite Ascii.eqb_refl. destruct (IH rest) as [m' ->]. simpl. eauto.
  - rewrite StrFacts.append_assoc.
    induction a as [|x a IHa]; [congruence|].
    simpl in Hn. apply orb_false_iff in Hn as [Hx Hn].
    change (String x a ++ m ++ rest) with (String x (a ++ m ++ rest)).
    rewrite match_plus, Hx.
    destruct a as [|y a'].
    + change ("" ++ m ++ rest) with (m ++ rest).
      destruct (Re.match_here (Re.AnyPlus :: p) (m ++ rest)); [eauto|].
      destruct (IH rest) as [m' ->]. simpl. eauto.
    + destruct IHa as [m' ->]; [discriminate|exact Hn|]. eauto.
Qed.


Lemma scan_cons p x r :
  Re.scan p 0 (String x r)
  = match Re.match_here p (String x r) with
    | Some m => m :: Re.scan p (String.length m - 1) r
    | None => Re.scan p 0 r
    end.
Proof. reflexivity. Qed.

(** The first element of [findall] is the match at the first position
    where there is one. *)
Lemma findall_first p s m :
  Re.match_here p s = Some m -> exists t, Re.findall p s = m :: t.
Proof.
  intros H. unfold Re.findall. destruct s as [|x r].
  - simpl. rewrite H. eauto.
  - rewrite scan_cons, H. eauto.
Qed.

Lemma no_comma_on_line p r rest :
  newline_before_comma r = true ->
  Re.match_here (Re.AnyPlus :: Re.Lit ","%char :: p) (r ++ rest) = None.
Proof.
  induction r as [|x r IH]; intros H; [discriminate|].
  change (String x r ++ rest) with (String x (r ++ rest)).
  rewrite match_plus. simpl in H.
  destruct (Ascii.eqb x Re.newline); [reflexivity|].
  destruct (Ascii.eqb x ","%char); [discriminate|].
  rewrite (IH H).
  destruct r as [|y r']; [discriminate|].
  change (String y r' ++ rest) with (String y (r' ++ rest)).
  rewrite match_lit. simpl in H.
  destruct (Ascii.eqb_spec y ","%char) as [->|]; [|reflexivity].
  discriminate.
Qed.

(** No match starts inside a prefix whose groups are closed. *)
Lemma findall_skip pre s :
  groups_closed pre = true ->
  Re.findall coords_re (pre ++ s) = Re.findall coords_re s.
Proof.
  unfold Re.findall. induction pre as [|x r IH]; intros H; [reflexivity|].
  change (String x r ++ s) with (String x (r ++ s)).
  simpl in H. apply andb_true_iff in H as [Hx Hr].
  rewrite scan_cons.
  assert (E : Re.match_here coords_re (String x (r ++ s)) = None).
  { unfold coords_re. rewrite match_lit.
    destruct (Ascii.eqb x "("%char); [|reflexivity].
    simpl in Hx. now rewrite (no_comma_on_line _ _ _ Hx). }
  rewrite E. now apply IH.
Qed.

Lemma findall_no_paren s :
  Str.mem "("%char s = false -> Re.findall coords_re s = [].
Proof.
  unfold Re.findall. induction s as [|x r IH]; intros H; [reflexivity|].
  simpl in H. apply orb_false_iff in H as [Hx Hr].
  rewrite scan_cons. unfold coords_re at 1. rewrite match_lit, Hx. now apply IH.
Qed.

End ReFacts.

(** ** Cutting strings *)

Module SplitFacts.

Lemma mem_append c a b : Str.mem c (a ++ b) = Str.mem c a || Str.mem c b.
Proof. induction a as [|x a IH]; simpl; [reflexivity|]. now rewrite IH, orb_assoc. Qed.

Lemma remove_append c a b : Str.remove c (a ++ b) = Str.remove c a ++ Str.remove c b.
Proof.
  induction a as [|x a IH]; simpl; [reflexivity|].
  destruct (Ascii.eqb x c); simpl; now rewrite IH.
Qed.

Lemma remove_absent c a : Str.mem c a = false -> Str.remove c a = a.
Proof.
  induction a as [|x a IH]; simpl; intros H; [reflexivity|].
  apply orb_false_iff in H as [Hx Ha]. now rewrite Hx, IH.
Qed.

Lemma split_absent c a : Str.mem c a = false -> Str.split c a = (a, []).
Proof.
  induction a as [|x a IH]; simpl; intros H; [reflexivity|].
  apply orb_false_iff in H as [Hx Ha]. now rewrite IH, Hx.
Qed.

Lemma split_first c a b :
  Str.mem c a = false ->
  Str.split c (a ++ String c b)
  = (a, fst (Str.split c b) :: snd (Str.split c b)).
Proof.
  induction a as [|x a IH]; simpl; intros H.
  - rewrite Ascii.eqb_refl. now destruct (Str.split c b).
  - apply orb_false_iff in H as [Hx Ha]. now rewrite IH, Hx.
Qed.

(** Two ways of cutting one text at a separator, the first piece free of
    it: the cuts agree, or the second one is further right. *)
Lemma cut_eq c : forall x y x' y',
  x ++ String c y = x' ++ String c y' ->
  Str.mem c x = false ->
  (x' = x /\ y' = y) \/ (exists z, x' = x ++ String c z /\ y = z ++ String c y').
Proof.
  induction x as [|e x IH]; intros y x' y' E H.
  - destruct x' as [|d z]; simpl in E.
    + injection E as <-. now left.
    + injection E as <- ->. right. now exists z.
  - simpl in H. apply orb_false_iff in H as [He Hx].
    destruct x' as [|d z]; simpl in E.
    + injection E as -> _. now rewrite Ascii.eqb_refl in He.
    + injection E as <- E. destruct (IH _ _ _ E Hx) as [[-> ->]|[z' [-> ->]]].
      * now left.
      * right. now exists z'.
Qed.


(** When a text free of the separator is followed by more text, a cut at
    the separator leaves its right part inside what follows. *)
Lemma cut_suffix c : forall u v z w,
  u ++ v = z ++ String c w ->
  Str.mem c u = false ->
  exists z', v = z' ++ String c w.
Proof.
  induction u as [|e u IH]; intros v z w E H.
  - now exists z.
  - simpl in H. apply orb_false_iff in H as [He Hu].
    destruct z as [|d z]; simpl in E.
    + injection E as -> _. now rewrite Ascii.eqb_refl in He.
    + injection E as _ E. now apply (IH _ _ _ E).
Qed.

End SplitFacts.

(** ** Feature deriver: coordinates *)

(** A text without opening parenthesis has all its groups closed. *)
Lemma groups_closed_no_paren (pre : string) :
  Str.mem "("%char pre = false -> groups_closed pre = true.
Proof.
  induction pre as [|x r IH]; simpl; intros H; [reflexivity|].
  apply orb_false_iff in H as [Hx Hr]. now rewrite Hx, IH.
Qed.

(** The match at a coordinate pair that is alone on the rest of its line. *)
Lemma match_pair lat lon post :
  lat <> "" -> Str.mem ","%char lat = false ->
  Str.mem Re.newline lat = false ->
  lon <> "" -> Str.mem ","%char lon = false ->
  Str.mem ")"%char lon = false -> Str.mem Re.newline lon = false ->
  Str.mem ")"%char post = false ->
  Re.match_here coords_re ("(" ++ lat ++ ", " ++ lon ++ ")" ++ post)
  = Some ("(" ++ lat ++ ", " ++ lon ++ ")").
Proof.
  intros Hlat Clat Nlat Hlon Clon Plon Nlon Ppost.
  assert (HM : Matches coords_re ("(" ++ lat ++ ", " ++ lon ++ ")")).
  { unfold coords_re. simpl. constructor. constructor; auto.
    do 2 constructor. constructor; auto. do 2 constructor. }
  destruct (ReFacts.match_here_complete _ _ HM post) as [m Hm].
  replace (("(" ++ lat ++ ", " ++ lon ++ ")") ++ post)
    with ("(" ++ lat ++ ", " ++ lon ++ ")" ++ post) in Hm
    by (simpl; repeat (rewrite StrFacts.append_assoc; simpl); reflexivity).
  rewrite Hm. f_equal.
  destruct (ReFacts.match_here_sound _ _ _ Hm) as [HM' [rest E]].
  unfold coords_re in HM'.
  inversion HM' as [|c1 p1 m1 H1|]; subst; clear HM'.
  inversion H1 as [| |a p2 m2 Ha Na H2]; subst; clear H1.
  inversion H2 as [|c3 p3 m3 H3|]; subst; clear H2.
  inversion H3 as [|c4 p4 m4 H4|]; subst; clear H3.
  inversion H4 as [| |b p5 m5 Hb Nb H5]; subst; clear H4.
  inversion H5 as [|c6 p6 m6 H6|]; subst; clear H5.
  inversion H6; subst; clear H6.
  simpl in E. injection E as E.
  rewrite !StrFacts.append_assoc in E. simpl in E.
  rewrite !StrFacts.append_assoc in E. simpl in E.
  destruct (SplitFacts.cut_eq _ _ _ _ _ E Clat) as [[-> E']|[z [-> E']]].
  - injection E' as E'.
    destruct (SplitFacts.cut_eq _ _ _ _ _ (eq_sym E') Plon) as [[-> _]|[z [_ E'']]].
    + reflexivity.
    + rewrite E'', SplitFacts.mem_append in Ppost. simpl in Ppost.
      now rewrite orb_true_r in Ppost.
  - exfalso.
    change (String " " (lon ++ String ")" post))
      with (String " " lon ++ String ")" post) in E'.
    assert (Hu : Str.mem ","%char (String " " lon ++ String ")" "") = false).
    { rewrite SplitFacts.mem_append. simpl. now rewrite Clon. }
    replace (String " " lon ++ String ")" post)
      with ((String " " lon ++ String ")" "") ++ post) in E'
      by (now rewrite StrFacts.append_assoc).
    destruct (SplitFacts.cut_suffix _ _ _ _ _ E' Hu) as [z' Ez].
    rewrite Ez in Ppost. rewrite SplitFacts.mem_append in Ppost. simpl in Ppost.
    rewrite SplitFacts.mem_append in Ppost. simpl in Ppost.
    now rewrite !orb_true_r in Ppost.
Qed.

(** C4, amended: take a location string [pre ++ "(lat, lon)" ++ post] in
    which every opening parenthesis before the pair sits on an earlier line
    that has no comma after it, [lat] and [lon] are non-empty, on one line
    and free of commas, [lat] has no opening and [lon] no closing
    parenthesis, and no closing parenthesis follows the pair.  Then
    [find_lat] returns [lat] and [find_lon] returns [lon] stripped of
    surrounding whitespace. *)
Theorem find_coordinates (pre lat lon post : string) :
  groups_closed pre = true ->
  lat <> "" -> Str.mem ","%char lat = false -> Str.mem "("%char lat = false ->
  Str.mem Re.newline lat = false ->
  lon <> "" -> Str.mem ","%char lon = false -> Str.mem ")"%char lon = false ->
  Str.mem Re.newline lon = false ->
  Str.mem ")"%char post = false ->
  find_lat (pre ++ "(" ++ lat ++ ", " ++ lon ++ ")" ++ post) = Ok lat /\
  find_lon (pre ++ "(" ++ lat ++ ", " ++ lon ++ ")" ++ post)
  = Ok (Str.strip lon).
Proof.
  intros Hpre Hlat Clat Plat Nlat Hlon Clon Plon Nlon Ppost.
  pose proof (match_pair lat lon post Hlat Clat Nlat Hlon Clon Plon Nlon Ppost)
    as Hm.
  destruct (ReFacts.findall_first _ _ _ Hm) as [t Ht].
  assert (Hsplit : split_comma ("(" ++ lat ++ ", " ++ lon ++ ")")
                   = [String "(" lat; String " " (lon ++ ")")]).
  { unfold split_comma.
    change ("(" ++ lat ++ ", " ++ lon ++ ")")
      with (String "(" lat ++ String "," (String " " (lon ++ ")"))).
    rewrite SplitFacts.split_first by (simpl; exact Clat).
    rewrite SplitFacts.split_absent; [reflexivity|].
    simpl. rewrite SplitFacts.mem_append. simpl. now rewrite Clon. }
  unfold find_lat, find_lon.
  rewrite (ReFacts.findall_skip _ _ Hpre), Ht. cbn [index nth_error bind].
  rewrite Hsplit. cbn [index nth_error bind]. split.
  - simpl. now rewrite SplitFacts.remove_absent.
  - f_equal. simpl. rewrite SplitFacts.remove_append. simpl.
    rewrite StrFacts.append_nil_r.
    now rewrite SplitFacts.remove_absent.
Qed.

Lemma find_coordinates_witness :
  find_lat (("PS 1 (ANNEX)" ++ String Re.newline "BROOKLYN, NY 11225 ")
              ++ "(" ++ "40.650" ++ ", " ++ "-73.949" ++ ")" ++ "")
  = Ok "40.650" /\
  find_lon (("PS 1 (ANNEX)" ++ String Re.newline "BROOKLYN, NY 11225 ")
              ++ "(" ++ "40.650" ++ ", " ++ "-73.949" ++ ")" ++ "")
  = Ok (Str.strip "-73.949").
Proof.
  apply (find_coordinates
           ("PS 1 (ANNEX)" ++ String Re.newline "BROOKLYN, NY 11225 ")
           "40.650" "-73.949" "");
    solve [reflexivity | discriminate].
Defined.

(** The pair follows another parenthesized group on the same line: the
    match starts at the first group, and the latitude is not the text
    before the comma of the pair; coerced, it is missing. *)
Lemma find_lat_second_group :
  find_lat "ACME (ANNEX) ST (40.650, -73.949)" = Ok "ANNEX) ST 40.650" /\
  find_lat "ACME (ANNEX) ST (40.650, -73.949)" <> Ok "40.650" /\
  coerce decimal_literal (Text "ANNEX) ST 40.650") = NaN.
Proof. split; [reflexivity|split; [discriminate|reflexivity]]. Qed.

(** A parenthesized group after the pair on the same line spoils the
    longitude in the same way. *)
Example find_lon_group_after :
  find_lon "ACME (40.650, -73.949) (X)" = Ok "-73.949 (X".
Proof. reflexivity. Qed.

(** The location of the specification: both coordinates, as numbers. *)
Example coordinates_example :
  (f <- derive_coordinates decimal_literal
          (mkFrame [("DBN", Object); ("Location 1", Object)]
                   [[Text "01M001"; Text "123 MAIN ST (40.650, -73.949)"]]) ;;
   lat <- getitem f "lat" ;;
   lon <- getitem f "lon" ;;
   Ok (lat, lon))
  = Ok ([Num (Qmake 813 20)], [Num (Qmake (-73949) 1000)]).
Proof. reflexivity. Qed.

(** A location without an opening parenthesis has no match, and indexing
    the empty list of matches raises. *)
Lemma find_lat_no_paren (loc : string) :
  Str.mem "("%char loc = false ->
  find_lat loc = Raise IndexError /\ find_lon loc = Raise IndexError.
Proof.
  intros H. unfold find_lat, find_lon.
  now rewrite (ReFacts.findall_no_paren _ H).
Qed.

(** C5, at the failing input: for a location string without coordinates
    [find_lat] and [find_lon] raise [IndexError] instead of returning a
    missing marker, and so does the whole derivation of the two columns,
    whatever the number parser. *)
Theorem find_lat_raises :
  find_lat "NO COORDINATES" = Raise IndexError /\
  find_lon "NO COORDINATES" = Raise IndexError /\
  forall parse,
    derive_coordinates parse
      (mkFrame [("DBN", Object); ("Location 1", Object)]
               [[Text "01M001"; Text "NO COORDINATES"]])
    = Raise IndexError.
Proof. split; [reflexivity|split; [reflexivity|intros parse; reflexivity]]. Qed.

(** The numeric coercion itself never raises: every cell becomes a number
    or the missing marker. *)
Lemma to_numeric_total parse (cs : list cell) :
  Forall (fun c => c = NaN \/ exists q, c = Num q) (to_numeric parse cs).
Proof.
  unfold to_numeric. apply Forall_map, Forall_forall. intros c _.
  apply PdFacts.coerce_cases.
Qed.

(** ** Merger: the joins *)

Module MergeFacts.

Local Open Scope list_scope.












Section Anchor.

(** The rows of the anchor table, their width and the position of the key. *)
Variable A : list (list cell).
Variables n i : nat.
Hypothesis width_A : Forall (fun a => List.length a = n) A.
Hypothesis key_in_A : i < n.


End Anchor.

End MergeFacts.

Local Open Scope list_scope.






(** On the instance: the school without a class-size row is dropped, the
    schools without AP or graduation data are kept with missing cells. *)
Example merged_example :
  option_map rows (match merged data_example with Ok m => Some m | Raise _ => None end)
  = Some
      [[Text "01M001"; num 1200; num 10; num 50; num 25; num 70; num 6; num 40];
       [Text "01M002"; num 1100; num 20; NaN; num 30; num 80; num 7; num 40];
       [Text "01M003"; num 1000; NaN; NaN; num 20; num 90; num 8; num 40]].
Proof. reflexivity. Qed.

(** ** Merger: imputation *)

Module ImputeFacts.



Lemma length_zip_with {A B C : Type} (g : A -> B -> C) : forall xs ys,
  List.length (zip_with g xs ys) = Nat.min (List.length xs) (List.length ys).
Proof.
  induction xs as [|a xs IH]; intros [|b ys]; simpl; auto.
Qed.

Lemma at_col_nth_error j r c : nth_error r j = Some c -> at_col j r = c.
Proof. unfold at_col. intros H. now apply nth_error_nth. Qed.


Lemma length_column_means f : List.length (column_means f) = width f.
Proof.
  unfold column_means, width. rewrite length_map.
  generalize 0. induction (columns f); simpl; auto.
Qed.



End ImputeFacts.



(** A column with the values 10, 20 and a missing cell: the missing cell
    becomes 15. *)
Example impute_example :
  column (impute (keyed "x" [("a", num 10); ("b", num 20); ("c", NaN)])) 1
  = [num 10; num 20; num 15].
Proof. reflexivity. Qed.

(** A column without any number becomes zero in every row. *)
Example impute_all_missing :
  column (impute (keyed "x" [("a", NaN); ("b", NaN)])) 1 = [num 0; num 0].
Proof. reflexivity. Qed.


(** The imputation runs once, on the result of all the joins. *)
Lemma combined_imputes_merged (d : data) (m : frame) :
  merged d = Ok m -> combined d = Ok (impute m).
Proof. intros H. unfold combined. now rewrite H. Qed.

(** The means are those of the merged table: the AP table has 10, 20 and
    60 test takers (mean 30), but the school with 60 has no SAT results, and
    the school without AP results gets 15, the mean of 10 and 20. *)
Example combined_example :
  option_map rows (match combined data_example with Ok m => Some m | Raise _ => None end)
  = Some
      [[Text "01M001"; num 1200; num 10; num 50; num 25; num 70; num 6; num 40];
       [Text "01M002"; num 1100; num 20; num 50; num 30; num 80; num 7; num 40];
       [Text "01M003"; num 1000; num 15; num 50; num 20; num 90; num 8; num 40]].
Proof. reflexivity. Qed.

(** ** Condenser *)

Module GroupFacts.

Lemma key_eqb_refl k : key_eqb k k = true.
Proof.
  destruct k as [|q|s]; simpl; [reflexivity| |apply String.eqb_refl].
  apply Qeq_bool_iff. reflexivity.
Qed.

Lemma key_eqb_sym a b : key_eqb a b = key_eqb b a.
Proof.
  destruct a as [|x|s], b as [|y|t]; simpl; try reflexivity.
  - destruct (Qeq_bool x y) eqn:E, (Qeq_bool y x) eqn:E'; try reflexivity.
    + apply Qeq_bool_iff in E. symmetry in E. apply Qeq_bool_iff in E. congruence.
    + apply Qeq_bool_iff in E'. symmetry in E'. apply Qeq_bool_iff in E'. congruence.
  - apply String.eqb_sym.
Qed.

Lemma key_eqb_trans a b c :
  key_eqb a b = true -> key_eqb b c = true -> key_eqb a c = true.
Proof.
  destruct a as [|x|s], b as [|y|t], c as [|z|u]; simpl; try congruence.
  - intros H1 H2. apply Qeq_bool_iff in H1, H2. apply Qeq_bool_iff.
    now rewrite H1.
  - intros H1 H2. apply String.eqb_eq in H1, H2. subst. apply String.eqb_refl.
Qed.

Lemma dedup_subset ks y : In y (dedup_keys ks) -> In y ks.
Proof.
  induction ks as [|k t IH]; simpl; [tauto|].
  destruct (existsb (key_eqb k) t); simpl; intuition.
Qed.

Lemma filter_filter_and {A : Type} (p q : A -> bool) l :
  filter p (filter q l) = filter (fun x => q x && p x) l.
Proof.
  induction l as [|x t IH]; simpl; [reflexivity|].
  destruct (q x); simpl; [|exact IH]. destruct (p x); now rewrite IH.
Qed.

Lemma filter_none {A : Type} (p : A -> bool) l :
  (forall y, In y l -> p y = false) -> filter p l = [].
Proof.
  induction l as [|x t IH]; simpl; intros H; [reflexivity|].
  rewrite (H x) by now left. apply IH. intros y Hy. apply H. now right.
Qed.

Lemma dedup_count k ks :
  List.length (filter (key_eqb k) (dedup_keys ks)) <= 1.
Proof.
  induction ks as [|h t IH]; simpl; [lia|].
  destruct (existsb (key_eqb h) t) eqn:E; [exact IH|].
  simpl. destruct (key_eqb k h) eqn:Ekh; [|exact IH].
  rewrite filter_none; [simpl; lia|].
  intros y Hy. apply dedup_subset in Hy.
  destruct (key_eqb k y) eqn:Eky; [|reflexivity].
  assert (key_eqb h y = true).
  { apply key_eqb_trans with k; [|exact Eky]. now rewrite key_eqb_sym. }
  assert (existsb (key_eqb h) t = true) by (apply existsb_exists; eauto).
  congruence.
Qed.

Lemma insert_count (p : cell -> bool) x l :
  List.length (filter p (insert_key x l)) = List.length (filter p (x :: l)).
Proof.
  induction l as [|h t IH]; [reflexivity|].
  simpl insert_key. destruct (cell_leb x h); [reflexivity|].
  simpl in *. destruct (p h), (p x); simpl in *; lia.
Qed.

Lemma sort_count (p : cell -> bool) l :
  List.length (filter p (sort_keys l)) = List.length (filter p l).
Proof.
  induction l as [|h t IH]; [reflexivity|].
  simpl sort_keys. rewrite insert_count. simpl.
  destruct (p h); simpl; now rewrite IH.
Qed.

(** The keys of the groups are pairwise different. *)
Lemma group_keys_distinct k cs :
  List.length (filter (key_eqb k) (group_keys cs)) <= 1.
Proof. unfold group_keys. rewrite sort_count. apply dedup_count. Qed.

Lemma filter_eq_ok f name v i :
  find_col name (columns f) = Some i ->
  filter_eq f name v
  = Ok (mkFrame (columns f)
                (filter (fun r => cell_eqb (at_col i r) v) (rows f))).
Proof. intros H. unfold filter_eq, col_index. now rewrite H. Qed.

Lemma groupby_mean_ok f key i :
  find_col key (columns f) = Some i ->
  exists f', groupby_mean f key = Ok f' /\
    find_col key (columns f') = Some 0 /\
    forall k, count_key f' 0 k <= 1.
Proof.
  intros H. unfold groupby_mean, col_index. rewrite H. cbn [bind].
  eexists. split; [reflexivity|]. split.
  - cbn [columns find_col]. now rewrite String.eqb_refl.
  - intros k. unfold count_key, group_of. cbn [rows].
    etransitivity; [|apply (group_keys_distinct k (map (at_col i) (rows f)))].
    apply Nat.eq_le_incl.
    induction (group_keys (map (at_col i) (rows f))) as [|h t IH];
      [reflexivity|].
    simpl. unfold at_col at 1. simpl. rewrite (key_eqb_sym k h).
    destruct (key_eqb h k); simpl; now rewrite IH.
Qed.


Lemma cell_leb_total a b : cell_leb a b = false -> cell_leb b a = true.
Proof.
  destruct a as [|x|s], b as [|y|t]; simpl; try congruence.
  - intros H. apply Qle_bool_iff.
    destruct (Qlt_le_dec y x) as [L|L]; [now apply Qlt_le_weak|].
    apply Qle_bool_iff in L. congruence.
  - intros H. destruct (String.leb_total s t) as [L|L]; congruence.
Qed.

Lemma insert_sorted x l : sorted_keys l = true -> sorted_keys (insert_key x l) = true.
Proof.
  induction l as [|h t IH]; intros H; [reflexivity|].
  simpl insert_key. destruct (cell_leb x h) eqn:E.
  - simpl. simpl in H. now rewrite E, H.
  - apply cell_leb_total in E.
    destruct t as [|h' t']; [simpl; now rewrite E|].
    simpl in H. apply andb_true_iff in H as [Hh Ht].
    specialize (IH Ht). simpl insert_key in *.
    destruct (cell_leb x h'); simpl sorted_keys in *.
    + rewrite E. simpl. exact IH.
    + rewrite Hh. simpl. exact IH.
Qed.

Lemma sort_sorted l : sorted_keys (sort_keys l) = true.
Proof.
  induction l as [|h t IH]; [reflexivity|]. simpl sort_keys. now apply insert_sorted.
Qed.

Lemma sort_id l : sorted_keys l = true -> sort_keys l = l.
Proof.
  induction l as [|a t IH]; intros H; [reflexivity|].
  simpl sort_keys. destruct t as [|b t']; [reflexivity|].
  simpl in H. apply andb_true_iff in H as [Hab Ht].
  rewrite (IH Ht). simpl. now rewrite Hab.
Qed.

Lemma filter_all {A : Type} (p : A -> bool) l :
  Forall (fun x => p x = true) l -> filter p l = l.
Proof.
  induction 1 as [|x t Hx _ IH]; simpl; [reflexivity|]. now rewrite Hx, IH.
Qed.

Lemma filter_length_0 {A : Type} (p : A -> bool) l :
  List.length (filter p l) = 0 -> forall y, In y l -> p y = false.
Proof.
  induction l as [|x t IH]; simpl; [tauto|].
  destruct (p x) eqn:E; simpl; [discriminate|].
  intros H y [<-|Hy]; auto.
Qed.

Lemma dedup_id l :
  (forall k, List.length (filter (key_eqb k) l) <= 1) -> dedup_keys l = l.
Proof.
  induction l as [|h t IH]; intros H; [reflexivity|].
  simpl. pose proof (H h) as Hh. simpl in Hh. rewrite key_eqb_refl in Hh.
  simpl in Hh.
  assert (E : existsb (key_eqb h) t = false).
  { destruct (existsb (key_eqb h) t) eqn:E; [|reflexivity].
    apply existsb_exists in E as [y [Hy Ey]].
    rewrite (filter_length_0 (key_eqb h) t) in Ey by (auto; lia). discriminate. }
  rewrite E. f_equal. apply IH. intros k. specialize (H k). simpl in H.
  destruct (key_eqb k h); simpl in H; lia.
Qed.

Lemma insert_in x l y : In y (insert_key x l) -> y = x \/ In y l.
Proof.
  induction l as [|h t IH]; simpl; [intuition|].
  destruct (cell_leb x h); simpl; intuition.
Qed.

Lemma sort_in l y : In y (sort_keys l) -> In y l.
Proof.
  induction l as [|h t IH]; simpl; [tauto|].
  intros H. apply insert_in in H as [->|H]; auto.
Qed.

Lemma group_keys_not_nan cs :
  Forall (fun c => negb (is_nan c) = true) (group_keys cs).
Proof.
  apply Forall_forall. intros y Hy. unfold group_keys in Hy.
  apply sort_in, dedup_subset, filter_In in Hy. tauto.
Qed.

(** Grouping the keys of the groups changes nothing. *)
Lemma group_keys_idem cs : group_keys (group_keys cs) = group_keys cs.
Proof.
  unfold group_keys at 1.
  rewrite (filter_all _ _ (group_keys_not_nan cs)).
  rewrite dedup_id by (intros k; apply group_keys_distinct).
  apply sort_id. unfold group_keys. apply sort_sorted.
Qed.

Lemma filter_key k ks :
  (forall x, List.length (filter (key_eqb x) ks) <= 1) ->
  In k ks -> filter (fun k' => key_eqb k' k) ks = [k].
Proof.
  induction ks as [|h t IH]; intros D Hin; [destruct Hin|].
  assert (Dt : forall x, List.length (filter (key_eqb x) t) <= 1).
  { intros x. specialize (D x). simpl in D. destruct (key_eqb x h); simpl in D; lia. }
  pose proof (D k) as Dk. simpl in Dk. simpl.
  destruct Hin as [->|Hin].
  - rewrite key_eqb_refl in *. simpl in Dk. f_equal.
    apply filter_none. intros y Hy. rewrite key_eqb_sym.
    apply (filter_length_0 (key_eqb k) t); [lia|exact Hy].
  - rewrite (key_eqb_sym h k).
    destruct (key_eqb k h); simpl in Dk; [|now apply IH].
    exfalso.
    assert (key_eqb k k = false)
      by (apply (filter_length_0 (key_eqb k) t); [lia|exact Hin]).
    now rewrite key_eqb_refl in *.
Qed.

(** The mean of a single mean is that mean. *)
Lemma mean_singleton cs : mean [mean cs] = mean cs.
Proof.
  unfold mean at 2 3. destruct (numbers cs) as [|q qs]; [reflexivity|].
  generalize (Qsum (q :: qs) / inject_Z (Z.of_nat (List.length (q :: qs))))%Q.
  intros x. cbv [mean numbers flat_map app Qsum fold_right Datatypes.length].
  change (inject_Z (Z.of_nat 1)) with 1%Q. f_equal.
  apply Qred_complete. rewrite Qred_correct. field.
Qed.


Lemma filter_map_comm {A B : Type} (g : A -> B) (p : B -> bool) l :
  filter p (map g l) = map g (filter (fun x => p (g x)) l).
Proof.
  induction l as [|x t IH]; simpl; [reflexivity|].
  destruct (p (g x)); simpl; now rewrite IH.
Qed.

Lemma mean_columns_numeric {A : Type} (l : list (A * dtype)) : forall n,
  Forall (fun c => snd c = Numeric) l ->
  filter (fun jc => negb (Nat.eqb (fst jc) 0) && is_numeric (snd (snd jc)))
         (enumerate_from (S n) l)
  = enumerate_from (S n) l.
Proof.
  induction l as [|c t IH]; intros n H; [reflexivity|].
  inversion H as [|c' t' Hc Ht]; subst. simpl. rewrite Hc. simpl.
  now rewrite IH.
Qed.

Lemma names_enumerate (l : list (string * dtype)) : forall n,
  Forall (fun c => snd c = Numeric) l ->
  map (fun jc : nat * (string * dtype) => (fst (snd jc), Numeric))
      (enumerate_from n l) = l.
Proof.
  induction l as [|[name dt] t IH]; intros n H; [reflexivity|].
  inversion H as [|c' t' Hc Ht]; subst. simpl in *. subst.
  now rewrite IH.
Qed.

Lemma remean {A : Type} (L : list cell) : forall (pre : list cell) (cols : list A),
  List.length cols = List.length L ->
  Forall (fun c => mean [c] = c) L ->
  map (fun jc => mean [at_col (fst jc) (pre ++ L)])
      (enumerate_from (List.length pre) cols) = L.
Proof.
  induction L as [|c L IH]; intros pre [|x cols] Hlen HL; simpl in Hlen;
    try discriminate; [reflexivity|].
  inversion HL as [|c' L' Hc HL']; subst. simpl. f_equal.
  - unfold at_col. rewrite nth_middle. exact Hc.
  - specialize (IH (pre ++ [c]) cols).
    rewrite length_app, Nat.add_1_r, <- app_assoc in IH. simpl in IH.
    apply IH; [lia|exact HL'].
Qed.

(** Grouping a grouped table again by the same key gives it back. *)
Lemma groupby_mean_idem f key f' :
  groupby_mean f key = Ok f' -> groupby_mean f' key = Ok f'.
Proof.
  unfold groupby_mean at 1. unfold col_index.
  destruct (find_col key (columns f)) as [i|]; [|discriminate].
  cbn [bind]. intros H. injection H as <-.
  set (kept := mean_columns i (columns f)).
  set (keys := group_keys (map (at_col i) (rows f))).
  set (M := fun k (jc : nat * (string * dtype)) =>
              mean (map (at_col (fst jc)) (group_of i k (rows f)))).
  set (rest := map (fun jc : nat * (string * dtype) => (fst (snd jc), Numeric)) kept).
  assert (Hrest : Forall (fun c : string * dtype => snd c = Numeric) rest).
  { unfold rest. apply Forall_map, Forall_forall. reflexivity. }
  unfold groupby_mean, col_index. cbn [columns find_col].
  rewrite String.eqb_refl. cbn [bind rows columns nth snd].
  unfold mean_columns. cbn [enumerate_from filter fst Nat.eqb negb andb].
  rewrite (mean_columns_numeric rest 0 Hrest), (names_enumerate rest 1 Hrest).
  do 2 f_equal.
  set (R := fun k0 : cell => k0 :: map (M k0) kept).
  change (map (fun k => k :: map (fun jc : nat * (string * dtype) =>
                                    mean (map (at_col (fst jc))
                                              (group_of 0 k (map R keys))))
                                 (enumerate_from 1 rest))
              (group_keys (map (at_col 0) (map R keys)))
          = map R keys).
  assert (K : map (at_col 0) (map R keys) = keys).
  { rewrite map_map. rewrite <- (map_id keys) at 2. now apply map_ext. }
  rewrite K. unfold keys at 2. rewrite group_keys_idem. fold keys.
  apply map_ext_in. intros k Hk. unfold R at 2. f_equal.
  assert (G : group_of 0 k (map R keys) = [R k]).
  { unfold group_of. rewrite filter_map_comm.
    change (fun x : cell => key_eqb (at_col 0 (R x)) k)
      with (fun x : cell => key_eqb x k).
    rewrite filter_key; [reflexivity| |exact Hk].
    intros x. apply group_keys_distinct. }
  rewrite G. cbn [map]. unfold R.
  apply (remean (map (M k) kept) [k] rest).
  - unfold rest. now rewrite !length_map.
  - apply Forall_map, Forall_forall. intros jc _. apply mean_singleton.
Qed.


Lemma find_col_none name cols :
  (forall c, In c cols -> fst c <> name) -> find_col name cols = None.
Proof.
  induction cols as [|[n d] t IH]; intros H; [reflexivity|].
  simpl. destruct (String.eqb_spec n name) as [E|_].
  - now destruct (H (n, d) (or_introl eq_refl)).
  - rewrite IH; [reflexivity|]. intros c Hc. apply H. now right.
Qed.

Lemma enumerate_in {A : Type} (l : list A) : forall n j x,
  In (j, x) (enumerate_from n l) -> In x l.
Proof.
  induction l as [|y t IH]; intros n j x; simpl; [tauto|].
  intros [E|H]; [injection E as _ <-; now left|right; eauto].
Qed.

(** A column name that only columns of dtype object carry is gone after
    grouping. *)
Lemma groupby_mean_drops f key f' name :
  groupby_mean f key = Ok f' -> name <> key ->
  (forall c, In c (columns f) -> fst c = name -> snd c = Object) ->
  find_col name (columns f') = None.
Proof.
  unfold groupby_mean, col_index.
  destruct (find_col key (columns f)) as [i|]; [|discriminate].
  cbn [bind]. intros H Hne Hobj. injection H as <-. cbn [columns].
  apply find_col_none. intros c [<-|Hc]; [simpl; congruence|].
  apply in_map_iff in Hc as [[j [n d]] [<- Hjc]]. simpl.
  unfold mean_columns in Hjc. apply filter_In in Hjc as [Hin Hp].
  simpl in Hp. apply andb_true_iff in Hp as [_ Hnum].
  apply enumerate_in in Hin. intros ->.
  pose proof (Hobj _ Hin eq_refl) as Ho. simpl in Ho. subst d. discriminate.
Qed.

Lemma retain_gen_ed_idem f f1 :
  retain_gen_ed f = Ok f1 -> retain_gen_ed f1 = Ok f1.
Proof.
  unfold retain_gen_ed, filter_eq, col_index.
  destruct (find_col "GRADE " (columns f)) as [ig|] eqn:Eg; [|discriminate].
  cbn [bind columns rows]. 
  destruct (find_col "PROGRAM TYPE" (columns f)) as [ip|] eqn:Ep; [|discriminate].
  cbn [bind]. intros H. injection H as <-. cbn [columns rows].
  rewrite Eg. cbn [bind columns rows]. rewrite Ep. cbn [bind].
  do 2 f_equal. rewrite !filter_filter_and.
  apply filter_ext. intros r.
  destruct (cell_eqb (at_col ig r) (Text "09-12")),
           (cell_eqb (at_col ip r) (Text "GEN ED")); reflexivity.
Qed.

End GroupFacts.

(** C9, amended: the condensed class-size table has at most one row per
    DBN.  The demographics and graduation tables are only filtered: the
    condensed table consists of the rows of the designated school year,
    respectively of the designated cohort and subgroup, so that a DBN has
    as many rows in it as it has such rows in the source. *)
Theorem condensed_rows_per_DBN :
  (forall f ig ip id,
      find_col "GRADE " (columns f) = Some ig ->
      find_col "PROGRAM TYPE" (columns f) = Some ip ->
      find_col "DBN" (columns f) = Some id ->
      exists f',
        condense_class_size f = Ok f' /\
        find_col "DBN" (columns f') = Some 0 /\
        forall k, count_key f' 0 k <= 1) /\
  (forall f iy id,
      find_col "schoolyear" (columns f) = Some iy ->
      find_col "DBN" (columns f) = Some id ->
      exists f',
        condense_demographics f = Ok f' /\
        columns f' = columns f /\
        rows f'
        = filter (fun r => cell_eqb (at_col iy r) (Num (inject_Z 20112012)))
                 (rows f) /\
        forall k,
          count_key f' id k
          = List.length
              (filter (fun r =>
                         cell_eqb (at_col iy r) (Num (inject_Z 20112012))
                         && key_eqb (at_col id r) k) (rows f))) /\
  (forall f ic im id,
      find_col "Cohort" (columns f) = Some ic ->
      find_col "Demographic" (columns f) = Some im ->
      find_col "DBN" (columns f) = Some id ->
      exists f',
        condense_graduation f = Ok f' /\
        columns f' = columns f /\
        rows f'
        = filter (fun r =>
                    cell_eqb (at_col ic r) (Text "2006")
                    && cell_eqb (at_col im r) (Text "Total Cohort"))
                 (rows f) /\
        forall k,
          count_key f' id k
          = List.length
              (filter (fun r =>
                         (cell_eqb (at_col ic r) (Text "2006")
                          && cell_eqb (at_col im r) (Text "Total Cohort"))
                         && key_eqb (at_col id r) k) (rows f))).
Proof.
  split; [|split].
  - intros f ig ip id Hg Hp Hd. unfold condense_class_size, retain_gen_ed.
    rewrite (GroupFacts.filter_eq_ok _ _ _ _ Hg). cbn [bind].
    rewrite (GroupFacts.filter_eq_ok _ _ _ ip) by exact Hp. cbn [bind].
    apply (GroupFacts.groupby_mean_ok _ _ id). exact Hd.
  - intros f iy id Hy Hd. unfold condense_demographics.
    rewrite (GroupFacts.filter_eq_ok _ _ _ _ Hy).
    eexists. split; [reflexivity|]. split; [reflexivity|].
    split; [reflexivity|].
    intros k. unfold count_key, group_of. cbn [rows].
    now rewrite GroupFacts.filter_filter_and.
  - intros f ic im id Hc Hm Hd. unfold condense_graduation.
    rewrite (GroupFacts.filter_eq_ok _ _ _ _ Hc). cbn [bind].
    rewrite (GroupFacts.filter_eq_ok _ _ _ im) by exact Hm.
    eexists. split; [reflexivity|]. split; [reflexivity|].
    cbn [rows columns]. rewrite GroupFacts.filter_filter_and.
    split; [reflexivity|].
    intros k. unfold count_key, group_of. cbn [rows].
    now rewrite GroupFacts.filter_filter_and.
Qed.

Lemma condensed_rows_per_DBN_witness :
  (exists f',
      condense_class_size class_size_example = Ok f' /\
      find_col "DBN" (columns f') = Some 0 /\
      forall k, count_key f' 0 k <= 1) /\
  (exists f',
      condense_demographics demographics_example = Ok f' /\
      columns f' = columns demographics_example /\
      rows f'
      = filter (fun r => cell_eqb (at_col 1 r) (Num (inject_Z 20112012)))
               (rows demographics_example) /\
      forall k,
        count_key f' 0 k
        = List.length
            (filter (fun r =>
                       cell_eqb (at_col 1 r) (Num (inject_Z 20112012))
                       && key_eqb (at_col 0 r) k) (rows demographics_example))) /\
  (exists f',
      condense_graduation graduation_example = Ok f' /\
      columns f' = columns graduation_example /\
      rows f'
      = filter (fun r =>
                  cell_eqb (at_col 1 r) (Text "2006")
                  && cell_eqb (at_col 2 r) (Text "Total Cohort"))
               (rows graduation_example) /\
      forall k,
        count_key f' 0 k
        = List.length
            (filter (fun r =>
                       (cell_eqb (at_col 1 r) (Text "2006")
                        && cell_eqb (at_col 2 r) (Text "Total Cohort"))
                       && key_eqb (at_col 0 r) k) (rows graduation_example))).
Proof.
  split; [|split].
  - apply (proj1 condensed_rows_per_DBN class_size_example 2 3 1);
      reflexivity.
  - apply (proj1 (proj2 condensed_rows_per_DBN) demographics_example 1 0);
      reflexivity.
  - apply (proj2 (proj2 condensed_rows_per_DBN) graduation_example 1 2 0);
      reflexivity.
Defined.

(** Two rows of one school for the designated year both survive the
    filter: the condensed demographics table has two rows for that DBN. *)
Lemma demographics_two_rows :
  exists f',
    condense_demographics demographics_example = Ok f' /\
    count_key f' 0 (Text "01M001") = 2.
Proof. eexists. split; reflexivity. Qed.

(** C8, amended: on a class-size table the two row filters are idempotent,
    grouping the grouped table again by DBN gives it back, and the
    condensed table has at most one row per DBN.  The whole step cannot be
    applied to its own result when the grade column has dtype object: the
    grouping keeps numeric columns only, and the filter then raises
    [KeyError]. *)
Theorem condense_class_size_again (f : frame) (ig ip id : nat) :
  find_col "GRADE " (columns f) = Some ig ->
  find_col "PROGRAM TYPE" (columns f) = Some ip ->
  find_col "DBN" (columns f) = Some id ->
  exists f1 f2,
    retain_gen_ed f = Ok f1 /\ retain_gen_ed f1 = Ok f1 /\
    groupby_mean f1 "DBN" = Ok f2 /\ groupby_mean f2 "DBN" = Ok f2 /\
    condense_class_size f = Ok f2 /\
    (forall k, count_key f2 0 k <= 1) /\
    ((forall c, In c (columns f) -> fst c = "GRADE " -> snd c = Object) ->
     condense_class_size f2 = Raise (KeyError "GRADE ")).
Proof.
  intros Hg Hp Hd.
  assert (E1 : retain_gen_ed f
               = Ok (mkFrame (columns f)
                       (filter (fun r => cell_eqb (at_col ip r) (Text "GEN ED"))
                          (filter (fun r => cell_eqb (at_col ig r) (Text "09-12"))
                             (rows f))))).
  { unfold retain_gen_ed. rewrite (GroupFacts.filter_eq_ok _ _ _ _ Hg).
    cbn [bind]. now rewrite (GroupFacts.filter_eq_ok _ _ _ ip) by exact Hp. }
  set (f1 := mkFrame _ _) in E1.
  destruct (GroupFacts.groupby_mean_ok f1 "DBN" id Hd) as (f2 & G & _ & C).
  exists f1, f2. split; [exact E1|].
  split; [exact (GroupFacts.retain_gen_ed_idem _ _ E1)|].
  split; [exact G|].
  split; [exact (GroupFacts.groupby_mean_idem _ _ _ G)|].
  split; [unfold condense_class_size; rewrite E1; exact G|].
  split; [exact C|].
  intros Hobj. unfold condense_class_size, retain_gen_ed, filter_eq, col_index.
  rewrite (GroupFacts.groupby_mean_drops f1 "DBN" f2 "GRADE " G);
    [reflexivity|discriminate|exact Hobj].
Qed.

Lemma condense_class_size_again_witness :
  exists f1 f2,
    retain_gen_ed class_size_example = Ok f1 /\ retain_gen_ed f1 = Ok f1 /\
    groupby_mean f1 "DBN" = Ok f2 /\ groupby_mean f2 "DBN" = Ok f2 /\
    condense_class_size class_size_example = Ok f2 /\
    (forall k, count_key f2 0 k <= 1) /\
    ((forall c, In c (columns class_size_example) ->
                fst c = "GRADE " -> snd c = Object) ->
     condense_class_size f2 = Raise (KeyError "GRADE ")).
Proof.
  apply (condense_class_size_again class_size_example 2 3 1); reflexivity.
Defined.

(** Condensing the condensed class-size table raises: the filter reads the
    grade column, which the grouping has dropped. *)
Lemma condense_twice_differs :
  (f <- condense_class_size class_size_example ;; condense_class_size f)
  = Raise (KeyError "GRADE ") /\
  (f <- condense_class_size class_size_example ;; condense_class_size f)
  <> condense_class_size class_size_example.
Proof. split; [reflexivity|]. vm_compute. discriminate. Qed.

Example condense_class_size_example :
  condense_class_size class_size_example
  = Ok (mkFrame
          [("DBN", Object); ("CSD", Numeric); ("AVERAGE CLASS SIZE", Numeric)]
          [[Text "01M001"; num 1; num 30];
           [Text "01M002"; num 1; Num (Qmake 45 2)]]).
Proof. reflexivity. Qed.

(** * Further properties of the pipeline

    Lemmas on tables, traversals and joins first, then the properties of
    each stage in the order of the script. *)

Module BoolFacts.

Lemma if_true (b : bool) (P Q : Prop) : b = true -> (if b then P else Q) -> P.
Proof. intros ->. auto. Qed.

End BoolFacts.

(** Take the branch of a statement by cases that its test selects. *)
Ltac then_branch H :=
  lazymatch type of H with
  | if ?b then ?P else ?Q => apply (BoolFacts.if_true b P Q eq_refl) in H
  end.

Module FrameFacts.

Lemma find_col_app_some name cols rest i :
  find_col name cols = Some i -> find_col name (cols ++ rest) = Some i.
Proof.
  revert i. induction cols as [|[n d] t IH]; simpl; intros i H; [discriminate|].
  destruct (String.eqb n name); [exact H|].
  destruct (find_col name t) as [k|]; [|discriminate].
  now rewrite (IH k eq_refl).
Qed.

Lemma at_col_app_l i r x : i < List.length r -> at_col i (r ++ x) = at_col i r.
Proof. unfold at_col. intros H. now apply app_nth1. Qed.

(** The names of the columns after an assignment: the assigned name is
    there, every other name is where it was. *)
Lemma find_col_setitem f name dt vs other :
  other <> name ->
  find_col other (columns (setitem f name dt vs)) = find_col other (columns f).
Proof.
  intros Hne. unfold setitem.
  destruct (find_col name (columns f)) as [i|] eqn:E; cbn [columns].
  - now apply PdFacts.find_col_replace.
  - clear vs. induction (columns f) as [|[n d] t IH]; simpl.
    + destruct (String.eqb_spec name other); [congruence|reflexivity].
    + simpl in E. destruct (String.eqb n name) eqn:En; [discriminate|].
      destruct (find_col name t); [discriminate|].
      destruct (String.eqb n other); [reflexivity|]. now rewrite IH.
Qed.

Lemma find_col_setitem_same f name dt vs :
  exists i, find_col name (columns (setitem f name dt vs)) = Some i.
Proof.
  unfold setitem. destruct (find_col name (columns f)) as [i|] eqn:E;
    cbn [columns].
  - exists i. now rewrite PdFacts.find_col_replace.
  - eexists. now apply PdFacts.find_col_app_none.
Qed.

Lemma setitem_rows_length f name dt vs :
  List.length vs = List.length (rows f) ->
  List.length (rows (setitem f name dt vs)) = List.length (rows f).
Proof.
  intros H. unfold setitem.
  destruct (find_col name (columns f)); cbn [rows];
    rewrite ImputeFacts.length_zip_with; lia.
Qed.

Lemma setitem_wf f name dt vs :
  wf f -> List.length vs = List.length (rows f) -> wf (setitem f name dt vs).
Proof.
  unfold wf, width, setitem. intros Hwf Hlen.
  destruct (find_col name (columns f)) as [i|]; cbn [rows columns].
  - rewrite PdFacts.length_replace_nth. revert vs Hlen.
    induction Hwf as [|r t Hr _ IH]; intros [|v vs] Hlen; simpl in *;
      try discriminate; constructor.
    + now rewrite PdFacts.length_replace_nth.
    + apply IH. lia.
  - rewrite length_app. simpl. revert vs Hlen.
    induction Hwf as [|r t Hr _ IH]; intros [|v vs] Hlen; simpl in *;
      try discriminate; constructor.
    + rewrite length_app. simpl. lia.
    + apply IH. lia.
Qed.

(** Assigning one column leaves every other column as it was. *)
Lemma getitem_setitem_other f name dt vs other :
  wf f -> List.length vs = List.length (rows f) -> other <> name ->
  getitem (setitem f name dt vs) other = getitem f other.
Proof.
  intros Hwf Hlen Hne. unfold getitem, col_index.
  rewrite (find_col_setitem f name dt vs other Hne).
  destruct (find_col other (columns f)) as [j|] eqn:Ej; [|reflexivity].
  cbn [bind]. f_equal. unfold setitem.
  pose proof (PdFacts.find_col_lt _ _ _ Ej) as Lj.
  destruct (find_col name (columns f)) as [i|] eqn:Ei; cbn [rows].
  - assert (Nij : j <> i).
    { intros ->. apply Hne. eapply PdFacts.find_col_inj; eassumption. }
    unfold wf in Hwf. revert vs Hlen.
    induction Hwf as [|r t Hr _ IH]; intros [|v vs] Hlen; simpl in *;
      try discriminate; [reflexivity|].
    rewrite PdFacts.at_col_replace_other by exact Nij. f_equal. apply IH. lia.
  - unfold wf, width in Hwf. revert vs Hlen.
    induction Hwf as [|r t Hr _ IH]; intros [|v vs] Hlen; simpl in *;
      try discriminate; [reflexivity|].
    rewrite at_col_app_l by lia. f_equal. apply IH. lia.
Qed.

Lemma getitem_length f name vs :
  getitem f name = Ok vs -> List.length vs = List.length (rows f).
Proof.
  unfold getitem, col_index. destruct (find_col name (columns f)); [|discriminate].
  cbn [bind]. intros H. injection H as <-. apply length_map.
Qed.

Lemma getitem_column f name i :
  find_col name (columns f) = Some i -> getitem f name = Ok (column f i).
Proof. intros H. unfold getitem, col_index. now rewrite H. Qed.

Lemma getitem_missing f name :
  find_col name (columns f) = None -> getitem f name = Raise (KeyError name).
Proof. intros H. unfold getitem, col_index. now rewrite H. Qed.

End FrameFacts.

Module TraverseFacts.

Lemma traverse_ok {A B : Type} (g : A -> result B) xs ys :
  traverse g xs = Ok ys <-> Forall2 (fun x y => g x = Ok y) xs ys.
Proof.
  revert ys. induction xs as [|x t IH]; intros ys; simpl.
  - split; [intros H; injection H as <-; constructor|].
    intros H. now inversion H.
  - split.
    + destruct (g x) as [y|] eqn:E; [|discriminate]. cbn [bind].
      destruct (traverse g t) as [ys'|] eqn:E'; [|discriminate]. cbn [bind].
      intros H. injection H as <-. constructor; [exact E|]. now apply IH.
    + intros H. inversion H as [|? y ? ys' Hy Ht]; subst. rewrite Hy. cbn [bind].
      rewrite (proj2 (IH ys') Ht). reflexivity.
Qed.

Lemma traverse_length {A B : Type} (g : A -> result B) xs ys :
  traverse g xs = Ok ys -> List.length ys = List.length xs.
Proof.
  intros H. apply traverse_ok in H. symmetry. exact (Forall2_length H).
Qed.

(** A traversal raises what its first failing element raises. *)
Lemma traverse_raise {A B : Type} (g : A -> result B) xs e :
  traverse g xs = Raise e -> exists x, In x xs /\ g x = Raise e.
Proof.
  induction xs as [|x t IH]; simpl; [discriminate|].
  destruct (g x) as [y|e'] eqn:E; cbn [bind].
  - destruct (traverse g t) as [ys|e''] eqn:E'; cbn [bind]; [discriminate|].
    intros H. injection H as ->. destruct (IH eq_refl) as [z [Hz Ez]]. eauto.
  - intros H. injection H as ->. eauto.
Qed.

Lemma traverse_total {A B : Type} (g : A -> result B) xs :
  Forall (fun x => exists y, g x = Ok y) xs -> exists ys, traverse g xs = Ok ys.
Proof.
  induction 1 as [|x t [y Hy] _ [ys IH]]; simpl; [eauto|].
  rewrite Hy, IH. cbn [bind]. eauto.
Qed.

Lemma forall2_in_l {A B : Type} (P : A -> B -> Prop) xs ys x :
  Forall2 P xs ys -> In x xs -> exists y, In y ys /\ P x y.
Proof.
  induction 1 as [|a b xs' ys' Hab _ IH]; simpl; [tauto|].
  intros [<-|Hx]; [eauto|]. destruct (IH Hx) as [y [Hy Py]]. eauto.
Qed.

End TraverseFacts.

Module LoadFacts.

Lemma replace_extension base :
  Str.mem "."%char base = false ->
  str_replace ".csv" "" (base ++ ".csv")%string = base.
Proof.
  unfold str_replace. induction base as [|x r IH]; intros H; [reflexivity|].
  simpl in H. apply orb_false_iff in H as [Hx Hr].
  change (String x r ++ ".csv")%string with (String x (r ++ ".csv")%string).
  cbn [replace_from]. 
  assert (P : String.prefix ".csv" (String x (r ++ ".csv")%string) = false).
  { cbn [String.prefix]. destruct (Ascii.ascii_dec "."%char x) as [E|E];
      [|reflexivity].
    subst x. discriminate. }
  rewrite P. now rewrite IH.
Qed.

Lemma dict_set_new {V : Type} (d : list (string * V)) key value :
  ~ In key (map fst d) -> dict_set d key value = d ++ [(key, value)].
Proof.
  induction d as [|[k v] t IH]; simpl; intros H; [reflexivity|].
  destruct (String.eqb_spec k key) as [->|_]; [tauto|].
  rewrite IH; [reflexivity|tauto].
Qed.

Lemma dict_get_in {V : Type} (g : string -> V) keys k :
  In k keys -> dict_get (map (fun b => (b, g b)) keys) k = Ok (g k).
Proof.
  induction keys as [|h t IH]; simpl; [tauto|].
  destruct (String.eqb_spec h k) as [->|Hne]; [reflexivity|].
  intros [E|H]; [contradiction|auto].
Qed.

Lemma load_append read_csv (tables : string -> frame) bases : forall acc,
  NoDup (map fst acc ++ bases) ->
  Forall (fun b => Str.mem "."%char b = false) bases ->
  (forall b, In b bases -> read_csv (b ++ ".csv")%string = Ok (tables b)) ->
  load read_csv (map (fun b => (b ++ ".csv")%string) bases) acc
  = Ok (acc ++ map (fun b => (b, tables b)) bases).
Proof.
  induction bases as [|b t IH]; intros acc Hnd Hdot Hread; simpl.
  - now rewrite app_nil_r.
  - inversion Hdot as [|? ? Hb Ht]; subst.
    rewrite (Hread b (or_introl eq_refl)). cbn [bind].
    rewrite (replace_extension b Hb).
    rewrite dict_set_new.
    + rewrite IH; [now rewrite <- app_assoc| |exact Ht|].
      * rewrite map_app, <- app_assoc. exact Hnd.
      * intros b' Hb'. apply Hread. now right.
    + apply NoDup_remove_2 in Hnd. intros Hin. apply Hnd.
      apply in_or_app. now left.
Qed.

End LoadFacts.

Module SurveyFacts.

Lemma has_column_find f n :
  has_column f n = true <-> exists i, find_col n (columns f) = Some i.
Proof.
  unfold has_column. destruct (find_col n (columns f)) as [i|].
  - split; eauto.
  - split; [discriminate|]. intros [i H]. discriminate.
Qed.

Lemma find_col_map_names (g : string * dtype -> string * dtype) n cols :
  (forall c, fst (g c) = fst c) ->
  find_col n (map g cols) = find_col n cols.
Proof.
  intros Hg. induction cols as [|c t IH]; [reflexivity|].
  simpl. specialize (Hg c). destruct (g c) as [n' d'], c as [n0 d0].
  simpl in Hg. subst n'. now rewrite IH.
Qed.

Lemma find_col_app_r n cols rest :
  find_col n cols = None ->
  find_col n (cols ++ rest)
  = option_map (fun k => List.length cols + k) (find_col n rest).
Proof.
  induction cols as [|[n0 d0] t IH]; simpl; intros H.
  - now destruct (find_col n rest).
  - destruct (String.eqb n0 n); [discriminate|].
    destruct (find_col n t); [discriminate|]. rewrite IH by reflexivity.
    now destruct (find_col n rest).
Qed.

Lemma find_col_filter n (p : string * dtype -> bool) cols :
  (forall c, fst c = n -> p c = true) ->
  (exists i, find_col n cols = Some i) ->
  exists k, find_col n (filter p cols) = Some k.
Proof.
  intros Hp. induction cols as [|[n0 d0] t IH]; simpl; intros [i H];
    [discriminate|].
  destruct (String.eqb_spec n0 n) as [->|Hne].
  - rewrite (Hp (n, d0) eq_refl). simpl. rewrite String.eqb_refl. eauto.
  - destruct (find_col n t) as [j|]; [|discriminate].
    destruct (IH (ex_intro _ j eq_refl)) as [k Hk].
    destruct (p (n0, d0)); [|eauto]. simpl.
    destruct (String.eqb_spec n0 n); [contradiction|]. rewrite Hk. simpl. eauto.
Qed.

Lemma nth_name n cols i :
  find_col n cols = Some i -> fst (nth i cols (EmptyString, Object)) = n.
Proof.
  intros H. destruct (PdFacts.find_col_name _ _ _ H) as [d E].
  now rewrite (nth_error_nth _ _ _ E).
Qed.

Lemma at_col_map {A : Type} (g : A -> cell) (l : list A) i d :
  i < List.length l -> at_col i (map g l) = g (nth i l d).
Proof.
  unfold at_col. intros H.
  rewrite (nth_indep _ NaN (g d)) by (now rewrite length_map).
  apply map_nth.
Qed.

Lemma at_col_pad r m k :
  at_col (List.length r + k) (r ++ repeat NaN m) = NaN.
Proof.
  unfold at_col. rewrite app_nth2_plus.
  revert k. induction m as [|m IH]; intros [|k]; simpl; auto.
Qed.

Lemma find_col_filter_none n (p : string * dtype -> bool) cols :
  find_col n cols = None -> find_col n (filter p cols) = None.
Proof.
  induction cols as [|[n0 d0] t IH]; simpl; [reflexivity|].
  destruct (String.eqb n0 n) eqn:E; [discriminate|].
  destruct (find_col n t); [discriminate|]. intros _.
  destruct (p (n0, d0)); simpl; [|now apply IH].
  now rewrite E, IH.
Qed.

(** Where a concatenation has a column, and what the rows of the first
    table hold there. *)
Lemma find_col_concat f g n :
  has_column f n || has_column g n = true ->
  exists i,
    find_col n (columns (concat f g)) = Some i /\
    forall r, List.length r = width f ->
      at_col i (r ++ repeat NaN
                  (List.length
                     (filter (fun c => negb (has_column f (fst c))) (columns g))))
      = cell_of f n r.
Proof.
  intros H. cbn [columns concat]. unfold cell_of.
  destruct (find_col n (columns f)) as [i|] eqn:Ef.
  - exists i. split.
    + apply FrameFacts.find_col_app_some.
      rewrite find_col_map_names by reflexivity. exact Ef.
    + intros r Lr. apply FrameFacts.at_col_app_l.
      apply PdFacts.find_col_lt in Ef. unfold width in Lr. lia.
  - unfold has_column in H. rewrite Ef in H. simpl in H.
    destruct (find_col n (columns g)) as [j|] eqn:Eg; [|discriminate].
    destruct (find_col_filter n (fun c => negb (has_column f (fst c)))
                (columns g)) as [k Hk].
    + intros c <-. unfold has_column. now rewrite Ef.
    + eauto.
    + exists (List.length (columns f) + k). split.
      * rewrite find_col_app_r
          by (rewrite find_col_map_names by reflexivity; exact Ef).
        rewrite Hk, length_map. reflexivity.
      * intros r Lr. unfold width in Lr. rewrite <- Lr. apply at_col_pad.
Qed.

Lemma has_column_concat f g n :
  has_column (concat f g) n = has_column f n || has_column g n.
Proof.
  destruct (has_column f n || has_column g n) eqn:H.
  - destruct (find_col_concat f g n H) as (i & Ei & _).
    unfold has_column. now rewrite Ei.
  - apply orb_false_iff in H as [Hf Hg]. unfold has_column in *.
    cbn [columns concat].
    destruct (find_col n (columns f)) eqn:Ef; [discriminate|].
    destruct (find_col n (columns g)) eqn:Eg; [discriminate|].
    rewrite find_col_app_r
      by (rewrite find_col_map_names by reflexivity; exact Ef).
    now rewrite find_col_filter_none.
Qed.

(** A column of a concatenation: the column of the first table, then the
    column of the second, with missing cells for a table without it. *)
Lemma getitem_concat f g n :
  wf f -> has_column f n || has_column g n = true ->
  getitem (concat f g) n
  = Ok (map (cell_of f n) (rows f) ++ map (cell_of g n) (rows g)).
Proof.
  intros Hwf H. unfold getitem, col_index.
  destruct (find_col_concat f g n H) as (i & Ei & Hf). rewrite Ei. cbn [bind].
  cbn [rows concat]. rewrite map_app, !map_map. f_equal. f_equal.
  - apply map_ext_in. intros r Hr. apply Hf.
    now apply (proj1 (Forall_forall _ _) Hwf).
  - apply map_ext. intros r.
    rewrite (at_col_map _ (columns (concat f g)) i (EmptyString, Object))
      by (now apply PdFacts.find_col_lt in Ei).
    now rewrite (nth_name _ _ _ Ei).
Qed.

Lemma concat_wf f g : wf f -> wf (concat f g).
Proof.
  unfold wf, width. intros Hwf. cbn [rows columns concat].
  apply Forall_app. split; apply Forall_map.
  - eapply Forall_impl; [|exact Hwf]. intros r Hr. cbv beta in *.
    now rewrite !length_app, repeat_length, length_map, Hr.
  - apply Forall_forall. intros r _. now rewrite length_map.
Qed.

Lemma concat_rows_length f g :
  List.length (rows (concat f g)) = List.length (rows f) + List.length (rows g).
Proof. cbn [rows concat]. now rewrite length_app, !length_map. Qed.


Lemma col_index_ok f n i : col_index f n = Ok i <-> find_col n (columns f) = Some i.
Proof.
  unfold col_index. destruct (find_col n (columns f)); split; intros H;
    try discriminate; congruence.
Qed.

Lemma selected_names cols names idx :
  Forall2 (fun n i => find_col n cols = Some i) names idx ->
  map fst (map (fun i => nth i cols (EmptyString, Object)) idx) = names.
Proof.
  induction 1 as [|n i ns ix Hn _ IH]; simpl; [reflexivity|].
  now rewrite (nth_name _ _ _ Hn), IH.
Qed.

Lemma find_col_selected cols names idx n :
  Forall2 (fun n i => find_col n cols = Some i) names idx ->
  In n names ->
  exists p i,
    find_col n (map (fun i => nth i cols (EmptyString, Object)) idx) = Some p /\
    nth_error idx p = Some i /\ find_col n cols = Some i.
Proof.
  induction 1 as [|n0 i0 ns ix Hn _ IH]; simpl; [tauto|]. intros Hin.
  pose proof (nth_name _ _ _ Hn) as Hname.
  destruct (nth i0 cols (EmptyString, Object)) as [n1 d1]. simpl in Hname.
  subst n1. destruct (String.eqb_spec n0 n) as [->|Hne].
  - exists 0, i0. auto.
  - destruct Hin as [E|Hin]; [contradiction|].
    destruct (IH Hin) as (p & i & -> & Hp & Hi). exists (S p), i. auto.
Qed.

(** Selecting columns by name: the result has exactly these columns, each
    with the cells it had. *)
Lemma select_columns_ok f names :
  forallb (has_column f) names = true ->
  exists s,
    select_columns f names = Ok s /\ map fst (columns s) = names /\ wf s /\
    List.length (rows s) = List.length (rows f) /\
    forall n, In n names -> getitem s n = getitem f n.
Proof.
  intros H. unfold select_columns.
  destruct (TraverseFacts.traverse_total (col_index f) names) as [idx Hidx].
  { apply Forall_forall. intros n Hn.
    rewrite forallb_forall in H. specialize (H n Hn).
    apply has_column_find in H as [i Hi]. exists i. now apply col_index_ok. }
  rewrite Hidx. cbn [bind]. apply TraverseFacts.traverse_ok in Hidx.
  assert (F : Forall2 (fun n i => find_col n (columns f) = Some i) names idx).
  { eapply Forall2_impl; [|exact Hidx]. intros n i. apply col_index_ok. }
  eexists. split; [reflexivity|]. cbn [columns rows].
  split; [now apply selected_names|]. split; [|split].
  - unfold wf, width. cbn [columns rows]. apply Forall_map, Forall_forall.
    intros r _. now rewrite !length_map.
  - apply length_map.
  - intros n Hn. destruct (find_col_selected _ _ _ n F Hn) as (p & i & Ep & Hp & Hi).
    unfold getitem, col_index. cbn [columns rows]. rewrite Ep, Hi. cbn [bind].
    f_equal. rewrite map_map. apply map_ext. intros r.
    rewrite (at_col_map _ idx p 0) by (apply nth_error_Some; congruence).
    now rewrite (nth_error_nth _ _ _ Hp).
Qed.

Lemma select_columns_missing f names :
  forallb (has_column f) names = false ->
  exists n, In n names /\ has_column f n = false /\
            select_columns f names = Raise (KeyError n).
Proof.
  intros H. unfold select_columns.
  destruct (traverse (col_index f) names) as [idx|e] eqn:T.
  - exfalso. apply TraverseFacts.traverse_ok in T.
    assert (forallb (has_column f) names = true); [|congruence].
    apply forallb_forall. intros n Hn.
    destruct (TraverseFacts.forall2_in_l _ _ _ _ T Hn) as (i & _ & Hi).
    apply has_column_find. exists i. now apply col_index_ok.
  - apply TraverseFacts.traverse_raise in T as (n & Hn & En).
    exists n. split; [exact Hn|]. unfold col_index, has_column in *.
    destruct (find_col n (columns f)); [discriminate|].
    injection En as <-. auto.
Qed.

Lemma forallb_ext_in' {A : Type} (p q : A -> bool) l :
  (forall x, In x l -> p x = q x) -> forallb p l = forallb q l.
Proof.
  induction l as [|x t IH]; simpl; intros H; [reflexivity|].
  rewrite (H x) by (now left). f_equal. apply IH. intros y Hy. apply H.
  now right.
Qed.

Lemma has_column_setitem f name dt vs other :
  other <> name ->
  has_column (setitem f name dt vs) other = has_column f other.
Proof.
  intros H. unfold has_column. now rewrite FrameFacts.find_col_setitem.
Qed.

End SurveyFacts.

Module PadFacts.

Local Open Scope string_scope.

Lemma to_int_not_nil n : Z.to_int n <> Decimal.Pos Decimal.Nil /\ Z.to_int n <> Decimal.Neg Decimal.Nil.
Proof.
  destruct n as [|p|p]; simpl; split; try discriminate.
  - intros H. injection H as H. now apply (DecimalPos.Unsigned.to_uint_nonnil p).
  - intros H. injection H as H. now apply (DecimalPos.Unsigned.to_uint_nonnil p).
Qed.

(** [str] is injective on ints. *)
Lemma of_int_inj a b : Str.of_int a = Str.of_int b -> a = b.
Proof.
  unfold Str.of_int. intros H.
  apply (f_equal NilZero.int_of_string) in H.
  destruct (to_int_not_nil a) as [A1 A2]. destruct (to_int_not_nil b) as [B1 B2].
  rewrite !NilZero.isi in H by assumption.
  injection H as H. now apply DecimalZ.to_int_inj.
Qed.


Lemma append_inj_length (x x' y y' : string) :
  x ++ y = x' ++ y' -> String.length y = String.length y' ->
  x = x' /\ y = y'.
Proof.
  intros E L.
  assert (Lx : String.length x = String.length x').
  { apply (f_equal String.length) in E.
    rewrite !StrFacts.length_append in E. lia. }
  clear L. revert x' E Lx. induction x as [|c x IH]; intros [|c' x'] E Lx;
    simpl in *; try discriminate; [auto|].
  injection E as -> E. destruct (IH x' E) as [-> ->]; [lia|auto].
Qed.

(** A padded one-digit code is no string form of an int with two or more
    characters. *)
Lemma padded_digit_not_int a b :
  Str.len (Str.of_int a) <= 1 -> 1 < Str.len (Str.of_int b) ->
  "0" ++ Str.of_int a <> Str.of_int b.
Proof.
  intros Ha Hb E. apply of_int_short in Ha.
  assert (Hshort : Str.len (Str.of_int b) <= 1); [|lia].
  apply of_int_short.
  apply (f_equal NilZero.int_of_string) in E.
  destruct (to_int_not_nil b) as [B1 B2].
  unfold Str.of_int in E at 2. rewrite NilZero.isi in E by assumption.
  rewrite <- (DecimalZ.of_to b).
  revert E. rewrite <- (Z2Nat.id a) by lia.
  assert (Hk : Z.to_nat a < 10) by lia.
  revert Hk. generalize (Z.to_nat a) as k. intros k Hk.
  do 10 (destruct k as [|k];
         [vm_compute; intros E; injection E as <-; vm_compute;
          split; discriminate|]).
  lia.
Qed.

Lemma pad_csd_inj a b : pad_csd a = pad_csd b -> a = b.
Proof.
  unfold pad_csd.
  destruct (Nat.ltb_spec 1 (Str.len (Str.of_int a))) as [La|La];
    destruct (Nat.ltb_spec 1 (Str.len (Str.of_int b))) as [Lb|Lb]; intros E.
  - now apply of_int_inj.
  - symmetry in E. now apply padded_digit_not_int in E.
  - now apply padded_digit_not_int in E.
  - simpl in E. injection E as E. now apply of_int_inj.
Qed.

Lemma pad_csd_two_digits n : (0 <= n <= 99)%Z -> Str.len (pad_csd n) = 2.
Proof.
  intros H. rewrite <- (Z2Nat.id n) by lia.
  assert (Hk : Z.to_nat n < 100) by lia.
  revert Hk. generalize (Z.to_nat n) as k. intros k Hk.
  do 100 (destruct k as [|k]; [reflexivity|]). lia.
Qed.

End PadFacts.

Module CoerceFacts.

Lemma coerce_idem parse c : coerce parse (coerce parse c) = coerce parse c.
Proof. destruct c as [|q|s]; simpl; try reflexivity. now destruct (parse s). Qed.

Lemma to_numeric_idem parse cs :
  to_numeric parse (to_numeric parse cs) = to_numeric parse cs.
Proof.
  unfold to_numeric. rewrite map_map. apply map_ext. apply coerce_idem.
Qed.

Lemma coerce_column_raise parse f c e :
  getitem f c = Raise e -> coerce_column parse f c = Raise e.
Proof. intros H. unfold coerce_column. now rewrite H. Qed.

(** Coercing one column: that column becomes numeric, all the others stay. *)
Lemma coerce_column_step parse f c v :
  wf f -> getitem f c = Ok v ->
  exists f1,
    coerce_column parse f c = Ok f1 /\ wf f1 /\
    List.length (rows f1) = List.length (rows f) /\
    getitem f1 c = Ok (to_numeric parse v) /\
    forall other, other <> c -> getitem f1 other = getitem f other.
Proof.
  intros Hwf G. unfold coerce_column. rewrite G. cbn [bind].
  assert (L : List.length (to_numeric parse v) = List.length (rows f)).
  { unfold to_numeric. rewrite length_map.
    now apply FrameFacts.getitem_length in G. }
  eexists. split; [reflexivity|].
  split; [now apply FrameFacts.setitem_wf|].
  split; [now apply FrameFacts.setitem_rows_length|].
  split; [now apply PdFacts.getitem_setitem|].
  intros other Ho. now apply FrameFacts.getitem_setitem_other.
Qed.

Lemma series_add_numeric xs : forall ys,
  Forall numeric_cell xs -> Forall numeric_cell ys ->
  exists zs, series_add xs ys = Ok zs /\ Forall numeric_cell zs /\
             List.length zs = Nat.min (List.length xs) (List.length ys).
Proof.
  induction xs as [|x xs IH]; intros [|y ys] Hx Hy; simpl;
    try (exists []; repeat split; constructor).
  inversion Hx as [|? ? Hx1 Hx2]; subst. inversion Hy as [|? ? Hy1 Hy2]; subst.
  destruct (IH ys Hx2 Hy2) as (zs & -> & Hz & L).
  destruct Hx1 as [->|[p ->]], Hy1 as [->|[q ->]]; simpl;
    eexists; (split; [reflexivity|]); (split; [|simpl; lia]);
    constructor; auto; unfold numeric_cell; eauto.
Qed.

End CoerceFacts.

Module CoordFacts.

(** Whatever [findall] returns was matched somewhere in the text. *)
Lemma scan_matches p s : forall skip m,
  In m (Re.scan p skip s) -> Matches p m.
Proof.
  induction s as [|x r IH]; intros skip m.
  - destruct skip; simpl; [|tauto].
    destruct (Re.match_here p "") as [m'|] eqn:E; simpl; [|tauto].
    intros [<-|[]]. now apply ReFacts.match_here_sound in E.
  - destruct skip as [|k]; [|simpl; apply IH].
    rewrite ReFacts.scan_cons.
    destruct (Re.match_here p (String x r)) as [m'|] eqn:E; [|apply IH].
    intros [<-|H]; [now apply ReFacts.match_here_sound in E|eapply IH; exact H].
Qed.

Lemma matches_coords m :
  Matches coords_re m ->
  exists a b, m = ("(" ++ a ++ ", " ++ b ++ ")")%string /\
              a <> EmptyString /\ b <> EmptyString.
Proof.
  unfold coords_re. intros HM.
  inversion HM as [|c1 p1 m1 H1|]; subst; clear HM.
  inversion H1 as [| |a p2 m2 Ha Na H2]; subst; clear H1.
  inversion H2 as [|c3 p3 m3 H3|]; subst; clear H2.
  inversion H3 as [|c4 p4 m4 H4|]; subst; clear H3.
  inversion H4 as [| |b p5 m5 Hb Nb H5]; subst; clear H4.
  inversion H5 as [|c6 p6 m6 H6|]; subst; clear H5.
  inversion H6; subst; clear H6. exists a, b. auto.
Qed.

Lemma split_present c s :
  Str.mem c s = true -> snd (Str.split c s) <> [].
Proof.
  induction s as [|x r IH]; simpl; [discriminate|].
  destruct (Str.split c r) as [h t] eqn:E. simpl in IH.
  destruct (Ascii.eqb x c); simpl; [discriminate|exact IH].
Qed.

Lemma split_comma_two m :
  Matches coords_re m -> exists u v t, split_comma m = u :: v :: t.
Proof.
  intros HM. destruct (matches_coords m HM) as (a & b & -> & _ & _).
  unfold split_comma.
  assert (Hmem : Str.mem ","%char ("(" ++ a ++ ", " ++ b ++ ")")%string = true).
  { simpl. rewrite SplitFacts.mem_append. simpl. now rewrite orb_true_r. }
  pose proof (split_present _ _ Hmem) as Hs.
  destruct (Str.split ","%char ("(" ++ a ++ ", " ++ b ++ ")")%string) as [h t].
  simpl in Hs. destruct t as [|v t]; [congruence|]. eauto.
Qed.

(** Both extractions return when the pattern matches somewhere, and both
    raise [IndexError] when it matches nowhere. *)
Lemma find_lat_lon_cases loc :
  (Re.findall coords_re loc = [] /\
   find_lat loc = Raise IndexError /\ find_lon loc = Raise IndexError) \/
  (Re.findall coords_re loc <> [] /\
   exists lat lon, find_lat loc = Ok lat /\ find_lon loc = Ok lon).
Proof.
  unfold find_lat, find_lon.
  destruct (Re.findall coords_re loc) as [|m t] eqn:E; [left; auto|right].
  split; [discriminate|].
  assert (HM : Matches coords_re m).
  { apply (scan_matches coords_re loc 0). unfold Re.findall in E. rewrite E.
    now left. }
  destruct (split_comma_two m HM) as (u & v & t' & Hs).
  cbn [index nth_error bind]. rewrite Hs. cbn [index nth_error bind]. eauto.
Qed.

End CoordFacts.

Module CleanFacts.

Lemma mem_remove c s : Str.mem c (Str.remove c s) = false.
Proof.
  induction s as [|x r IH]; simpl; [reflexivity|].
  destruct (Ascii.eqb x c) eqn:E; simpl; [exact IH|]. now rewrite E.
Qed.

Lemma mem_remove_other d c s :
  Str.mem d s = false -> Str.mem d (Str.remove c s) = false.
Proof.
  induction s as [|x r IH]; simpl; intros H; [reflexivity|].
  apply orb_false_iff in H as [Hx Hr].
  destruct (Ascii.eqb x c); simpl; [auto|]. now rewrite Hx, IH.
Qed.

(** No piece of a split holds the separator, nor any character the text
    does not hold. *)
Lemma split_pieces d c s :
  d = c \/ Str.mem d s = false ->
  Str.mem d (fst (Str.split c s)) = false /\
  Forall (fun p => Str.mem d p = false) (snd (Str.split c s)).
Proof.
  induction s as [|x r IH]; simpl; intros H; [auto|].
  destruct (Str.split c r) as [h t]. simpl in IH.
  destruct (Ascii.eqb_spec x c) as [->|Hne]; simpl.
  - destruct IH as [Hh Ht].
    { destruct H as [->|H]; [now left|right].
      now apply orb_false_iff in H as [_ H]. }
    split; [reflexivity|]. now constructor.
  - destruct IH as [Hh Ht].
    { destruct H as [->|H]; [now left|right].
      now apply orb_false_iff in H as [_ H]. }
    split; [|exact Ht]. rewrite Hh, orb_false_r.
    destruct H as [->|H].
    + now apply Ascii.eqb_neq.
    + now apply orb_false_iff in H as [H _].
Qed.

Lemma mem_lstrip d s : Str.mem d s = false -> Str.mem d (Str.lstrip s) = false.
Proof.
  induction s as [|x r IH]; simpl; intros H; [reflexivity|].
  destruct (Str.is_space x); [|exact H].
  apply orb_false_iff in H as [_ H]. auto.
Qed.

Lemma mem_rstrip d s : Str.mem d s = false -> Str.mem d (Str.rstrip s) = false.
Proof.
  induction s as [|x r IH]; simpl; intros H; [reflexivity|].
  apply orb_false_iff in H as [Hx Hr]. specialize (IH Hr).
  destruct (Str.rstrip r) as [|y t].
  - destruct (Str.is_space x); simpl; [reflexivity|]. now rewrite Hx.
  - simpl in *. now rewrite Hx, IH.
Qed.

Lemma rstrip_idem s : Str.rstrip (Str.rstrip s) = Str.rstrip s.
Proof.
  induction s as [|x r IH]; [reflexivity|]. simpl.
  destruct (Str.rstrip r) as [|y t] eqn:E.
  - destruct (Str.is_space x) eqn:Ex; simpl; [reflexivity|]. now rewrite Ex.
  - change (Str.rstrip (String x (String y t)))
      with (match Str.rstrip (String y t) with
            | EmptyString =>
                if Str.is_space x then EmptyString else String x EmptyString
            | String a b => String x (String a b)
            end).
    now rewrite IH.
Qed.

(** Stripping on the right leaves a text stripped on the left as it is on
    the left. *)
Lemma lstrip_rstrip s :
  Str.lstrip (Str.rstrip (Str.lstrip s)) = Str.rstrip (Str.lstrip s).
Proof.
  induction s as [|x r IH]; [reflexivity|].
  cbn [Str.lstrip]. destruct (Str.is_space x) eqn:Ex; [exact IH|].
  cbn [Str.rstrip]. destruct (Str.rstrip r) as [|y t].
  - rewrite Ex. simpl. now rewrite Ex.
  - simpl. now rewrite Ex.
Qed.

Lemma strip_idem s : Str.strip (Str.strip s) = Str.strip s.
Proof. unfold Str.strip. now rewrite lstrip_rstrip, rstrip_idem. Qed.

Lemma mem_strip d s : Str.mem d s = false -> Str.mem d (Str.strip s) = false.
Proof. intros H. unfold Str.strip. now apply mem_rstrip, mem_lstrip. Qed.

(** A match of the coordinate pattern lies on one line. *)
Lemma match_one_line m :
  Matches coords_re m -> Str.mem Re.newline m = false.
Proof.
  unfold coords_re. intros HM.
  inversion HM as [|c1 p1 m1 H1|]; subst; clear HM.
  inversion H1 as [| |a p2 m2 Ha Na H2]; subst; clear H1.
  inversion H2 as [|c3 p3 m3 H3|]; subst; clear H2.
  inversion H3 as [|c4 p4 m4 H4|]; subst; clear H3.
  inversion H4 as [| |b p5 m5 Hb Nb H5]; subst; clear H4.
  inversion H5 as [|c6 p6 m6 H6|]; subst; clear H5.
  inversion H6; subst; clear H6.
  simpl. rewrite SplitFacts.mem_append, Na. simpl.
  now rewrite SplitFacts.mem_append, Nb.
Qed.

End CleanFacts.

Module ApplyFacts.

Lemma apply_str_ok g cs out :
  apply_str g cs = Ok out <->
  Forall2 (fun c o => exists s t, c = Text s /\ g s = Ok t /\ o = Text t) cs out.
Proof.
  unfold apply_str. rewrite TraverseFacts.traverse_ok.
  split; intros H; induction H as [|c o cs' out' Hc _ IH]; constructor; auto.
  - destruct c as [|q|s]; try discriminate.
    destruct (g s) as [t|] eqn:E; [|discriminate]. cbn [bind] in Hc.
    injection Hc as <-. eauto.
  - destruct Hc as (s & t & -> & E & ->). now rewrite E.
Qed.

(** With a function that may raise only [e0], applying it to a column
    either returns or raises [TypeError] or [e0], and it returns exactly
    when every cell is a text on which the function returns. *)
Lemma apply_str_cases g cs (ok : cell -> bool) :
  (forall c, ok c = true <-> exists s t, c = Text s /\ g s = Ok t) ->
  if forallb ok cs
  then exists out, apply_str g cs = Ok out
  else exists e, apply_str g cs = Raise e /\
                 (e = TypeError \/ exists s, g s = Raise e).
Proof.
  intros Hok. destruct (forallb ok cs) eqn:E.
  - rewrite forallb_forall in E. unfold apply_str.
    apply TraverseFacts.traverse_total. apply Forall_forall. intros c Hc.
    destruct (proj1 (Hok c) (E c Hc)) as (s & t & -> & Hg).
    rewrite Hg. cbn [bind]. eauto.
  - destruct (apply_str g cs) as [out|e] eqn:A.
    + exfalso. apply apply_str_ok in A.
      assert (forallb ok cs = true); [|congruence].
      apply forallb_forall. intros c Hc.
      destruct (TraverseFacts.forall2_in_l _ _ _ _ A Hc)
        as (o & _ & s & t & -> & Hg & _).
      apply Hok. eauto.
    + exists e. split; [reflexivity|]. unfold apply_str in A.
      apply TraverseFacts.traverse_raise in A as [c [_ Hc]].
      destruct c as [|q|s]; try (injection Hc as <-; now left).
      destruct (g s) as [t|e'] eqn:G; [discriminate|].
      cbn [bind] in Hc. injection Hc as <-. right. eauto.
Qed.

End ApplyFacts.

Module CoordColumn.

Lemma has_coordinates_lat c :
  has_coordinates c = true <-> exists s t, c = Text s /\ find_lat s = Ok t.
Proof.
  destruct c as [|q|s]; simpl.
  - split; [discriminate|]. intros (s & t & E & _). discriminate.
  - split; [discriminate|]. intros (s & t & E & _). discriminate.
  - destruct (CoordFacts.find_lat_lon_cases s)
      as [(E & Hlat & _)|(E & lat & lon & Hlat & _)].
    + rewrite E. split; [discriminate|].
      intros (s' & t & Es & Ht). injection Es as <-. congruence.
    + destruct (Re.findall coords_re s); [congruence|].
      split; [eauto|reflexivity].
Qed.

Lemma has_coordinates_lon c :
  has_coordinates c = true <-> exists s t, c = Text s /\ find_lon s = Ok t.
Proof.
  destruct c as [|q|s]; simpl.
  - split; [discriminate|]. intros (s & t & E & _). discriminate.
  - split; [discriminate|]. intros (s & t & E & _). discriminate.
  - destruct (CoordFacts.find_lat_lon_cases s)
      as [(E & _ & Hlon)|(E & lat & lon & _ & Hlon)].
    + rewrite E. split; [discriminate|].
      intros (s' & t & Es & Ht). injection Es as <-. congruence.
    + destruct (Re.findall coords_re s); [congruence|].
      split; [eauto|reflexivity].
Qed.

Lemma find_lat_error s e : find_lat s = Raise e -> e = IndexError.
Proof.
  destruct (CoordFacts.find_lat_lon_cases s)
    as [(_ & -> & _)|(_ & lat & lon & -> & _)]; [|discriminate].
  intros H. now injection H.
Qed.

(** The coordinate columns, when every location names a pair. *)
Lemma derive_coordinates_ok parse (f : frame) (i : nat) :
  wf f -> find_col "Location 1" (columns f) = Some i ->
  forallb has_coordinates (column f i) = true ->
  exists f' lat lon,
    derive_coordinates parse f = Ok f' /\ wf f' /\
    apply_str find_lat (column f i) = Ok lat /\
    apply_str find_lon (column f i) = Ok lon /\
    getitem f' "lat" = Ok (to_numeric parse lat) /\
    getitem f' "lon" = Ok (to_numeric parse lon) /\
    forall other, other <> "lat" -> other <> "lon" ->
                  getitem f' other = getitem f other.
Proof.
  intros Hwf Hi Ht. unfold derive_coordinates.
  pose proof (FrameFacts.getitem_column _ _ _ Hi) as G. rewrite G. cbn [bind].
  pose proof (ApplyFacts.apply_str_cases find_lat (column f i) has_coordinates
                has_coordinates_lat) as Hlat.
  pose proof (ApplyFacts.apply_str_cases find_lon (column f i) has_coordinates
                has_coordinates_lon) as Hlon.
  rewrite Ht in Hlat, Hlon.
  destruct Hlat as [lat Elat]. destruct Hlon as [lon Elon].
  assert (Llat : List.length lat = List.length (rows f)).
  { apply TraverseFacts.traverse_length in Elat. unfold column in Elat.
    now rewrite length_map in Elat. }
  assert (Llon : List.length lon = List.length (rows f)).
  { apply TraverseFacts.traverse_length in Elon. unfold column in Elon.
    now rewrite length_map in Elon. }
  rewrite Elat. cbn [bind].
  set (f1 := setitem f "lat" Object lat).
  assert (W1 : wf f1) by (now apply FrameFacts.setitem_wf).
  assert (R1 : List.length (rows f1) = List.length (rows f))
    by (now apply FrameFacts.setitem_rows_length).
  assert (G1 : getitem f1 "Location 1" = Ok (column f i)).
  { unfold f1. rewrite FrameFacts.getitem_setitem_other
      by (auto; discriminate). exact G. }
  rewrite G1. cbn [bind]. rewrite Elon. cbn [bind].
  set (f2 := setitem f1 "lon" Object lon).
  assert (W2 : wf f2) by (apply FrameFacts.setitem_wf; [exact W1|lia]).
  assert (R2 : List.length (rows f2) = List.length (rows f))
    by (unfold f2; rewrite FrameFacts.setitem_rows_length; lia).
  unfold coerce_column.
  assert (G2 : getitem f2 "lat" = Ok lat).
  { unfold f2. rewrite FrameFacts.getitem_setitem_other
      by (auto; try lia; discriminate).
    now apply PdFacts.getitem_setitem. }
  rewrite G2. cbn [bind].
  set (f3 := setitem f2 "lat" Numeric (to_numeric parse lat)).
  assert (Tlat : List.length (to_numeric parse lat) = List.length (rows f2))
    by (unfold to_numeric; rewrite length_map; lia).
  assert (W3 : wf f3) by (now apply FrameFacts.setitem_wf).
  assert (R3 : List.length (rows f3) = List.length (rows f))
    by (unfold f3; rewrite FrameFacts.setitem_rows_length; lia).
  assert (G3 : getitem f3 "lon" = Ok lon).
  { unfold f3. rewrite FrameFacts.getitem_setitem_other
      by (auto; discriminate).
    unfold f2. apply PdFacts.getitem_setitem; [exact W1|lia]. }
  rewrite G3. cbn [bind].
  assert (Tlon : List.length (to_numeric parse lon) = List.length (rows f3))
    by (unfold to_numeric; rewrite length_map; lia).
  eexists. exists lat, lon. split; [reflexivity|].
  split; [now apply FrameFacts.setitem_wf|].
  split; [reflexivity|]. split; [reflexivity|]. split; [|split].
  + rewrite FrameFacts.getitem_setitem_other by (auto; discriminate).
    now apply PdFacts.getitem_setitem.
  + now apply PdFacts.getitem_setitem.
  + intros other Hn1 Hn2.
    rewrite FrameFacts.getitem_setitem_other by auto.
    unfold f3. rewrite FrameFacts.getitem_setitem_other by auto.
    unfold f2. rewrite FrameFacts.getitem_setitem_other by (auto; lia).
    unfold f1. now rewrite FrameFacts.getitem_setitem_other by auto.
Qed.

Lemma derive_coordinates_error parse (f : frame) (i : nat) :
  find_col "Location 1" (columns f) = Some i ->
  forallb has_coordinates (column f i) = false ->
  exists e,
    derive_coordinates parse f = Raise e /\
    (e = TypeError \/ e = IndexError).
Proof.
  intros Hi Ht. unfold derive_coordinates.
  rewrite (FrameFacts.getitem_column _ _ _ Hi). cbn [bind].
  pose proof (ApplyFacts.apply_str_cases find_lat (column f i) has_coordinates
                has_coordinates_lat) as Hlat.
  rewrite Ht in Hlat.
  destruct Hlat as (e & -> & He). cbn [bind]. exists e. split; [reflexivity|].
  destruct He as [->|[s Hs]]; [now left|right].
  now apply find_lat_error in Hs.
Qed.

End CoordColumn.

Module RerunFacts.

Lemma replace_nth_same {A : Type} (l : list A) : forall i x,
  nth_error l i = Some x -> replace_nth i x l = l.
Proof.
  induction l as [|y t IH]; intros [|i] x H; simpl in *; try discriminate.
  - now injection H as ->.
  - now rewrite IH.
Qed.

Lemma nth_error_replace_nth {A : Type} (l : list A) : forall i x,
  i < List.length l -> nth_error (replace_nth i x l) i = Some x.
Proof.
  induction l as [|y t IH]; intros [|i] x H; simpl in *; try lia;
    [reflexivity|].
  apply IH. lia.
Qed.

Lemma nth_error_replace_other {A : Type} (l : list A) : forall i j x,
  j <> i -> nth_error (replace_nth i x l) j = nth_error l j.
Proof.
  induction l as [|y t IH]; intros [|i] [|j] x H; simpl; try reflexivity;
    try lia.
  apply IH. lia.
Qed.

(** Writing a column back under its own dtype gives the same table. *)
Lemma setitem_same f name dt i :
  wf f -> find_col name (columns f) = Some i ->
  nth_error (columns f) i = Some (name, dt) ->
  setitem f name dt (column f i) = f.
Proof.
  intros Hwf Hi Hn. unfold setitem, column. rewrite Hi.
  destruct f as [cols rs]. cbn [columns rows] in *.
  f_equal; [now apply replace_nth_same|].
  unfold wf, width in Hwf. cbn [columns rows] in Hwf.
  apply PdFacts.find_col_lt in Hi.
  induction Hwf as [|r t Hr _ IH]; simpl; [reflexivity|]. rewrite IH. f_equal.
  apply replace_nth_same. unfold at_col.
  apply nth_error_nth'. lia.
Qed.

(** The assigned column has the assigned dtype. *)
Lemma setitem_dtype f name dt vs :
  exists j,
    find_col name (columns (setitem f name dt vs)) = Some j /\
    nth_error (columns (setitem f name dt vs)) j = Some (name, dt).
Proof.
  unfold setitem. destruct (find_col name (columns f)) as [i|] eqn:E;
    cbn [columns].
  - exists i. split; [now rewrite PdFacts.find_col_replace|].
    apply nth_error_replace_nth. now apply PdFacts.find_col_lt in E.
  - exists (List.length (columns f)).
    split; [now apply PdFacts.find_col_app_none|].
    rewrite nth_error_app2, Nat.sub_diag by lia. reflexivity.
Qed.

(** Every other column keeps its dtype. *)
Lemma setitem_keeps_dtype f name dt vs other i :
  other <> name -> find_col other (columns f) = Some i ->
  nth_error (columns (setitem f name dt vs)) i = nth_error (columns f) i.
Proof.
  intros Hne Hi. unfold setitem.
  destruct (find_col name (columns f)) as [j|] eqn:E; cbn [columns].
  - apply nth_error_replace_other. intros ->. apply Hne.
    eapply PdFacts.find_col_inj; eassumption.
  - apply nth_error_app1. now apply PdFacts.find_col_lt in Hi.
Qed.

Lemma coerced_setitem parse f other dt vs c :
  wf f -> List.length vs = List.length (rows f) -> other <> c ->
  coerced parse f c -> coerced parse (setitem f other dt vs) c.
Proof.
  intros Hwf L Hne (i & Hi & Hn & Hc). exists i.
  assert (Hi' : find_col c (columns (setitem f other dt vs)) = Some i)
    by (rewrite FrameFacts.find_col_setitem; auto).
  split; [exact Hi'|].
  split; [rewrite (setitem_keeps_dtype f other dt vs c i); auto|].
  assert (E : column (setitem f other dt vs) i = column f i).
  { pose proof (FrameFacts.getitem_setitem_other f other dt vs c Hwf L) as G.
    rewrite (FrameFacts.getitem_column _ _ _ Hi'),
            (FrameFacts.getitem_column _ _ _ Hi) in G.
    assert (G' := G ltac:(auto)). now injection G'. }
  now rewrite E.
Qed.

(** What a coercion has written. *)
Lemma coerce_column_inv parse f c f1 :
  coerce_column parse f c = Ok f1 ->
  exists i, find_col c (columns f) = Some i /\
            f1 = setitem f c Numeric (to_numeric parse (column f i)).
Proof.
  unfold coerce_column, getitem, col_index.
  destruct (find_col c (columns f)) as [i|]; [|discriminate].
  cbn [bind]. intros H. injection H as <-. eauto.
Qed.

Lemma length_coerced_column parse f i :
  List.length (to_numeric parse (column f i)) = List.length (rows f).
Proof. unfold to_numeric, column. now rewrite !length_map. Qed.

Lemma coerce_column_coerced parse f c f1 :
  wf f -> coerce_column parse f c = Ok f1 -> coerced parse f1 c.
Proof.
  intros Hwf H. destruct (coerce_column_inv _ _ _ _ H) as (i & Hi & ->).
  destruct (setitem_dtype f c Numeric (to_numeric parse (column f i)))
    as (j & Hj & Hn).
  exists j. split; [exact Hj|]. split; [exact Hn|].
  pose proof (PdFacts.getitem_setitem f c Numeric
                (to_numeric parse (column f i)) Hwf
                (length_coerced_column parse f i)) as G.
  rewrite (FrameFacts.getitem_column _ _ _ Hj) in G. injection G as ->.
  apply CoerceFacts.to_numeric_idem.
Qed.

Lemma coerce_column_other parse f other f1 c :
  wf f -> coerce_column parse f other = Ok f1 -> other <> c ->
  coerced parse f c -> coerced parse f1 c.
Proof.
  intros Hwf H Hne Hc. destruct (coerce_column_inv _ _ _ _ H) as (i & Hi & ->).
  apply coerced_setitem; auto. apply length_coerced_column.
Qed.

Lemma coerce_column_wf parse f c f1 :
  wf f -> coerce_column parse f c = Ok f1 -> wf f1.
Proof.
  intros Hwf H. destruct (coerce_column_inv _ _ _ _ H) as (i & Hi & ->).
  apply FrameFacts.setitem_wf; [exact Hwf|apply length_coerced_column].
Qed.

(** Coercing a coerced column gives the same table. *)
Lemma coerce_column_noop parse f c :
  wf f -> coerced parse f c -> coerce_column parse f c = Ok f.
Proof.
  intros Hwf (i & Hi & Hn & Hc). unfold coerce_column.
  rewrite (FrameFacts.getitem_column _ _ _ Hi). cbn [bind]. rewrite Hc.
  now rewrite (setitem_same f c Numeric i).
Qed.

Lemma setitem_again f name dt vs :
  wf f -> List.length vs = List.length (rows f) ->
  setitem (setitem f name dt vs) name dt vs = setitem f name dt vs.
Proof.
  intros Hwf L. destruct (setitem_dtype f name dt vs) as (j & Hj & Hn).
  pose proof (PdFacts.getitem_setitem f name dt vs Hwf L) as G.
  rewrite (FrameFacts.getitem_column _ _ _ Hj) in G. injection G as G.
  rewrite <- G at 2. apply setitem_same; auto.
  now apply FrameFacts.setitem_wf.
Qed.

Lemma series_add_length xs : forall ys zs,
  series_add xs ys = Ok zs ->
  List.length zs = Nat.min (List.length xs) (List.length ys).
Proof.
  induction xs as [|x xs IH]; intros [|y ys] zs; simpl;
    try (intros H; injection H as <-; reflexivity).
  destruct (cell_add x y); [|discriminate]. cbn [bind].
  destruct (series_add xs ys) as [zs'|] eqn:E; [|discriminate]. cbn [bind].
  intros H. injection H as <-. simpl. now rewrite (IH ys zs' E).
Qed.

End RerunFacts.

Module FilterFacts.

Lemma filter_eq_idem f name v f1 :
  filter_eq f name v = Ok f1 -> filter_eq f1 name v = Ok f1.
Proof.
  unfold filter_eq, col_index.
  destruct (find_col name (columns f)) as [i|] eqn:E; [|discriminate].
  cbn [bind]. intros H. injection H as <-. cbn [columns rows]. rewrite E.
  cbn [bind]. do 2 f_equal. rewrite GroupFacts.filter_filter_and.
  apply filter_ext. intros r. apply andb_diag.
Qed.

(** Two filters in a row commute. *)
Lemma filter_eq_two_idem f n1 v1 n2 v2 f1 f2 :
  filter_eq f n1 v1 = Ok f1 -> filter_eq f1 n2 v2 = Ok f2 ->
  exists g, filter_eq f2 n1 v1 = Ok g /\ filter_eq g n2 v2 = Ok f2.
Proof.
  unfold filter_eq, col_index.
  destruct (find_col n1 (columns f)) as [i|] eqn:E1; [|discriminate].
  cbn [bind]. intros H. injection H as <-. cbn [columns rows].
  destruct (find_col n2 (columns f)) as [j|] eqn:E2; [|discriminate].
  cbn [bind]. intros H. injection H as <-. cbn [columns rows].
  rewrite E1. cbn [bind columns rows]. eexists. split; [reflexivity|].
  cbn [columns rows]. rewrite E2. cbn [bind]. do 2 f_equal.
  rewrite !GroupFacts.filter_filter_and. apply filter_ext. intros r.
  destruct (cell_eqb (at_col i r) v1), (cell_eqb (at_col j r) v2); reflexivity.
Qed.

End FilterFacts.

Module KeysFacts.

Lemma insert_existsb (p : cell -> bool) x l :
  existsb p (insert_key x l) = p x || existsb p l.
Proof.
  induction l as [|h t IH]; [reflexivity|].
  simpl insert_key. destruct (cell_leb x h); [reflexivity|].
  simpl. rewrite IH. now destruct (p x), (p h).
Qed.

Lemma sort_existsb (p : cell -> bool) l :
  existsb p (sort_keys l) = existsb p l.
Proof.
  induction l as [|h t IH]; [reflexivity|].
  simpl sort_keys. rewrite insert_existsb. simpl. now rewrite IH.
Qed.

Lemma dedup_existsb k l :
  existsb (key_eqb k) (dedup_keys l) = existsb (key_eqb k) l.
Proof.
  induction l as [|h t IH]; [reflexivity|].
  simpl. destruct (existsb (key_eqb h) t) eqn:E; simpl; rewrite IH;
    [|reflexivity].
  destruct (key_eqb k h) eqn:Ekh; [|reflexivity]. simpl.
  apply existsb_exists in E as [y [Hy Ey]].
  apply existsb_exists. exists y. split; [exact Hy|].
  now apply GroupFacts.key_eqb_trans with h.
Qed.

Lemma present_existsb k cs :
  existsb (key_eqb k) (filter (fun c => negb (is_nan c)) cs)
  = negb (is_nan k) && existsb (key_eqb k) cs.
Proof.
  induction cs as [|c t IH]; simpl; [now rewrite andb_false_r|].
  destruct c as [|q|s]; simpl; rewrite IH; destruct k as [|x|u]; simpl;
    try reflexivity.
Qed.

(** A key is among the group keys when it is not missing and occurs in the
    column. *)
Lemma group_keys_existsb k cs :
  existsb (key_eqb k) (group_keys cs)
  = negb (is_nan k) && existsb (key_eqb k) cs.
Proof.
  unfold group_keys. now rewrite sort_existsb, dedup_existsb, present_existsb.
Qed.

Lemma count_existsb (p : cell -> bool) l :
  List.length (filter p l) <= 1 ->
  List.length (filter p l) = if existsb p l then 1 else 0.
Proof.
  induction l as [|h t IH]; simpl; [reflexivity|].
  destruct (p h); simpl; intros H; [|now apply IH].
  lia.
Qed.

(** The rows of a grouped table and its keys. *)
Lemma groupby_keys f key i f' :
  find_col key (columns f) = Some i -> groupby_mean f key = Ok f' ->
  map (at_col 0) (rows f') = group_keys (map (at_col i) (rows f)) /\
  wf f'.
Proof.
  intros H. unfold groupby_mean, col_index. rewrite H. cbn [bind].
  intros E. injection E as <-. cbn [rows]. split.
  - rewrite map_map. rewrite <- (map_id (group_keys _)) at 2.
    now apply map_ext.
  - unfold wf, width. cbn [rows columns]. apply Forall_map, Forall_forall.
    intros k _. cbn [List.length]. now rewrite !length_map.
Qed.

Lemma existsb_map_comp {A B : Type} (p : B -> bool) (g : A -> B) l :
  existsb p (map g l) = existsb (fun x => p (g x)) l.
Proof. induction l as [|x t IH]; simpl; [reflexivity|]. now rewrite IH. Qed.


End KeysFacts.

Module JoinFacts.

Lemma length_remove_nth {A : Type} (l : list A) : forall i,
  i < List.length l -> List.length (remove_nth i l) = List.length l - 1.
Proof.
  induction l as [|x t IH]; intros [|i] H; simpl in *; try lia.
  rewrite IH by lia. destruct t; simpl in *; lia.
Qed.

Lemma join_row_width h il ir rs lr row wl wr :
  List.length lr = wl -> Forall (fun rr => List.length rr = wr) rs ->
  ir < wr ->
  In row (join_row h il ir (wr - 1) rs lr) -> List.length row = wl + (wr - 1).
Proof.
  intros Hl Hr Hi. unfold join_row.
  destruct (matches il ir lr rs) as [|m ms] eqn:E.
  - destruct h; simpl; [|tauto]. intros [<-|[]].
    now rewrite length_app, repeat_length, Hl.
  - intros H. apply in_map_iff in H as [rr [<- Hin]].
    rewrite <- E in Hin. unfold matches in Hin. apply filter_In in Hin as [Hin _].
    rewrite Forall_forall in Hr. specialize (Hr rr Hin).
    rewrite length_app, length_remove_nth, Hl, Hr; lia.
Qed.

(** A join of two well-formed tables is well-formed and has the columns of
    both, the key of the right one apart. *)
Lemma merge_wf l r key h m :
  wf l -> wf r -> merge l r key h = Ok m ->
  wf m /\ width m = width l + (width r - 1).
Proof.
  intros Hl Hr. unfold merge, col_index.
  destruct (find_col key (columns l)) as [il|] eqn:El; [|discriminate].
  destruct (find_col key (columns r)) as [ir|] eqn:Er; [|discriminate].
  cbn [bind]. intros H. injection H as <-.
  pose proof (PdFacts.find_col_lt _ _ _ Er) as Lr.
  assert (W : List.length (remove_nth ir (columns r)) = width r - 1)
    by (now apply length_remove_nth).
  assert (Wm : width
                 (mkFrame
                    (map (suffixed key (map fst (remove_nth ir (columns r))) "_x")
                         (columns l)
                       ++ map (suffixed key (map fst (columns l)) "_y")
                              (remove_nth ir (columns r)))
                    (flat_map (join_row h il ir
                                 (List.length (remove_nth ir (columns r))) (rows r))
                       (rows l)))
               = width l + (width r - 1)).
  { unfold width. cbn [columns]. rewrite length_app, !length_map.
    unfold width in W. now rewrite W. }
  split; [|exact Wm].
  unfold wf. rewrite Wm. cbn [rows]. apply Forall_forall. intros row Hrow.
  apply in_flat_map in Hrow as [lr [Hlr Hrow]]. rewrite W in Hrow.
  unfold wf in Hl, Hr. rewrite Forall_forall in Hl.
  apply (join_row_width h il ir (rows r) lr row (width l) (width r)).
  - now apply Hl.
  - exact Hr.
  - exact Lr.
  - exact Hrow.
Qed.



Lemma count_key_column f i k :
  count_key f i k = List.length (filter (key_eqb k) (map (at_col i) (rows f))).
Proof.
  unfold count_key, group_of. rewrite GroupFacts.filter_map_comm, length_map.
  f_equal. apply filter_ext. intros r. apply GroupFacts.key_eqb_sym.
Qed.




Section OneToOne.

Variable A : list (list cell).
Variables n i : nat.
Hypothesis width_A : Forall (fun a => List.length a = n) A.
Hypothesis key_in_A : i < n.


End OneToOne.

End JoinFacts.

Module MergedFacts.

(** The six joins behind a merged table. *)
Lemma merged_steps d m :
  merged d = Ok m ->
  exists c1 c2 c3 c4 c5,
    merge (sat_results d) (ap_2010 d) "DBN" Left = Ok c1 /\
    merge c1 (graduation d) "DBN" Left = Ok c2 /\
    merge c2 (class_size d) "DBN" Inner = Ok c3 /\
    merge c3 (demographics d) "DBN" Inner = Ok c4 /\
    merge c4 (survey d) "DBN" Inner = Ok c5 /\
    merge c5 (hs_directory d) "DBN" Inner = Ok m.
Proof.
  unfold merged, left_joins, inner_joins. cbn [fold_left].
  destruct (merge (sat_results d) (ap_2010 d) "DBN" Left) as [c1|] eqn:E1;
    [|discriminate].
  cbn [bind].
  destruct (merge c1 (graduation d) "DBN" Left) as [c2|] eqn:E2; [|discriminate].
  cbn [bind].
  destruct (merge c2 (class_size d) "DBN" Inner) as [c3|] eqn:E3; [|discriminate].
  cbn [bind].
  destruct (merge c3 (demographics d) "DBN" Inner) as [c4|] eqn:E4; [|discriminate].
  cbn [bind].
  destruct (merge c4 (survey d) "DBN" Inner) as [c5|] eqn:E5; [|discriminate].
  cbn [bind]. intros H. exists c1, c2, c3, c4, c5.
  rewrite E2, E3, E4, E5, H. repeat split.
Qed.

End MergedFacts.

Module FillFacts.

Lemma fill_not_nan c v : v <> NaN -> fill c v <> NaN.
Proof. intros H. destruct c; simpl; [exact H|discriminate|discriminate]. Qed.

Lemma fill_present c v : c <> NaN -> fill c v = c.
Proof. intros H. destruct c; simpl; [now destruct H|reflexivity|reflexivity]. Qed.

Lemma zip_with_fill_id r : forall fills,
  List.length r <= List.length fills ->
  Forall (fun c => c <> NaN) r -> zip_with fill r fills = r.
Proof.
  induction r as [|c r IH]; intros [|v fills] L H; simpl in *; try lia;
    try reflexivity.
  inversion H as [|c' r' Hc Hr]; subst.
  rewrite (fill_present c v Hc), IH; [reflexivity|lia|exact Hr].
Qed.

Lemma map_fill_id r v :
  Forall (fun c => c <> NaN) r -> map (fun c => fill c v) r = r.
Proof.
  induction 1 as [|c r Hc _ IH]; simpl; [reflexivity|].
  now rewrite (fill_present c v Hc), IH.
Qed.

Lemma impute_rows_present f :
  Forall (Forall (fun c => c <> NaN)) (rows (impute f)).
Proof.
  unfold impute. cbn [rows fillna fillna_each]. rewrite map_map.
  apply Forall_map, Forall_forall. intros r _.
  apply Forall_map, Forall_forall. intros c _.
  apply fill_not_nan. discriminate.
Qed.

Lemma impute_wf f : wf f -> wf (impute f).
Proof.
  unfold wf, width, impute. cbn [rows columns fillna fillna_each].
  intros H. rewrite map_map. apply Forall_map.
  eapply Forall_impl; [|exact H]. intros r Hr. cbv beta in *.
  rewrite length_map, ImputeFacts.length_zip_with,
    ImputeFacts.length_column_means. unfold width. lia.
Qed.

End FillFacts.

Module DistrictFacts.

Lemma is_text_spec k :
  is_text k = true <->
  exists s t, k = Text s /\ Ok (get_first_two_chars s) = Ok t.
Proof.
  destruct k as [|q|s]; simpl; split; try discriminate; eauto.
  - intros (s & t & E & _). discriminate.
  - intros (s & t & E & _). discriminate.
Qed.

(** The district column, when every DBN is a text. *)
Lemma add_school_dist_ok c i :
  wf c -> find_col "DBN" (columns c) = Some i ->
  forallb is_text (column c i) = true ->
  exists c' dist,
    add_school_dist c = Ok c' /\ wf c' /\
    getitem c' "school_dist" = Ok dist /\
    Forall2 (fun k d => exists s,
                 k = Text s /\ d = Text (get_first_two_chars s))
            (column c i) dist /\
    forall other, other <> "school_dist" -> getitem c' other = getitem c other.
Proof.
  intros Hwf Hi Ht. unfold add_school_dist.
  rewrite (FrameFacts.getitem_column _ _ _ Hi). cbn [bind].
  pose proof (ApplyFacts.apply_str_cases
                (fun s => Ok (get_first_two_chars s)) (column c i) is_text
                is_text_spec) as H.
  rewrite Ht in H. destruct H as [dist Hd]. rewrite Hd. cbn [bind].
  assert (L : List.length dist = List.length (rows c)).
  { apply TraverseFacts.traverse_length in Hd. unfold column in Hd.
    now rewrite length_map in Hd. }
  eexists. exists dist. split; [reflexivity|].
  split; [now apply FrameFacts.setitem_wf|].
  split; [now apply PdFacts.getitem_setitem|]. split.
  - apply ApplyFacts.apply_str_ok in Hd.
    eapply Forall2_impl; [|exact Hd].
    intros k d (s & t & -> & E & ->). injection E as <-. eauto.
  - intros other Ho. now apply FrameFacts.getitem_setitem_other.
Qed.

Lemma add_school_dist_type_error c i :
  find_col "DBN" (columns c) = Some i ->
  forallb is_text (column c i) = false ->
  add_school_dist c = Raise TypeError.
Proof.
  intros Hi Ht. unfold add_school_dist.
  rewrite (FrameFacts.getitem_column _ _ _ Hi). cbn [bind].
  pose proof (ApplyFacts.apply_str_cases
                (fun s => Ok (get_first_two_chars s)) (column c i) is_text
                is_text_spec) as H.
  rewrite Ht in H. destruct H as (e & -> & [->|[s Hs]]);
    [reflexivity|discriminate].
Qed.

End DistrictFacts.

Module SelectFacts.

Lemma select_rows_filter (p : list cell -> bool) f :
  select_rows f (map p (rows f)) = mkFrame (columns f) (filter p (rows f)).
Proof.
  unfold select_rows. f_equal.
  induction (rows f) as [|r t IH]; simpl; [reflexivity|].
  destruct (p r); simpl; now rewrite IH.
Qed.

Lemma zip_with_map2 {A B C D : Type} (g : B -> C -> D) (h : A -> B) (k : A -> C) l :
  zip_with g (map h l) (map k l) = map (fun x => g (h x) (k x)) l.
Proof. induction l as [|x t IH]; simpl; [reflexivity|]. now rewrite IH. Qed.

Lemma compare_column (cmp : cell -> result bool) (b : cell -> bool) cs :
  (forall c, is_text c = false -> cmp c = Ok (b c)) ->
  (forall c, is_text c = true -> cmp c = Raise TypeError) ->
  traverse cmp cs
  = if forallb (fun c => negb (is_text c)) cs then Ok (map b cs)
    else Raise TypeError.
Proof.
  intros Hn Ht. induction cs as [|c t IH]; simpl; [reflexivity|].
  destruct (is_text c) eqn:E; simpl.
  - now rewrite (Ht c E).
  - rewrite (Hn c E). cbn [bind]. rewrite IH.
    now destruct (forallb (fun c0 => negb (is_text c0)) t).
Qed.

Lemma cell_gt_column q cs :
  traverse (cell_gt q) cs
  = if forallb (fun c => negb (is_text c)) cs then Ok (map (above q) cs)
    else Raise TypeError.
Proof.
  apply compare_column; intros [|x|s] H; try discriminate; reflexivity.
Qed.

Lemma cell_lt_column q cs :
  traverse (cell_lt q) cs
  = if forallb (fun c => negb (is_text c)) cs then Ok (map (below q) cs)
    else Raise TypeError.
Proof.
  apply compare_column; intros [|x|s] H; try discriminate; reflexivity.
Qed.

Lemma above_not_below c : above (inject_Z 95) c = true -> below (inject_Z 10) c = false.
Proof.
  destruct c as [|x|s]; simpl; try discriminate.
  intros H. apply negb_true_iff in H. apply negb_false_iff.
  apply Qle_bool_iff.
  destruct (Qlt_le_dec (inject_Z 95) x) as [L|L].
  - apply Qlt_le_weak. eapply Qle_lt_trans; [|exact L]. discriminate.
  - apply Qle_bool_iff in L. congruence.
Qed.

End SelectFacts.

(** ** The loader *)

(** X1: when the file names are distinct base names without a dot, each
    followed by ".csv", and every file can be read, the loader returns a
    dict whose keys are the base names in the order of the files, and
    looking a base name up gives the table read from its file. *)
Theorem load_tables read_csv (tables : string -> frame) (bases : list string) :
  NoDup bases ->
  Forall (fun b => Str.mem "."%char b = false) bases ->
  (forall b, In b bases -> read_csv (b ++ ".csv")%string = Ok (tables b)) ->
  exists data,
    load read_csv (map (fun b => (b ++ ".csv")%string) bases) [] = Ok data /\
    map fst data = bases /\
    forall b, In b bases -> dict_get data b = Ok (tables b).
Proof.
  intros Hnd Hdot Hread. eexists. split.
  - now apply (LoadFacts.load_append read_csv tables bases []).
  - cbn [app]. split.
    + rewrite map_map. cbn [fst]. apply map_id.
    + intros b Hb. now apply LoadFacts.dict_get_in.
Qed.

Lemma load_tables_witness :
  exists data,
    load (read_from files_example) data_files [] = Ok data /\
    map fst data
    = ["ap_2010"; "class_size"; "demographics"; "graduation"; "hs_directory";
       "sat_results"] /\
    dict_get data "graduation" = Ok graduation_example.
Proof.
  destruct (load_tables (read_from files_example)
              (fun b => match read_from files_example (b ++ ".csv")%string with
                        | Ok d => d
                        | Raise _ => mkFrame [] []
                        end)
              ["ap_2010"; "class_size"; "demographics"; "graduation";
               "hs_directory"; "sat_results"])
    as (data & E & K & G).
  - repeat constructor; simpl; intuition discriminate.
  - repeat constructor.
  - intros b H. simpl in H.
    repeat (destruct H as [<-|H]; [reflexivity|]). destruct H.
  - exists data. split; [exact E|]. split; [exact K|].
    apply (G "graduation"). simpl. tauto.
Defined.

(** X2: when the files before it can be read and a file cannot, the
    loader raises what reading that file raises, whatever follows it in
    the list and whatever the dict already holds. *)
Theorem load_stops_at_first_error read_csv (pre : list string) (f : string)
  (post : list string) (e : exn) :
  Forall (fun g => exists d, read_csv g = Ok d) pre ->
  read_csv f = Raise e ->
  forall acc, load read_csv (pre ++ f :: post) acc = Raise e.
Proof.
  intros Hpre Hf. induction Hpre as [|g t [d Hd] _ IH]; intros acc; simpl.
  - now rewrite Hf.
  - rewrite Hd. cbn [bind]. apply IH.
Qed.

Lemma load_stops_at_first_error_witness :
  load (read_from (firstn 3 files_example)) data_files []
  = Raise (KeyError "graduation.csv").
Proof.
  apply (load_stops_at_first_error (read_from (firstn 3 files_example))
           ["ap_2010.csv"; "class_size.csv"; "demographics.csv"]
           "graduation.csv" ["hs_directory.csv"; "sat_results.csv"]
           (KeyError "graduation.csv")).
  - repeat (constructor; [eexists; reflexivity|]). constructor.
  - reflexivity.
Defined.

(** ** The survey *)

(** X3: the survey table.  When one of the two survey files has a column
    "dbn" and each of the other 22 survey fields is a column of at least
    one of them, the survey table has exactly the 23 survey fields as its
    columns, in their order, one row per row of either file (the general
    survey first), "DBN" holds the "dbn" cells, and each field holds the
    cells of the file that has it and a missing cell for the rows of a file
    that does not.  Otherwise building the table raises [KeyError]. *)
Theorem build_survey_spec (all_survey d75_survey : frame) :
  wf all_survey ->
  if (has_column all_survey "dbn" || has_column d75_survey "dbn")
     && forallb (fun n => has_column all_survey n || has_column d75_survey n)
                (tl survey_fields)
  then exists s,
         build_survey all_survey d75_survey = Ok s /\
         map fst (columns s) = survey_fields /\ wf s /\
         List.length (rows s)
         = List.length (rows all_survey) + List.length (rows d75_survey) /\
         getitem s "DBN"
         = Ok (map (cell_of all_survey "dbn") (rows all_survey)
                 ++ map (cell_of d75_survey "dbn") (rows d75_survey)) /\
         forall n, In n (tl survey_fields) ->
           getitem s n
           = Ok (map (cell_of all_survey n) (rows all_survey)
                   ++ map (cell_of d75_survey n) (rows d75_survey))
  else exists n, build_survey all_survey d75_survey = Raise (KeyError n).
Proof.
  intros Hwf. unfold build_survey, copy_column, col_index.
  set (c := concat all_survey d75_survey).
  pose proof (SurveyFacts.concat_wf all_survey d75_survey Hwf) as Wc. fold c in Wc.
  pose proof (SurveyFacts.has_column_concat all_survey d75_survey "dbn") as Hd.
  fold c in Hd.
  destruct (has_column all_survey "dbn" || has_column d75_survey "dbn") eqn:Edbn.
  2:{ unfold has_column in Hd.
      destruct (find_col "dbn" (columns c)); [discriminate|]. cbn [bind andb].
      eauto. }
  destruct (find_col "dbn" (columns c)) as [i|] eqn:Ei;
    [|unfold has_column in Hd; rewrite Ei in Hd; discriminate].
  assert (Gd : map (at_col i) (rows c)
               = map (cell_of all_survey "dbn") (rows all_survey)
                 ++ map (cell_of d75_survey "dbn") (rows d75_survey)).
  { pose proof (SurveyFacts.getitem_concat all_survey d75_survey "dbn" Hwf Edbn)
      as G. fold c in G. unfold getitem, col_index in G. rewrite Ei in G.
    cbn [bind] in G. now injection G. }
  cbn [bind andb].
  set (c1 := setitem c "DBN" (dtype_at c i) (map (at_col i) (rows c))).
  assert (L1 : List.length (map (at_col i) (rows c)) = List.length (rows c))
    by apply length_map.
  assert (W1 : wf c1) by (now apply FrameFacts.setitem_wf).
  assert (HF : forallb (has_column c1) survey_fields
               = forallb (fun n => has_column all_survey n
                                   || has_column d75_survey n)
                         (tl survey_fields)).
  { change survey_fields with ("DBN" :: tl survey_fields) at 1.
    cbn [forallb].
    assert (D : has_column c1 "DBN" = true).
    { unfold has_column.
      destruct (FrameFacts.find_col_setitem_same c "DBN" (dtype_at c i)
                  (map (at_col i) (rows c))) as [j Hj].
      fold c1 in Hj. now rewrite Hj. }
    rewrite D. cbn [andb]. apply SurveyFacts.forallb_ext_in'. intros n Hn.
    unfold c1. rewrite SurveyFacts.has_column_setitem.
    - apply SurveyFacts.has_column_concat.
    - intros ->. revert Hn. clear. cbn. intuition discriminate. }
  rewrite <- HF.
  destruct (forallb (has_column c1) survey_fields) eqn:EF.
  - destruct (SurveyFacts.select_columns_ok c1 survey_fields EF)
      as (s & -> & Hn & Ws & Ls & Gs).
    exists s. split; [reflexivity|]. split; [exact Hn|]. split; [exact Ws|].
    split.
    { rewrite Ls. unfold c1. rewrite FrameFacts.setitem_rows_length by exact L1.
      apply SurveyFacts.concat_rows_length. }
    split.
    + rewrite Gs by (now left). unfold c1.
      rewrite PdFacts.getitem_setitem by assumption. now rewrite Gd.
    + intros n Hin. rewrite Gs by (now right). unfold c1.
      rewrite FrameFacts.getitem_setitem_other; try assumption.
      * apply SurveyFacts.getitem_concat; [exact Hwf|].
        symmetry in HF. rewrite forallb_forall in HF. now apply HF.
      * intros ->. revert Hin. clear. cbn. intuition discriminate.
  - destruct (SurveyFacts.select_columns_missing c1 survey_fields EF)
      as (n & _ & _ & ->). eauto.
Qed.

Lemma build_survey_spec_witness :
  exists s,
    build_survey all_survey_example d75_survey_example = Ok s /\
    map fst (columns s) = survey_fields /\
    getitem s "DBN" = Ok [Text "01M015"; Text "01M019"; Text "75K004"] /\
    getitem s "rr_s" = Ok [num 8; num 7; num 9] /\
    getitem s "saf_p_11" = Ok [num 8; num 7; NaN].
Proof.
  pose proof (build_survey_spec all_survey_example d75_survey_example
    ltac:(repeat constructor)) as H.
  then_branch H. destruct H as (s & E & Hn & _ & _ & Gd & Gn).
  exists s. split; [exact E|]. split; [exact Hn|]. split; [exact Gd|].
  split.
  - apply (Gn "rr_s"). simpl. tauto.
  - apply (Gn "saf_p_11"). simpl. tauto.
Defined.

(** ** The key normaliser *)

(** X4: copying the directory's key.  On a directory with a column "dbn"
    the assignment returns a table with a column "DBN" holding the same
    cells, and every other column as it was; on a directory without it the
    assignment raises [KeyError] for "dbn". *)
Theorem add_directory_DBN_spec (f : frame) :
  wf f ->
  match getitem f "dbn" with
  | Ok v =>
      exists f',
        add_directory_DBN f = Ok f' /\ wf f' /\
        getitem f' "DBN" = Ok v /\ has_column f' "DBN" = true /\
        forall other, other <> "DBN" -> getitem f' other = getitem f other
  | Raise e => add_directory_DBN f = Raise e /\ e = KeyError "dbn"
  end.
Proof.
  intros Hwf. unfold add_directory_DBN, copy_column, getitem, col_index.
  destruct (find_col "dbn" (columns f)) as [i|] eqn:E; cbn [bind]; [|auto].
  assert (L : List.length (map (at_col i) (rows f)) = List.length (rows f))
    by apply length_map.
  eexists. split; [reflexivity|].
  split; [now apply FrameFacts.setitem_wf|].
  split; [now apply (PdFacts.getitem_setitem f "DBN")|]. split.
  - unfold has_column.
    destruct (FrameFacts.find_col_setitem_same f "DBN" (dtype_at f i)
                (map (at_col i) (rows f))) as [j ->]. reflexivity.
  - intros other Ho.
    now apply (FrameFacts.getitem_setitem_other f "DBN").
Qed.

Lemma add_directory_DBN_spec_witness :
  exists f',
    add_directory_DBN directory_example = Ok f' /\
    getitem f' "DBN" = Ok [Text "17K548"; Text "09X543"] /\
    getitem f' "dbn" = Ok [Text "17K548"; Text "09X543"].
Proof.
  destruct (add_directory_DBN_spec directory_example ltac:(repeat constructor))
    as (f' & E & _ & G & _ & O).
  exists f'. split; [exact E|]. split; [exact G|].
  rewrite (O "dbn") by discriminate. reflexivity.
Defined.

(** X5: constructed keys do not collide.  Two class-size rows whose school
    codes have the same length get the same DBN only when they have the
    same district number and the same school code. *)
Theorem class_size_DBN_injective (a b : Z) (c c' : string) :
  String.length c = String.length c' ->
  (pad_csd a ++ c = pad_csd b ++ c')%string -> a = b /\ c = c'.
Proof.
  intros L E. destruct (PadFacts.append_inj_length _ _ _ _ E L) as [Ep Ec].
  split; [now apply PadFacts.pad_csd_inj|exact Ec].
Qed.

Lemma class_size_DBN_injective_witness : 1%Z = 1%Z /\ "M015" = "M015".
Proof.
  exact (class_size_DBN_injective 1 1 "M015" "M015" eq_refl eq_refl).
Defined.

(** X6: for a district number from 0 to 99, the first two characters of
    the constructed DBN are the padded district number: the district read
    back from the key is the one the key was built from. *)
Theorem school_dist_of_constructed_DBN (n : Z) (code : string) :
  (0 <= n <= 99)%Z ->
  get_first_two_chars (pad_csd n ++ code)%string = pad_csd n.
Proof.
  intros H. pose proof (PadFacts.pad_csd_two_digits n H) as L.
  assert (E : forall s, get_first_two_chars s = Str.take 2 s).
  { intros s. unfold get_first_two_chars, Str.slice, Str.clamp, Str.len.
    simpl. rewrite Nat.sub_0_r, StrFacts.substring_0.
    destruct s as [|x [|y r]]; reflexivity. }
  rewrite E. unfold Str.len in L.
  destruct (pad_csd n) as [|x [|y [|z r]]]; simpl in L; try discriminate.
  reflexivity.
Qed.

Lemma school_dist_of_constructed_DBN_witness :
  get_first_two_chars (pad_csd 1 ++ "M015")%string = pad_csd 1.
Proof.
  apply (school_dist_of_constructed_DBN 1 "M015"). lia.
Defined.

(** ** The feature deriver *)

(** X7: the SAT columns.  On a table with the three section columns, the
    derivation returns a table of as many rows in which each section
    column holds its coerced cells and every column other than these and
    "sat_score" is as it was; when a section column is missing, it raises
    the [KeyError] of the first missing one. *)
Theorem derive_sat_score_columns parse (f : frame) :
  wf f ->
  match getitem f sat_math, getitem f sat_reading, getitem f sat_writing with
  | Ok m, Ok r, Ok w =>
      exists f',
        derive_sat_score parse f = Ok f' /\ wf f' /\
        List.length (rows f') = List.length (rows f) /\
        getitem f' sat_math = Ok (to_numeric parse m) /\
        getitem f' sat_reading = Ok (to_numeric parse r) /\
        getitem f' sat_writing = Ok (to_numeric parse w) /\
        forall other,
          other <> sat_math -> other <> sat_reading ->
          other <> sat_writing -> other <> "sat_score" ->
          getitem f' other = getitem f other
  | Raise e, _, _ | Ok _, Raise e, _ | Ok _, Ok _, Raise e =>
      derive_sat_score parse f = Raise e
  end.
Proof.
  intros Hwf. unfold derive_sat_score.
  destruct (getitem f sat_math) as [m|e] eqn:G1;
    [|now rewrite (CoerceFacts.coerce_column_raise _ _ _ _ G1)].
  destruct (CoerceFacts.coerce_column_step parse f _ m Hwf G1)
    as (f1 & -> & W1 & R1 & S1 & O1). cbn [bind].
  destruct (getitem f sat_reading) as [r|e] eqn:G2.
  2:{ destruct (getitem f sat_writing);
        rewrite (CoerceFacts.coerce_column_raise parse f1 _ e); auto;
        rewrite O1 by discriminate; exact G2. }
  assert (G2' : getitem f1 sat_reading = Ok r)
    by (rewrite O1 by discriminate; exact G2).
  destruct (CoerceFacts.coerce_column_step parse f1 _ r W1 G2')
    as (f2 & -> & W2 & R2 & S2 & O2). cbn [bind].
  destruct (getitem f sat_writing) as [w|e] eqn:G3.
  2:{ rewrite (CoerceFacts.coerce_column_raise parse f2 _ e); auto.
      rewrite O2, O1 by discriminate. exact G3. }
  assert (G3' : getitem f2 sat_writing = Ok w)
    by (rewrite O2, O1 by discriminate; exact G3).
  destruct (CoerceFacts.coerce_column_step parse f2 _ w W2 G3')
    as (f3 & -> & W3 & R3 & S3 & O3). cbn [bind].
  assert (M3 : getitem f3 sat_math = Ok (to_numeric parse m))
    by (rewrite O3, O2 by discriminate; exact S1).
  assert (Rd3 : getitem f3 sat_reading = Ok (to_numeric parse r))
    by (rewrite O3 by discriminate; exact S2).
  rewrite M3, Rd3, S3. cbn [bind].
  assert (N : forall cs, Forall numeric_cell (to_numeric parse cs)).
  { intros cs. unfold to_numeric. apply Forall_map, Forall_forall.
    intros c _. apply PdFacts.coerce_cases. }
  destruct (CoerceFacts.series_add_numeric _ _ (N m) (N r))
    as (mr & -> & Nmr & Lmr). cbn [bind].
  destruct (CoerceFacts.series_add_numeric _ _ Nmr (N w))
    as (mrw & -> & _ & Lmrw). cbn [bind].
  assert (L : List.length mrw = List.length (rows f3)).
  { apply FrameFacts.getitem_length in M3, Rd3, S3. lia. }
  eexists. split; [reflexivity|].
  split; [now apply FrameFacts.setitem_wf|].
  split; [rewrite FrameFacts.setitem_rows_length; lia|].
  split; [rewrite FrameFacts.getitem_setitem_other by (auto; discriminate);
          exact M3|].
  split; [rewrite FrameFacts.getitem_setitem_other by (auto; discriminate);
          exact Rd3|].
  split; [rewrite FrameFacts.getitem_setitem_other by (auto; discriminate);
          exact S3|].
  intros other H1 H2 H3 H4.
  rewrite FrameFacts.getitem_setitem_other by auto.
  now rewrite O3, O2, O1.
Qed.

Lemma derive_sat_score_columns_witness :
  exists f',
    derive_sat_score decimal_literal sat_example = Ok f' /\
    getitem f' sat_math = Ok [num 400; NaN; num 500] /\
    getitem f' "DBN" = Ok [Text "01M001"; Text "01M002"; Text "01M003"].
Proof.
  destruct (derive_sat_score_columns decimal_literal sat_example
              ltac:(repeat constructor))
    as (f' & E & _ & _ & M & _ & _ & O).
  exists f'. split; [exact E|]. split; [exact M|].
  rewrite (O "DBN") by discriminate. reflexivity.
Defined.

(** X8: the two coordinate extractions succeed on the same texts: both
    return when the pattern matches somewhere in the text, and both raise
    [IndexError], and nothing else, when it matches nowhere. *)
Theorem find_lat_lon_together (loc : string) :
  ((exists lat, find_lat loc = Ok lat) <-> (exists lon, find_lon loc = Ok lon)) /\
  (find_lat loc = Raise IndexError <-> Re.findall coords_re loc = []) /\
  (find_lon loc = Raise IndexError <-> Re.findall coords_re loc = []) /\
  (forall e, find_lat loc = Raise e \/ find_lon loc = Raise e -> e = IndexError).
Proof.
  destruct (CoordFacts.find_lat_lon_cases loc)
    as [(E & Hlat & Hlon)|(E & lat & lon & Hlat & Hlon)];
    rewrite Hlat, Hlon.
  - split; [|split; [|split]].
    + split; intros [x H]; discriminate.
    + tauto.
    + tauto.
    + intros e [H|H]; injection H as <-; reflexivity.
  - split; [|split; [|split]].
    + split; eauto.
    + split; [discriminate|intros H; now destruct E].
    + split; [discriminate|intros H; now destruct E].
    + intros e [H|H]; discriminate.
Qed.

(** X9: the results of the coordinate extractions are clean: the latitude
    holds no opening parenthesis, the longitude no closing parenthesis and
    no whitespace at either end, and neither holds a comma or a line
    feed. *)
Theorem find_coordinates_clean (loc lat lon : string) :
  find_lat loc = Ok lat -> find_lon loc = Ok lon ->
  (Str.mem "("%char lat = false /\ Str.mem ","%char lat = false /\
   Str.mem Re.newline lat = false) /\
  (Str.mem ")"%char lon = false /\ Str.mem ","%char lon = false /\
   Str.mem Re.newline lon = false /\ Str.strip lon = lon).
Proof.
  unfold find_lat, find_lon.
  destruct (Re.findall coords_re loc) as [|m t] eqn:E;
    cbn [index nth_error bind]; [discriminate|].
  assert (HM : Matches coords_re m).
  { apply (CoordFacts.scan_matches coords_re loc 0). unfold Re.findall in E.
    rewrite E. now left. }
  pose proof (CleanFacts.match_one_line m HM) as N.
  unfold split_comma.
  destruct (CleanFacts.split_pieces ","%char ","%char m (or_introl eq_refl))
    as [Ch Ct].
  destruct (CleanFacts.split_pieces Re.newline ","%char m (or_intror N))
    as [Nh Nt].
  destruct (Str.split ","%char m) as [h ps]. cbn [fst snd] in *.
  cbn [index nth_error bind]. intros Hlat. injection Hlat as <-.
  destruct ps as [|p ps']; cbn [index nth_error bind]; [discriminate|].
  intros Hlon. injection Hlon as <-.
  inversion Ct as [|? ? Cp _]; subst. inversion Nt as [|? ? Np _]; subst.
  split; [split; [|split]|split; [|split; [|split]]].
  - apply CleanFacts.mem_remove.
  - now apply CleanFacts.mem_remove_other.
  - now apply CleanFacts.mem_remove_other.
  - apply CleanFacts.mem_strip, CleanFacts.mem_remove.
  - now apply CleanFacts.mem_strip, CleanFacts.mem_remove_other.
  - now apply CleanFacts.mem_strip, CleanFacts.mem_remove_other.
  - apply CleanFacts.strip_idem.
Qed.

Lemma find_coordinates_clean_witness :
  (Str.mem "("%char "40.670" = false /\ Str.mem ","%char "40.670" = false /\
   Str.mem Re.newline "40.670" = false) /\
  (Str.mem ")"%char "-73.961" = false /\ Str.mem ","%char "-73.961" = false /\
   Str.mem Re.newline "-73.961" = false /\ Str.strip "-73.961" = "-73.961").
Proof.
  exact (find_coordinates_clean
           ("883 Classon Avenue" ++ String Re.newline "Brooklyn, NY 11225"
            ++ String Re.newline "(40.670, -73.961)")
           "40.670" "-73.961" eq_refl eq_refl).
Defined.

(** X10: the directory's coordinates.  On a directory with a column
    "Location 1": when every location is a text in which the pattern
    matches, the derivation returns a table whose "lat" and "lon" hold the
    coerced results of the two extractions, every other column as it was;
    otherwise it raises [TypeError] or [IndexError]. *)
Theorem derive_coordinates_cases parse (f : frame) (i : nat) :
  wf f -> find_col "Location 1" (columns f) = Some i ->
  if forallb has_coordinates (column f i)
  then exists f' lat lon,
         derive_coordinates parse f = Ok f' /\ wf f' /\
         apply_str find_lat (column f i) = Ok lat /\
         apply_str find_lon (column f i) = Ok lon /\
         getitem f' "lat" = Ok (to_numeric parse lat) /\
         getitem f' "lon" = Ok (to_numeric parse lon) /\
         forall other, other <> "lat" -> other <> "lon" ->
                       getitem f' other = getitem f other
  else exists e,
         derive_coordinates parse f = Raise e /\
         (e = TypeError \/ e = IndexError).
Proof.
  intros Hwf Hi. destruct (forallb has_coordinates (column f i)) eqn:Ht.
  - now apply CoordColumn.derive_coordinates_ok.
  - now apply (CoordColumn.derive_coordinates_error parse f i).
Qed.

Lemma derive_coordinates_cases_witness :
  exists f',
    derive_coordinates decimal_literal directory_example = Ok f' /\
    getitem f' "lat"
    = Ok [Num (Qred (Qmake 40670 1000)); Num (Qred (Qmake 40827 1000))] /\
    getitem f' "lon"
    = Ok [Num (Qred (Qmake (- 73961) 1000));
          Num (Qred (Qmake (- 73904) 1000))].
Proof.
  pose proof (derive_coordinates_cases decimal_literal directory_example 1
    ltac:(repeat constructor) eq_refl) as H.
  then_branch H.
  destruct H as (f' & lat & lon & E & _ & Elat & Elon & Glat & Glon & _).
  exists f'. split; [exact E|].
  injection Elat as <-. injection Elon as <-.
  split; [exact Glat|exact Glon].
Defined.

(** ** The condenser *)

(** X11: condensing demographics or graduation a second time changes
    nothing: applied to its own result, each of the two returns that
    result. *)
Theorem condense_filters_idempotent :
  (forall f f1, condense_demographics f = Ok f1 ->
                condense_demographics f1 = Ok f1) /\
  (forall f f1, condense_graduation f = Ok f1 ->
                condense_graduation f1 = Ok f1).
Proof.
  split.
  - intros f f1. apply FilterFacts.filter_eq_idem.
  - intros f f2. unfold condense_graduation.
    destruct (filter_eq f "Cohort" (Text "2006")) as [f1|] eqn:E1;
      [|discriminate].
    cbn [bind]. intros E2.
    destruct (FilterFacts.filter_eq_two_idem _ _ _ _ _ _ _ E1 E2)
      as (g & -> & G). cbn [bind]. exact G.
Qed.

Lemma condense_filters_idempotent_witness :
  (exists f1, condense_demographics demographics_example = Ok f1 /\
              condense_demographics f1 = Ok f1) /\
  (exists f1, condense_graduation graduation_example = Ok f1 /\
              condense_graduation f1 = Ok f1).
Proof.
  destruct condense_filters_idempotent as [D G].
  split; eexists; (split; [reflexivity|]).
  - apply (D demographics_example). reflexivity.
  - apply (G graduation_example). reflexivity.
Defined.

(** X12: grouping by a column gives one row per key: in the grouped table
    a key heads exactly one row when it is not missing and occurs in the
    key column of the input, and no row otherwise. *)
Theorem groupby_mean_one_row_per_key (f : frame) (key : string) (i : nat)
  (f' : frame) :
  find_col key (columns f) = Some i ->
  groupby_mean f key = Ok f' ->
  forall k,
    count_key f' 0 k = if negb (is_nan k) && has_key f i k then 1 else 0.
Proof.
  intros H E k.
  destruct (KeysFacts.groupby_keys f key i f' H E) as [K _].
  rewrite JoinFacts.count_key_column, K.
  rewrite KeysFacts.count_existsb by apply GroupFacts.group_keys_distinct.
  rewrite KeysFacts.group_keys_existsb. unfold has_key.
  now rewrite KeysFacts.existsb_map_comp.
Qed.

Lemma groupby_mean_one_row_per_key_witness :
  exists f',
    groupby_mean class_size_example "DBN" = Ok f' /\
    count_key f' 0 (Text "01M002") = 1 /\
    count_key f' 0 (Text "01M009") = 0 /\
    count_key f' 0 NaN = 0.
Proof.
  eexists. split; [reflexivity|].
  pose proof (groupby_mean_one_row_per_key class_size_example "DBN" 1 _
                eq_refl eq_refl) as H.
  split; [exact (H (Text "01M002"))|].
  split; [exact (H (Text "01M009"))|exact (H NaN)].
Defined.

(** X13: the grouped table is well-formed, its rows come in increasing
    order of the key, and no row has a missing key. *)
Theorem groupby_mean_sorted (f : frame) (key : string) (i : nat) (f' : frame) :
  find_col key (columns f) = Some i ->
  groupby_mean f key = Ok f' ->
  wf f' /\ sorted_keys (column f' 0) = true /\
  Forall (fun k => k <> NaN) (column f' 0).
Proof.
  intros H E. destruct (KeysFacts.groupby_keys f key i f' H E) as [K W].
  unfold column. rewrite K. split; [exact W|]. split.
  - unfold group_keys. apply GroupFacts.sort_sorted.
  - eapply Forall_impl; [|apply GroupFacts.group_keys_not_nan].
    intros k. now destruct k.
Qed.

Lemma groupby_mean_sorted_witness :
  exists f',
    groupby_mean class_size_example "DBN" = Ok f' /\
    wf f' /\ sorted_keys (column f' 0) = true /\
    Forall (fun k => k <> NaN) (column f' 0).
Proof.
  eexists. split; [reflexivity|].
  exact (groupby_mean_sorted class_size_example "DBN" 1 _ eq_refl eq_refl).
Defined.

(** X14: the AP columns.  On a table with the three AP columns the
    coercion returns a table in which each of them holds its coerced cells
    and every other column is as it was; when one is missing it raises the
    [KeyError] of the first missing one. *)
Theorem coerce_ap_columns parse (f : frame) :
  wf f ->
  match getitem f "AP Test Takers ", getitem f "Total Exams Taken",
        getitem f "Number of Exams with scores 3 4 or 5" with
  | Ok v1, Ok v2, Ok v3 =>
      exists f',
        coerce_ap parse f = Ok f' /\ wf f' /\
        getitem f' "AP Test Takers " = Ok (to_numeric parse v1) /\
        getitem f' "Total Exams Taken" = Ok (to_numeric parse v2) /\
        getitem f' "Number of Exams with scores 3 4 or 5"
        = Ok (to_numeric parse v3) /\
        forall other,
          other <> "AP Test Takers " -> other <> "Total Exams Taken" ->
          other <> "Number of Exams with scores 3 4 or 5" ->
          getitem f' other = getitem f other
  | Raise e, _, _ | Ok _, Raise e, _ | Ok _, Ok _, Raise e =>
      coerce_ap parse f = Raise e
  end.
Proof.
  intros Hwf. unfold coerce_ap.
  destruct (getitem f "AP Test Takers ") as [v1|e] eqn:G1;
    [|now rewrite (CoerceFacts.coerce_column_raise _ _ _ _ G1)].
  destruct (CoerceFacts.coerce_column_step parse f _ v1 Hwf G1)
    as (f1 & -> & W1 & _ & S1 & O1). cbn [bind].
  destruct (getitem f "Total Exams Taken") as [v2|e] eqn:G2.
  2:{ destruct (getitem f "Number of Exams with scores 3 4 or 5");
        rewrite (CoerceFacts.coerce_column_raise parse f1 _ e); auto;
        rewrite O1 by discriminate; exact G2. }
  assert (G2' : getitem f1 "Total Exams Taken" = Ok v2)
    by (rewrite O1 by discriminate; exact G2).
  destruct (CoerceFacts.coerce_column_step parse f1 _ v2 W1 G2')
    as (f2 & -> & W2 & _ & S2 & O2). cbn [bind].
  destruct (getitem f "Number of Exams with scores 3 4 or 5") as [v3|e] eqn:G3.
  2:{ apply CoerceFacts.coerce_column_raise.
      rewrite O2, O1 by discriminate. exact G3. }
  assert (G3' : getitem f2 "Number of Exams with scores 3 4 or 5" = Ok v3)
    by (rewrite O2, O1 by discriminate; exact G3).
  destruct (CoerceFacts.coerce_column_step parse f2 _ v3 W2 G3')
    as (f3 & -> & W3 & _ & S3 & O3).
  exists f3. split; [reflexivity|]. split; [exact W3|].
  split; [rewrite O3, O2 by discriminate; exact S1|].
  split; [rewrite O3 by discriminate; exact S2|].
  split; [exact S3|].
  intros other H1 H2 H3. now rewrite O3, O2, O1.
Qed.

Lemma coerce_ap_columns_witness :
  exists f',
    coerce_ap decimal_literal ap_example = Ok f' /\
    getitem f' "AP Test Takers " = Ok [num 39; NaN] /\
    getitem f' "Total Exams Taken" = Ok [num 49; num 21] /\
    getitem f' "DBN" = Ok [Text "01M448"; Text "01M450"].
Proof.
  destruct (coerce_ap_columns decimal_literal ap_example
              ltac:(repeat constructor))
    as (f' & E & _ & G1 & G2 & _ & O).
  exists f'. split; [exact E|]. split; [exact G1|]. split; [exact G2|].
  rewrite (O "DBN") by discriminate. reflexivity.
Defined.

(** ** The merger *)

(** X15: shape of the merged table.  When the seven tables are well-formed
    and the joins return, the merged table is well-formed and has as many
    columns as the seven tables together, less the key column of each of
    the six joined tables. *)
Theorem merged_wf (d : data) (m : frame) :
  wf (sat_results d) -> Forall wf (joined d) ->
  merged d = Ok m ->
  wf m /\
  width m + 6
  = width (sat_results d) + width (ap_2010 d) + width (graduation d)
    + width (class_size d) + width (demographics d) + width (survey d)
    + width (hs_directory d).
Proof.
  intros Hs Hj Hm.
  apply MergedFacts.merged_steps in Hm
    as (c1 & c2 & c3 & c4 & c5 & M1 & M2 & M3 & M4 & M5 & M6).
  unfold joined in Hj.
  inversion Hj as [|? ? Hap Hj1]; subst. inversion Hj1 as [|? ? Hgr Hj2]; subst.
  inversion Hj2 as [|? ? Hcs Hj3]; subst. inversion Hj3 as [|? ? Hdm Hj4]; subst.
  inversion Hj4 as [|? ? Hsv Hj5]; subst. inversion Hj5 as [|? ? Hhs _]; subst.
  destruct (JoinFacts.merge_wf _ _ _ _ _ Hs Hap M1) as [W1 N1].
  destruct (JoinFacts.merge_wf _ _ _ _ _ W1 Hgr M2) as [W2 N2].
  destruct (JoinFacts.merge_wf _ _ _ _ _ W2 Hcs M3) as [W3 N3].
  destruct (JoinFacts.merge_wf _ _ _ _ _ W3 Hdm M4) as [W4 N4].
  destruct (JoinFacts.merge_wf _ _ _ _ _ W4 Hsv M5) as [W5 N5].
  destruct (JoinFacts.merge_wf _ _ _ _ _ W5 Hhs M6) as [W6 N6].
  split; [exact W6|].
  assert (P : forall l r k h c, merge l r k h = Ok c -> 1 <= width r).
  { intros l r k h c. unfold merge, col_index.
    destruct (find_col k (columns l)); [|discriminate].
    destruct (find_col k (columns r)) as [ir|] eqn:E; [|discriminate].
    intros _. apply PdFacts.find_col_lt in E. unfold width. lia. }
  pose proof (P _ _ _ _ _ M1). pose proof (P _ _ _ _ _ M2).
  pose proof (P _ _ _ _ _ M3). pose proof (P _ _ _ _ _ M4).
  pose proof (P _ _ _ _ _ M5). pose proof (P _ _ _ _ _ M6). lia.
Qed.

Lemma merged_wf_witness :
  exists m, merged data_example = Ok m /\ wf m /\ width m = 8.
Proof.
  eexists. split; [reflexivity|].
  assert (H := merged_wf data_example _
                 ltac:(repeat constructor) ltac:(repeat constructor) eq_refl).
  destruct H as [W N]. split; [exact W|]. reflexivity.
Defined.




(** X18: after imputation no cell of the table is missing, and the table
    has the columns and the number of rows it had. *)
Theorem impute_no_missing (f : frame) :
  Forall (Forall (fun c => c <> NaN)) (rows (impute f)) /\
  columns (impute f) = columns f /\
  List.length (rows (impute f)) = List.length (rows f).
Proof.
  split; [apply FillFacts.impute_rows_present|]. split; [reflexivity|].
  unfold impute. cbn [rows fillna fillna_each]. now rewrite !length_map.
Qed.

(** X19: imputing a well-formed table a second time changes nothing. *)
Theorem impute_idempotent (f : frame) :
  wf f -> impute (impute f) = impute f.
Proof.
  intros Hwf.
  pose proof (FillFacts.impute_rows_present f) as Hp.
  pose proof (FillFacts.impute_wf f Hwf) as Hw.
  set (g := impute f) in *.
  unfold impute at 1. unfold fillna, fillna_each. cbn [columns rows].
  destruct g as [cols rs] eqn:E. cbn [columns rows] in *. f_equal.
  rewrite map_map. rewrite <- (map_id rs) at 2. apply map_ext_in.
  intros r Hr. rewrite Forall_forall in Hp. specialize (Hp r Hr).
  unfold wf, width in Hw. cbn [columns rows] in Hw.
  rewrite Forall_forall in Hw. specialize (Hw r Hr).
  rewrite FillFacts.zip_with_fill_id; [now apply FillFacts.map_fill_id| |exact Hp].
  rewrite ImputeFacts.length_column_means. unfold width. cbn [columns]. lia.
Qed.

Lemma impute_idempotent_witness :
  impute (impute class_size_example) = impute class_size_example.
Proof.
  apply (impute_idempotent class_size_example). repeat constructor.
Defined.

(** ** The analyzer *)

(** X20: the district column.  On a well-formed table with a column "DBN":
    when every key is a text, the assignment returns a well-formed table
    whose "school_dist" holds the first two characters of each key, every
    other column as it was; when some key is a number or is missing, it
    raises [TypeError]. *)
Theorem add_school_dist_cases (c : frame) (i : nat) :
  wf c -> find_col "DBN" (columns c) = Some i ->
  if forallb is_text (column c i)
  then exists c' dist,
         add_school_dist c = Ok c' /\ wf c' /\
         getitem c' "school_dist" = Ok dist /\
         Forall2 (fun k d => exists s,
                      k = Text s /\ d = Text (get_first_two_chars s))
                 (column c i) dist /\
         forall other, other <> "school_dist" ->
                       getitem c' other = getitem c other
  else add_school_dist c = Raise TypeError.
Proof.
  intros Hwf Hi. destruct (forallb is_text (column c i)) eqn:Ht.
  - now apply DistrictFacts.add_school_dist_ok.
  - now apply (DistrictFacts.add_school_dist_type_error c i).
Qed.

Lemma add_school_dist_cases_witness :
  (exists c',
     add_school_dist schools_example = Ok c' /\
     getitem c' "school_dist" = Ok [Text "01"; Text "02"; Text "02"]) /\
  add_school_dist
    (mkFrame [("DBN", Object)] [[Text "01M015"]; [NaN]])
  = Raise TypeError.
Proof.
  split.
  - pose proof (add_school_dist_cases schools_example 0
      ltac:(repeat constructor) eq_refl) as H.
    then_branch H. destruct H as (c' & dist & E & _).
    exists c'. split; [exact E|]. injection E as <-. reflexivity.
  - exact (add_school_dist_cases
             (mkFrame [("DBN", Object)] [[Text "01M015"]; [NaN]]) 0
             ltac:(repeat constructor) eq_refl).
Defined.

(** X21: grouping by district.  On a well-formed table whose keys are all
    texts, adding the district column and grouping by it returns a table
    with at most one row per key, exactly one row for the district of
    every school, and no row for a district without a school. *)
Theorem districts_cover_schools (c : frame) (i : nat) :
  wf c -> find_col "DBN" (columns c) = Some i ->
  forallb is_text (column c i) = true ->
  exists c' ds,
    add_school_dist c = Ok c' /\ districts c' = Ok ds /\
    (forall k, count_key ds 0 k <= 1) /\
    (forall s, In (Text s) (column c i) ->
               count_key ds 0 (Text (get_first_two_chars s)) = 1) /\
    (forall k, In k (column ds 0) ->
               exists s, In (Text s) (column c i) /\
                         key_eqb k (Text (get_first_two_chars s)) = true).
Proof.
  intros Hwf Hi Ht.
  destruct (DistrictFacts.add_school_dist_ok c i Hwf Hi Ht)
    as (c' & dist & -> & W' & Gd & F & _).
  unfold getitem, col_index in Gd.
  destruct (find_col "school_dist" (columns c')) as [j|] eqn:Ej; [|discriminate].
  cbn [bind] in Gd. injection Gd as Gd.
  destruct (GroupFacts.groupby_mean_ok c' "school_dist" j Ej) as (ds & G & _ & U).
  exists c', ds. split; [reflexivity|]. split; [exact G|]. split; [exact U|].
  destruct (KeysFacts.groupby_keys c' "school_dist" j ds Ej G) as [K _].
  split.
  - intros s Hs.
    rewrite JoinFacts.count_key_column, K.
    rewrite KeysFacts.count_existsb by apply GroupFacts.group_keys_distinct.
    rewrite KeysFacts.group_keys_existsb, Gd. cbn [is_nan negb andb].
    destruct (TraverseFacts.forall2_in_l _ _ _ _ F Hs) as (d & Hd & s' & E & ->).
    injection E as <-.
    assert (X : existsb (key_eqb (Text (get_first_two_chars s))) dist = true).
    { apply existsb_exists. eexists. split; [exact Hd|].
      apply GroupFacts.key_eqb_refl. }
    now rewrite X.
  - intros k Hk. unfold column in Hk. rewrite K in Hk.
    assert (X : existsb (key_eqb k) (group_keys (map (at_col j) (rows c'))) = true).
    { apply existsb_exists. exists k. split; [exact Hk|].
      apply GroupFacts.key_eqb_refl. }
    rewrite KeysFacts.group_keys_existsb, Gd in X.
    apply andb_true_iff in X as [_ X]. apply existsb_exists in X as (d & Hd & Ek).
    assert (F' : Forall2 (fun d k0 => exists s,
                            k0 = Text s /\ d = Text (get_first_two_chars s))
                         dist (column c i)).
    { clear - F. induction F; constructor; auto. }
    destruct (TraverseFacts.forall2_in_l _ _ _ _ F' Hd) as (k0 & Hk0 & s & -> & ->).
    exists s. auto.
Qed.

Lemma districts_cover_schools_witness :
  exists c' ds,
    add_school_dist schools_example = Ok c' /\ districts c' = Ok ds /\
    count_key ds 0 (Text "02") = 1 /\
    column ds 0 = [Text "01"; Text "02"].
Proof.
  destruct (districts_cover_schools schools_example 0
              ltac:(repeat constructor) eq_refl eq_refl)
    as (c' & ds & E & D & _ & C & _).
  exists c', ds. split; [exact E|]. split; [exact D|]. split.
  - apply (C "02M047"). simpl. tauto.
  - injection E as <-. injection D as <-. reflexivity.
Defined.

(** X22: the two selections.  On a table with the columns "hispanic_per"
    and "sat_score": the first selection keeps, in order and with all
    their columns, exactly the rows whose Hispanic share is a number above
    95, and raises [TypeError] when the column holds a text; the second
    keeps exactly the rows whose share is a number below 10 and whose SAT
    score is a number above 1800, and raises [TypeError] when one of the
    two columns holds a text.  A row with a missing value is in neither. *)
Theorem selections_spec (c : frame) (ih isc : nat) :
  find_col "hispanic_per" (columns c) = Some ih ->
  find_col "sat_score" (columns c) = Some isc ->
  hispanic c
  = (if forallb (fun x => negb (is_text x)) (column c ih)
     then Ok (mkFrame (columns c)
                (filter (fun r => above (inject_Z 95) (at_col ih r)) (rows c)))
     else Raise TypeError) /\
  high_hisp c
  = (if forallb (fun x => negb (is_text x)) (column c ih)
        && forallb (fun x => negb (is_text x)) (column c isc)
     then Ok (mkFrame (columns c)
                (filter (fun r => below (inject_Z 10) (at_col ih r)
                                  && above (inject_Z 1800) (at_col isc r))
                        (rows c)))
     else Raise TypeError).
Proof.
  intros Hh Hs. unfold hispanic, high_hisp.
  rewrite (FrameFacts.getitem_column _ _ _ Hh),
          (FrameFacts.getitem_column _ _ _ Hs). cbn [bind].
  rewrite SelectFacts.cell_gt_column, SelectFacts.cell_lt_column.
  destruct (forallb (fun x => negb (is_text x)) (column c ih));
    cbn [bind andb]; [|split; reflexivity].
  rewrite SelectFacts.cell_gt_column.
  destruct (forallb (fun x => negb (is_text x)) (column c isc));
    cbn [bind]; unfold column; rewrite ?map_map; split; try reflexivity.
  - apply f_equal.
    apply (SelectFacts.select_rows_filter
             (fun r => above (inject_Z 95) (at_col ih r))).
  - apply f_equal. rewrite SelectFacts.zip_with_map2.
    apply (SelectFacts.select_rows_filter
             (fun r => below (inject_Z 10) (at_col ih r)
                       && above (inject_Z 1800) (at_col isc r))).
  - apply f_equal.
    apply (SelectFacts.select_rows_filter
             (fun r => above (inject_Z 95) (at_col ih r))).
Qed.

Lemma selections_spec_witness :
  hispanic schools_example
  = Ok (mkFrame (columns schools_example)
          [[Text "02M047"; num 99; num 1000]]) /\
  high_hisp schools_example
  = Ok (mkFrame (columns schools_example)
          [[Text "02M475"; num 2; num 2000]]).
Proof.
  exact (selections_spec schools_example 1 2 eq_refl eq_refl).
Defined.

(** X23: the two selections never share a row: no row of the schools
    with a Hispanic share above 95 is among the schools with a share below
    10 and a score above 1800. *)
Theorem selections_disjoint (c a b : frame) :
  hispanic c = Ok a -> high_hisp c = Ok b ->
  Forall (fun row => ~ In row (rows b)) (rows a).
Proof.
  intros Ha Hb. apply Forall_forall. intros row. revert Ha Hb.
  unfold hispanic, high_hisp.
  destruct (getitem c "hispanic_per") as [h|] eqn:G; [|discriminate].
  cbn [bind]. unfold getitem, col_index in G.
  destruct (find_col "hispanic_per" (columns c)) as [ih|] eqn:Eh;
    [|discriminate].
  cbn [bind] in G. injection G as <-.
  rewrite SelectFacts.cell_gt_column, SelectFacts.cell_lt_column.
  destruct (forallb (fun x => negb (is_text x)) (map (at_col ih) (rows c)));
    [|discriminate].
  cbn [bind]. intros Ha. injection Ha as <-.
  destruct (getitem c "sat_score") as [s|] eqn:G; [|discriminate].
  cbn [bind]. unfold getitem, col_index in G.
  destruct (find_col "sat_score" (columns c)) as [isc|] eqn:Es;
    [|discriminate].
  cbn [bind] in G. injection G as <-.
  rewrite SelectFacts.cell_gt_column.
  destruct (forallb (fun x => negb (is_text x)) (map (at_col isc) (rows c)));
    [|discriminate].
  cbn [bind]. intros Hb. injection Hb as <-.
  rewrite !map_map, SelectFacts.zip_with_map2.
  rewrite (SelectFacts.select_rows_filter
             (fun r => above (inject_Z 95) (at_col ih r))).
  rewrite (SelectFacts.select_rows_filter
             (fun r => below (inject_Z 10) (at_col ih r)
                       && above (inject_Z 1800) (at_col isc r))).
  cbn [rows]. intros H1 H2.
  apply filter_In in H1 as [_ H1]. apply filter_In in H2 as [_ H2].
  apply SelectFacts.above_not_below in H1. rewrite H1 in H2. discriminate.
Qed.

Lemma selections_disjoint_witness :
  Forall (fun row => ~ In row [[Text "02M475"; num 2; num 2000]])
         [[Text "02M047"; num 99; num 1000]].
Proof.
  exact (selections_disjoint schools_example _ _ eq_refl eq_refl).
Defined.

(** ** Running a step again

    The script is a notebook: a cell may be run more than once on the
    tables it has already changed. *)

(** X24: coercing the AP columns of a table whose AP columns have been
    coerced returns the same table. *)
Theorem coerce_ap_rerun parse (f f' : frame) :
  wf f -> coerce_ap parse f = Ok f' -> coerce_ap parse f' = Ok f'.
Proof.
  intros Hwf. unfold coerce_ap.
  destruct (coerce_column parse f "AP Test Takers ") as [f1|] eqn:E1;
    [|discriminate].
  cbn [bind].
  destruct (coerce_column parse f1 "Total Exams Taken") as [f2|] eqn:E2;
    [|discriminate].
  cbn [bind]. intros E3.
  pose proof (RerunFacts.coerce_column_wf _ _ _ _ Hwf E1) as W1.
  pose proof (RerunFacts.coerce_column_wf _ _ _ _ W1 E2) as W2.
  pose proof (RerunFacts.coerce_column_wf _ _ _ _ W2 E3) as W3.
  assert (C1 : coerced parse f' "AP Test Takers ").
  { apply (RerunFacts.coerce_column_other parse f2 _ f' _ W2 E3);
      [discriminate|].
    apply (RerunFacts.coerce_column_other parse f1 _ f2 _ W1 E2);
      [discriminate|].
    now apply (RerunFacts.coerce_column_coerced parse f). }
  assert (C2 : coerced parse f' "Total Exams Taken").
  { apply (RerunFacts.coerce_column_other parse f2 _ f' _ W2 E3);
      [discriminate|].
    now apply (RerunFacts.coerce_column_coerced parse f1). }
  assert (C3 : coerced parse f' "Number of Exams with scores 3 4 or 5")
    by now apply (RerunFacts.coerce_column_coerced parse f2).
  rewrite (RerunFacts.coerce_column_noop parse f' _ W3 C1). cbn [bind].
  rewrite (RerunFacts.coerce_column_noop parse f' _ W3 C2). cbn [bind].
  exact (RerunFacts.coerce_column_noop parse f' _ W3 C3).
Qed.

Lemma coerce_ap_rerun_witness :
  exists f',
    coerce_ap decimal_literal ap_example = Ok f' /\
    coerce_ap decimal_literal f' = Ok f'.
Proof.
  eexists. split; [reflexivity|].
  apply (coerce_ap_rerun decimal_literal ap_example);
    [repeat constructor|reflexivity].
Defined.

(** X25: deriving the SAT score of a table whose score has been derived
    returns the same table. *)
Theorem derive_sat_score_rerun parse (f f' : frame) :
  wf f -> derive_sat_score parse f = Ok f' ->
  derive_sat_score parse f' = Ok f'.
Proof.
  intros Hwf. unfold derive_sat_score.
  destruct (coerce_column parse f sat_math) as [f1|] eqn:E1; [|discriminate].
  cbn [bind].
  destruct (coerce_column parse f1 sat_reading) as [f2|] eqn:E2;
    [|discriminate].
  cbn [bind].
  destruct (coerce_column parse f2 sat_writing) as [f3|] eqn:E3;
    [|discriminate].
  cbn [bind].
  destruct (getitem f3 sat_math) as [m|] eqn:Gm; [|discriminate]. cbn [bind].
  destruct (getitem f3 sat_reading) as [r|] eqn:Gr; [|discriminate]. cbn [bind].
  destruct (getitem f3 sat_writing) as [w|] eqn:Gw; [|discriminate]. cbn [bind].
  destruct (series_add m r) as [mr|] eqn:A1; [|discriminate]. cbn [bind].
  destruct (series_add mr w) as [mrw|] eqn:A2; [|discriminate]. cbn [bind].
  intros H. injection H as <-.
  pose proof (RerunFacts.coerce_column_wf _ _ _ _ Hwf E1) as W1.
  pose proof (RerunFacts.coerce_column_wf _ _ _ _ W1 E2) as W2.
  pose proof (RerunFacts.coerce_column_wf _ _ _ _ W2 E3) as W3.
  assert (C1 : coerced parse f3 sat_math).
  { apply (RerunFacts.coerce_column_other parse f2 _ f3 _ W2 E3);
      [discriminate|].
    apply (RerunFacts.coerce_column_other parse f1 _ f2 _ W1 E2);
      [discriminate|].
    now apply (RerunFacts.coerce_column_coerced parse f). }
  assert (C2 : coerced parse f3 sat_reading).
  { apply (RerunFacts.coerce_column_other parse f2 _ f3 _ W2 E3);
      [discriminate|].
    now apply (RerunFacts.coerce_column_coerced parse f1). }
  assert (C3 : coerced parse f3 sat_writing)
    by now apply (RerunFacts.coerce_column_coerced parse f2).
  assert (L : List.length mrw = List.length (rows f3)).
  { apply RerunFacts.series_add_length in A1, A2.
    apply FrameFacts.getitem_length in Gm, Gr, Gw. lia. }
  set (f' := setitem f3 "sat_score" Numeric mrw).
  assert (W' : wf f') by now apply FrameFacts.setitem_wf.
  assert (O : forall c, c <> "sat_score" -> getitem f' c = getitem f3 c)
    by (intros c Hc; now apply FrameFacts.getitem_setitem_other).
  rewrite (RerunFacts.coerce_column_noop parse f' sat_math W')
    by (apply RerunFacts.coerced_setitem; auto; discriminate).
  cbn [bind].
  rewrite (RerunFacts.coerce_column_noop parse f' sat_reading W')
    by (apply RerunFacts.coerced_setitem; auto; discriminate).
  cbn [bind].
  rewrite (RerunFacts.coerce_column_noop parse f' sat_writing W')
    by (apply RerunFacts.coerced_setitem; auto; discriminate).
  cbn [bind].
  rewrite !O by discriminate. rewrite Gm, Gr, Gw. cbn [bind].
  rewrite A1. cbn [bind]. rewrite A2. cbn [bind]. f_equal.
  now apply RerunFacts.setitem_again.
Qed.

Lemma derive_sat_score_rerun_witness :
  exists f',
    derive_sat_score decimal_literal sat_example = Ok f' /\
    derive_sat_score decimal_literal f' = Ok f'.
Proof.
  eexists. split; [reflexivity|].
  apply (derive_sat_score_rerun decimal_literal sat_example);
    [repeat constructor|reflexivity].
Defined.

(** X26: deriving the coordinates of a directory whose coordinates have
    been derived returns a table with the same cells in every column. *)
Theorem derive_coordinates_rerun parse (f f' : frame) :
  wf f -> derive_coordinates parse f = Ok f' ->
  exists f'',
    derive_coordinates parse f' = Ok f'' /\ wf f'' /\
    forall c, getitem f'' c = getitem f' c.
Proof.
  intros Hwf H.
  destruct (find_col "Location 1" (columns f)) as [i|] eqn:Hi.
  2:{ unfold derive_coordinates in H.
      now rewrite (FrameFacts.getitem_missing _ _ Hi) in H. }
  destruct (forallb has_coordinates (column f i)) eqn:Ht.
  2:{ destruct (CoordColumn.derive_coordinates_error parse f i Hi Ht)
        as (e & E & _). congruence. }
  destruct (CoordColumn.derive_coordinates_ok parse f i Hwf Hi Ht)
    as (f0 & lat & lon & E & W & Elat & Elon & Glat & Glon & O).
  rewrite E in H. injection H as ->.
  pose proof (O "Location 1" ltac:(discriminate) ltac:(discriminate)) as GL.
  rewrite (FrameFacts.getitem_column f _ i Hi) in GL.
  unfold getitem, col_index in GL.
  destruct (find_col "Location 1" (columns f')) as [i'|] eqn:Hi';
    [|discriminate].
  cbn [bind] in GL. injection GL as GL. fold (column f' i') in GL.
  rewrite <- GL in Ht, Elat, Elon.
  destruct (CoordColumn.derive_coordinates_ok parse f' i' W Hi' Ht)
    as (f'' & lat' & lon' & E' & W' & Elat' & Elon' & Glat' & Glon' & O').
  rewrite Elat in Elat'. injection Elat' as <-.
  rewrite Elon in Elon'. injection Elon' as <-.
  exists f''. split; [exact E'|]. split; [exact W'|]. intros c.
  destruct (String.eqb_spec c "lat") as [->|Nlat]; [congruence|].
  destruct (String.eqb_spec c "lon") as [->|Nlon]; [congruence|].
  now apply O'.
Qed.

Lemma derive_coordinates_rerun_witness :
  exists f' f'',
    derive_coordinates decimal_literal directory_example = Ok f' /\
    derive_coordinates decimal_literal f' = Ok f'' /\
    getitem f'' "lat" = getitem f' "lat".
Proof.
  eexists.
  destruct (derive_coordinates_rerun decimal_literal directory_example _
              ltac:(repeat constructor) eq_refl) as (f'' & E & _ & G).
  exists f''. split; [reflexivity|]. split; [exact E|]. apply G.
Defined.

(** X27: adding the district column to a table that has it returns the
    same table. *)
Theorem add_school_dist_rerun (c c' : frame) :
  wf c -> add_school_dist c = Ok c' -> add_school_dist c' = Ok c'.
Proof.
  intros Hwf. unfold add_school_dist.
  destruct (getitem c "DBN") as [dbn|] eqn:G; [|discriminate]. cbn [bind].
  destruct (apply_str (fun s => Ok (get_first_two_chars s)) dbn)
    as [dist|] eqn:A; [|discriminate].
  cbn [bind]. intros H. injection H as <-.
  assert (L : List.length dist = List.length (rows c)).
  { apply TraverseFacts.traverse_length in A.
    apply FrameFacts.getitem_length in G. lia. }
  rewrite FrameFacts.getitem_setitem_other by (auto; discriminate).
  rewrite G. cbn [bind]. rewrite A. cbn [bind]. f_equal.
  now apply RerunFacts.setitem_again.
Qed.

Lemma add_school_dist_rerun_witness :
  exists c',
    add_school_dist schools_example = Ok c' /\ add_school_dist c' = Ok c'.
Proof.
  eexists. split; [reflexivity|].
  apply (add_school_dist_rerun schools_example);
    [repeat constructor|reflexivity].
Defined.
